(** * YT_daily: the synchronisation and resumable-download engine

    A shallow embedding of [src/YT_daily.py] (class [YouTubeFeedDownloader],
    [Config] and [Config.DirectoryDurationCache]) and the properties of its
    history store, resume store, planner, scanner, download jobs and their
    command lines, progress parser, duration cache, configuration file and
    log rotation.

    Conventions of the embedding.
    - Python [str] is [string]; characters are modelled on the ASCII range
      (code points below 128), where [is_space], [is_digit] and [is_word]
      are what Python's tests hold. The classes [\s], [\d] and [\w] of the
      patterns of [parse_progress], which [re] reads over Unicode, are a
      parameter of the matcher ([char_classes]).
    - A Python [dict] whose iteration order is observable in the code (the
      configured channels and playlists, the resume store swept at load
      time) is an association list in insertion order; the others are
      [gmap]s.
    - [datetime.now()] is an explicit argument: [now_iso] where the code
      stores [datetime.now().isoformat()], [now] (microseconds) where it
      compares instants.
    - The external tools (yt-dlp, the file system) are inputs of the
      functions that consult them.
    - Writing a state file is modelled as succeeding; the [IOError] branches
      of the [save_*] methods only log. *)

From Stdlib Require Import ZArith Lia Ascii String List Permutation.
From Stdlib Require Import DecimalString DecimalZ.
From stdpp Require Import base option list gmap strings sorting.

Local Open Scope Z_scope.

(* ===================================================================== *)
(** * Part I: the embedding                                               *)
(* ===================================================================== *)

(** ** Strings *)

(** [pat in s] on Python strings. *)
Fixpoint contains (pat s : string) : bool :=
  String.prefix pat s
  || match s with
     | EmptyString => false
     | String _ s' => contains pat s'
     end.

(** [s[:n]]. *)
Fixpoint str_take (n : nat) (s : string) : string :=
  match n, s with
  | S n', String a s' => String a (str_take n' s')
  | _, _ => EmptyString
  end.

(** [s] without the prefix [lit], when it starts with it. *)
Fixpoint strip_prefix (lit s : string) : option string :=
  match lit, s with
  | EmptyString, _ => Some s
  | String a lit', String b s' =>
      if Ascii.eqb a b then strip_prefix lit' s' else None
  | String _ _, EmptyString => None
  end.

(** [str.lower()] on ASCII letters. *)
Definition ascii_lower (a : ascii) : ascii :=
  let n := nat_of_ascii a in
  if ((65 <=? n) && (n <=? 90))%nat then ascii_of_nat (n + 32) else a.

Fixpoint str_lower (s : string) : string :=
  match s with
  | EmptyString => EmptyString
  | String a s' => String (ascii_lower a) (str_lower s')
  end.

(** ["".join(ls)]. *)
Definition str_join (ls : list string) : string :=
  fold_right String.append EmptyString ls.

(** [l[-n:]] for a positive [n]. *)
Definition last_n {A} (n : nat) (l : list A) : list A :=
  drop (length l - n)%nat l.

(** ** Regular expressions of [parse_progress]

    The fragment of Python's [re] syntax the four patterns use: literal
    text, the classes [\s \d \w .] and single characters, the greedy
    quantifiers plus, star and question mark applied to one character
    class, sequence, alternation and capturing groups (none nested). *)

Inductive cclass : Type :=
  | CSpace            (* \s *)
  | CDigit            (* \d *)
  | CWord             (* \w *)
  | CDot              (* .  *)
  | CLit (a : ascii). (* one literal character *)

Definition is_space (a : ascii) : bool :=
  let n := nat_of_ascii a in
  (((9 <=? n) && (n <=? 13)) || ((28 <=? n) && (n <=? 32)))%nat.

Definition is_digit (a : ascii) : bool :=
  let n := nat_of_ascii a in ((48 <=? n) && (n <=? 57))%nat.

Definition is_word (a : ascii) : bool :=
  let n := nat_of_ascii a in
  (((48 <=? n) && (n <=? 57)) || ((65 <=? n) && (n <=? 90))
   || ((97 <=? n) && (n <=? 122)) || (n =? 95))%nat.

(** What the classes [\s], [\d] and [\w] hold. The four patterns are [str]
    patterns compiled without [re.ASCII], so [re] reads these three classes
    over Unicode; the matcher takes them as a parameter. *)
Record char_classes : Type := {
  cls_space : ascii → bool;
  cls_digit : ascii → bool;
  cls_word : ascii → bool
}.

(** The three classes on the ASCII characters. *)
Definition ascii_classes : char_classes :=
  {| cls_space := is_space; cls_digit := is_digit; cls_word := is_word |}.

Definition in_class (cls : char_classes) (c : cclass) (a : ascii) : bool :=
  match c with
  | CSpace => cls_space cls a
  | CDigit => cls_digit cls a
  | CWord => cls_word cls a
  | CDot => negb (Ascii.eqb a "010"%char)
  | CLit b => Ascii.eqb a b
  end.

Inductive regex : Type :=
  | RChars (lit : string)
  | RMany (c : cclass) (min : nat)   (* star for min = 0, plus for min = 1 *)
  | ROpt (c : cclass)                (* c? *)
  | RSeq (r1 r2 : regex)
  | RAlt (r1 r2 : regex)
  | RGroup (r : regex).

Declare Scope regex_scope.
Delimit Scope regex_scope with re.
Bind Scope regex_scope with regex.
Infix "⋅" := RSeq (at level 41, right associativity) : regex_scope.

(** The text matched between the position [s] and the later position [s']
    (both given as the remaining input). *)
Definition consumed (s s' : string) : string :=
  str_take (String.length s - String.length s') s.

Section Matcher.
Context {A : Type} (cls : char_classes).

(** Greedy repetition of one class, at least [min] times: take one more
    character while that leads to a match, else stop here. *)
Fixpoint many (p : ascii → bool) (min : nat) (s : string)
    (k : string → option A) : option A :=
  let stop := if (min =? 0)%nat then k s else None in
  match s with
  | String a s' =>
      if p a then
        match many p (Nat.pred min) s' k with
        | Some x => Some x
        | None => stop
        end
      else stop
  | EmptyString => stop
  end.

(** Backtracking matcher in continuation-passing style: [k] receives the
    groups captured so far (in order) and the remaining input. *)
Fixpoint rmatch (r : regex) (caps : list string) (s : string)
    (k : list string → string → option A) : option A :=
  match r with
  | RChars lit =>
      match strip_prefix lit s with
      | Some s' => k caps s'
      | None => None
      end
  | RMany c min => many (in_class cls c) min s (k caps)
  | ROpt c =>
      match s with
      | String a s' =>
          if in_class cls c a then
            match k caps s' with
            | Some x => Some x
            | None => k caps s
            end
          else k caps s
      | EmptyString => k caps s
      end
  | RSeq r1 r2 => rmatch r1 caps s (λ caps' s', rmatch r2 caps' s' k)
  | RAlt r1 r2 =>
      match rmatch r1 caps s k with
      | Some x => Some x
      | None => rmatch r2 caps s k
      end
  | RGroup r1 =>
      rmatch r1 caps s (λ caps' s', k (caps' ++ [consumed s s']) s')
  end.
End Matcher.

(** [re.search(r, s)]: the groups of the leftmost match. *)
Fixpoint re_search (cls : char_classes) (r : regex) (s : string)
    : option (list string) :=
  match rmatch cls r [] s (λ caps _, Some caps) with
  | Some caps => Some caps
  | None =>
      match s with
      | EmptyString => None
      | String _ s' => re_search cls r s'
      end
  end.

(** [m.group(n)], for [n >= 1]. *)
Definition group (n : nat) (caps : list string) : string :=
  nth (n - 1) caps EmptyString.

Definition spaces1 : regex := RMany CSpace 1.
Definition digits1 : regex := RMany CDigit 1.
(** The pattern [\d+ \.? \d*] (here and below the tokens of a pattern are
    set apart by blanks, which are not part of it). *)
Definition number : regex :=
  (digits1 ⋅ ROpt (CLit ".") ⋅ RMany CDigit 0)%re.

(** The pattern
    [\[download\] \s+ ( \d+ \.? \d* ) % \s+ of \s+ ~? \s* ( \d+ \.? \d* )
     ( \w+ ) \s+ at \s+ ( \d+ \.? \d* ) ( \w+ ) /s \s+ ETA \s+
     ( \d+ : \d+ | \d+ )]. *)
Definition progress_re : regex :=
  (RChars "[download]" ⋅ spaces1 ⋅ RGroup number ⋅ RChars "%" ⋅ spaces1
   ⋅ RChars "of" ⋅ spaces1 ⋅ ROpt (CLit "~") ⋅ RMany CSpace 0
   ⋅ RGroup number ⋅ RGroup (RMany CWord 1) ⋅ spaces1 ⋅ RChars "at" ⋅ spaces1
   ⋅ RGroup number ⋅ RGroup (RMany CWord 1) ⋅ RChars "/s" ⋅ spaces1
   ⋅ RChars "ETA" ⋅ spaces1
   ⋅ RGroup (RAlt (digits1 ⋅ RChars ":" ⋅ digits1) digits1))%re.

(** The pattern [\[ExtractAudio\] \s+ Destination: \s+ ( .+ )]. *)
Definition extract_re : regex :=
  (RChars "[ExtractAudio]" ⋅ spaces1 ⋅ RChars "Destination:" ⋅ spaces1
   ⋅ RGroup (RMany CDot 1))%re.

(** The pattern [\[FFmpeg\] \s+ Converting \s+ .+ \s+ to \s+ .+]. *)
Definition ffmpeg_re : regex :=
  (RChars "[FFmpeg]" ⋅ spaces1 ⋅ RChars "Converting" ⋅ spaces1
   ⋅ RMany CDot 1 ⋅ spaces1 ⋅ RChars "to" ⋅ spaces1 ⋅ RMany CDot 1)%re.

(** The pattern
    [\[download\] \s+ Downloading \s+ item \s+ ( \d+ ) \s+ of \s+ ( \d+ )]. *)
Definition playlist_re : regex :=
  (RChars "[download]" ⋅ spaces1 ⋅ RChars "Downloading" ⋅ spaces1
   ⋅ RChars "item" ⋅ spaces1 ⋅ RGroup digits1 ⋅ spaces1 ⋅ RChars "of"
   ⋅ spaces1 ⋅ RGroup digits1)%re.

(** ** [parse_progress] *)

(** The dictionaries [parse_progress] returns, one constructor per value of
    their ["type"] key. *)
Inductive progress : Type :=
  | PDownload (percent size speed eta : string)
  | PExtract (file : string)
  | PConverting
  | PPlaylistProgress (current total : string)
  | PStarting.


(** [parse_progress]; [cls] is what [re] takes the classes of the patterns
    to hold. *)
Definition parse_progress (cls : char_classes) (line : string)
    : option progress :=
  match re_search cls progress_re line with
  | Some m =>
      Some (PDownload (group 1 m)
                      (group 2 m +:+ group 3 m)
                      (group 4 m +:+ group 5 m +:+ "/s")
                      (group 6 m))
  | None =>
  match re_search cls extract_re line with
  | Some m => Some (PExtract (group 1 m))
  | None =>
  match re_search cls ffmpeg_re line with
  | Some _ => Some PConverting
  | None =>
  match re_search cls playlist_re line with
  | Some m => Some (PPlaylistProgress (group 1 m) (group 2 m))
  | None =>
      if contains "[download] Destination:" line then Some PStarting
      else None
  end end end end.

(** ** Python dictionaries in insertion order *)

Section Dict.
Context {V : Type}.

(** [d.get(k)]. *)
Fixpoint dict_get (k : string) (d : list (string * V)) : option V :=
  match d with
  | [] => None
  | (k', v) :: d' => if String.eqb k' k then Some v else dict_get k d'
  end.

(** [d[k] = v]: an existing key keeps its place, a new one goes last. *)
Fixpoint dict_set (k : string) (v : V) (d : list (string * V))
    : list (string * V) :=
  match d with
  | [] => [(k, v)]
  | (k', v') :: d' =>
      if String.eqb k' k then (k', v) :: d' else (k', v') :: dict_set k v d'
  end.

(** [del d[k]] for a key that is present (no change otherwise). *)
Fixpoint dict_del (k : string) (d : list (string * V)) : list (string * V) :=
  match d with
  | [] => []
  | (k', v') :: d' =>
      if String.eqb k' k then d' else (k', v') :: dict_del k d'
  end.

(** [list(d.keys())]. *)
Definition dict_keys (d : list (string * V)) : list string := map fst d.
End Dict.

(** The content of a state file as [json.load] finds it. *)
Inductive file (A : Type) : Type :=
  | FileMissing            (* the path does not exist *)
  | FileCorrupt            (* JSONDecodeError, IOError or UnicodeDecodeError *)
  | FileOk (content : A).
Arguments FileMissing {A}.
Arguments FileCorrupt {A}.
Arguments FileOk {A} content.

(** ** Configuration ([Config]), the fields the engine reads *)

Record Config : Type := {
  max_parallel_downloads : Z;
  resume_cache_days : Z;
  ask_initial_videos : bool;
  initial_videos_per_channel : Z;
  max_videos_per_channel : Z;
  filter_shorts : bool;
  ask_video_limit_per_channel : bool;
  gap_check_limit : Z
}.

(** The defaults of the dataclass. *)
Definition default_config : Config := {|
  max_parallel_downloads := 3;
  resume_cache_days := 7;
  ask_initial_videos := true;
  initial_videos_per_channel := 5;
  max_videos_per_channel := 100;
  filter_shorts := true;
  ask_video_limit_per_channel := false;
  gap_check_limit := 10
|}.

(** ** Items *)

(** The dictionary [get_all_recent_videos] builds for one scanned item. The
    duration is kept as whole seconds; the code only compares it with 60. *)
Record video_info : Type := {
  vi_id : string;
  vi_title : string;
  vi_url : string;
  vi_uploader : string;
  vi_duration : Z;
  vi_duration_formatted : string
}.

(** A fetch task [(video_info, source_name, task_type)]. *)
Definition task : Type := video_info * string * string.

(** ** History store ([channel_history]) *)

Record history_video : Type := {
  hv_id : string;
  hv_title : string;
  hv_url : string;
  hv_downloaded_at : string
}.

Record channel_entry : Type := {
  downloaded_videos : list history_video;
  last_download : string
}.

(** The JSON object of [channel_history.json]; a key that may be looked up
    with a default ([.get]) or created on demand is optional. *)
Record channel_history_t : Type := {
  ch_channels : option (gmap string channel_entry);
  ch_last_updated : option string;
  ch_first_run_completed : option bool
}.

(** ** Resume store ([resume_state]) *)

Record resume_entry : Type := {
  re_url : string;
  re_title : string;
  re_source : string;
  re_progress : Z;
  re_type : string;
  re_timestamp : option string   (* absent in an entry not written by
                                    [update_resume_state] *)
}.

Record resume_state_t : Type := {
  rs_videos : list (string * resume_entry);
  rs_playlists : list (string * resume_entry);
  rs_last_cleanup : string
}.

(** ** The downloader object and its files *)

Record downloader : Type := {
  channels : list (string * string);      (* handle -> display name *)
  playlists : list (string * string);     (* url -> display name *)
  channel_history : channel_history_t;
  resume_state : resume_state_t;
  download_history : gmap string string * gmap string string;
  channel_history_file : file channel_history_t;
  resume_state_file : file resume_state_t
}.

Definition set_channel_history (h : channel_history_t) (st : downloader)
    : downloader :=
  {| channels := channels st; playlists := playlists st;
     channel_history := h; resume_state := resume_state st;
     download_history := download_history st;
     channel_history_file := channel_history_file st;
     resume_state_file := resume_state_file st |}.

Definition set_channel_history_file (f : file channel_history_t)
    (st : downloader) : downloader :=
  {| channels := channels st; playlists := playlists st;
     channel_history := channel_history st; resume_state := resume_state st;
     download_history := download_history st;
     channel_history_file := f;
     resume_state_file := resume_state_file st |}.

Definition set_resume_state (r : resume_state_t) (st : downloader)
    : downloader :=
  {| channels := channels st; playlists := playlists st;
     channel_history := channel_history st; resume_state := r;
     download_history := download_history st;
     channel_history_file := channel_history_file st;
     resume_state_file := resume_state_file st |}.

Definition set_resume_state_file (f : file resume_state_t) (st : downloader)
    : downloader :=
  {| channels := channels st; playlists := playlists st;
     channel_history := channel_history st; resume_state := resume_state st;
     download_history := download_history st;
     channel_history_file := channel_history_file st;
     resume_state_file := f |}.

Definition set_download_history (d : gmap string string * gmap string string)
    (st : downloader) : downloader :=
  {| channels := channels st; playlists := playlists st;
     channel_history := channel_history st; resume_state := resume_state st;
     download_history := d;
     channel_history_file := channel_history_file st;
     resume_state_file := resume_state_file st |}.

(** [self.channel_history.get("channels", {})]. *)
Definition history_channels (st : downloader) : gmap string channel_entry :=
  default ∅ (ch_channels (channel_history st)).

(** *** [save_channel_history], [load_channel_history] *)

Definition save_channel_history (now_iso : string) (st : downloader)
    : downloader :=
  let h := channel_history st in
  let h' := {| ch_channels := ch_channels h;
               ch_last_updated := Some now_iso;
               ch_first_run_completed := ch_first_run_completed h |} in
  set_channel_history_file (FileOk h') (set_channel_history h' st).

Definition fresh_channel_history (now_iso : string) : channel_history_t :=
  {| ch_channels := Some ∅;
     ch_last_updated := Some now_iso;
     ch_first_run_completed := Some false |}.

Definition load_channel_history (now_iso : string) (st : downloader)
    : downloader :=
  match channel_history_file st with
  | FileOk h => set_channel_history h st
  | FileMissing | FileCorrupt =>
      save_channel_history now_iso
        (set_channel_history (fresh_channel_history now_iso) st)
  end.

(** *** [mark_first_run_completed], [is_first_run] *)

Definition mark_first_run_completed (now_iso : string) (st : downloader)
    : downloader :=
  let h := channel_history st in
  save_channel_history now_iso
    (set_channel_history
       {| ch_channels := ch_channels h;
          ch_last_updated := ch_last_updated h;
          ch_first_run_completed := Some true |} st).

Definition is_first_run (st : downloader) : bool :=
  negb (default false (ch_first_run_completed (channel_history st))).

(** "Keep only the last 1000 videos" (line 382). *)
Definition history_limit : nat := 1000.

(** *** [update_channel_history]

    The scanned [video_info] always has its ["id"], and an entry of the
    store always has its ["downloaded_videos"], so the [except] branch of
    the method is not reached. The readings of the clock within one call
    are identified. *)
Definition update_channel_history (now_iso : string) (channel_handle : string)
    (video_info : video_info) (st : downloader) : downloader :=
  let h := channel_history st in
  let chans := default ∅ (ch_channels h) in
  let entry :=
    default {| downloaded_videos := []; last_download := now_iso |}
            (chans !! channel_handle) in
  let with_entry (e : channel_entry) :=
    set_channel_history
      {| ch_channels := Some (<[channel_handle := e]> chans);
         ch_last_updated := ch_last_updated h;
         ch_first_run_completed := ch_first_run_completed h |} st in
  let video_id := vi_id video_info in
  let existing_ids := map hv_id (downloaded_videos entry) in
  if bool_decide (video_id ∈ existing_ids) then with_entry entry
  else
    let appended :=
      downloaded_videos entry
      ++ [ {| hv_id := video_id; hv_title := vi_title video_info;
              hv_url := vi_url video_info; hv_downloaded_at := now_iso |} ] in
    let kept :=
      if (history_limit <? length appended)%nat
      then last_n history_limit appended
      else appended in
    save_channel_history now_iso
      (with_entry {| downloaded_videos := kept; last_download := now_iso |}).

(** *** [is_video_downloaded] *)
Definition is_video_downloaded (channel_handle video_id : string)
    (st : downloader) : bool :=
  match history_channels st !! channel_handle with
  | Some e =>
      existsb (λ video, String.eqb (hv_id video) video_id)
              (downloaded_videos e)
  | None => false
  end.

(** *** [save_resume_state] and the resume store operations *)

Definition save_resume_state (st : downloader) : downloader :=
  set_resume_state_file (FileOk (resume_state st)) st.

Definition fresh_resume_state (now_iso : string) : resume_state_t :=
  {| rs_videos := []; rs_playlists := []; rs_last_cleanup := now_iso |}.

Definition set_videos (v : list (string * resume_entry)) (r : resume_state_t)
    : resume_state_t :=
  {| rs_videos := v; rs_playlists := rs_playlists r;
     rs_last_cleanup := rs_last_cleanup r |}.

Definition set_playlists (p : list (string * resume_entry))
    (r : resume_state_t) : resume_state_t :=
  {| rs_videos := rs_videos r; rs_playlists := p;
     rs_last_cleanup := rs_last_cleanup r |}.

(** [{**data, "timestamp": datetime.now().isoformat()}]. *)
Definition stamp (data : resume_entry) (now_iso : string) : resume_entry :=
  {| re_url := re_url data; re_title := re_title data;
     re_source := re_source data; re_progress := re_progress data;
     re_type := re_type data; re_timestamp := Some now_iso |}.

Definition update_resume_state (now_iso item_type item_id : string)
    (data : resume_entry) (st : downloader) : downloader :=
  let r := resume_state st in
  let r' :=
    if String.eqb item_type "video" then
      set_videos (dict_set item_id (stamp data now_iso) (rs_videos r)) r
    else if String.eqb item_type "playlist" then
      set_playlists (dict_set item_id (stamp data now_iso) (rs_playlists r)) r
    else r in
  save_resume_state (set_resume_state r' st).

Definition get_resume_state (item_type item_id : string) (st : downloader)
    : option resume_entry :=
  if String.eqb item_type "video" then
    dict_get item_id (rs_videos (resume_state st))
  else if String.eqb item_type "playlist" then
    dict_get item_id (rs_playlists (resume_state st))
  else None.

Definition clear_resume_state (item_type item_id : string) (st : downloader)
    : downloader :=
  let r := resume_state st in
  let r' :=
    if String.eqb item_type "video"
       && bool_decide (is_Some (dict_get item_id (rs_videos r))) then
      set_videos (dict_del item_id (rs_videos r)) r
    else if String.eqb item_type "playlist"
            && bool_decide (is_Some (dict_get item_id (rs_playlists r))) then
      set_playlists (dict_del item_id (rs_playlists r)) r
    else r in
  save_resume_state (set_resume_state r' st).

(** *** [cleanup_old_resume_entries]

    [fromisoformat] stands for lines 448-449 and 456-457 up to the
    comparison: it gives the instant (in microseconds) a timestamp text
    denotes, or [None] when [datetime.fromisoformat] or the comparison with
    the naive [cutoff_time] raises. An exception leaves the loops where they
    are; the method's [except Exception] only logs it. *)

(** One of the two loops: the dictionary after it, the running count of
    deletions, and whether the loop ran to its end. *)
Fixpoint sweep (fromisoformat : string → option Z) (cutoff_time : Z)
    (keys : list string) (d : list (string * resume_entry)) (cleaned : nat)
    : list (string * resume_entry) * nat * bool :=
  match keys with
  | [] => (d, cleaned, true)
  | k :: keys' =>
      match dict_get k d with
      | None => (d, cleaned, false)
      | Some entry =>
          match fromisoformat (default "2000-01-01" (re_timestamp entry)) with
          | None => (d, cleaned, false)
          | Some entry_time =>
              if entry_time <? cutoff_time then
                sweep fromisoformat cutoff_time keys' (dict_del k d)
                      (S cleaned)
              else sweep fromisoformat cutoff_time keys' d cleaned
          end
      end
  end.

Definition microseconds_per_day : Z := 86400 * 1000000.

Definition cleanup_old_resume_entries (fromisoformat : string → option Z)
    (cfg : Config) (now : Z) (st : downloader) : downloader :=
  let cutoff_time := now - resume_cache_days cfg * microseconds_per_day in
  let r := resume_state st in
  let '(videos, cleaned, finished) :=
    sweep fromisoformat cutoff_time (dict_keys (rs_videos r)) (rs_videos r)
          0%nat in
  let st1 := set_resume_state (set_videos videos r) st in
  if finished then
    let '(pls, cleaned', finished') :=
      sweep fromisoformat cutoff_time (dict_keys (rs_playlists r))
            (rs_playlists r) cleaned in
    let st2 :=
      set_resume_state (set_playlists pls (set_videos videos r)) st in
    if finished' && (0 <? cleaned')%nat then save_resume_state st2 else st2
  else st1.

(** *** [load_resume_state] *)
Definition load_resume_state (fromisoformat : string → option Z)
    (cfg : Config) (now : Z) (now_iso : string) (st : downloader)
    : downloader :=
  match resume_state_file st with
  | FileOk r =>
      cleanup_old_resume_entries fromisoformat cfg now
        (set_resume_state r st)
  | FileMissing | FileCorrupt =>
      save_resume_state (set_resume_state (fresh_resume_state now_iso) st)
  end.

(** *** The constructor, as far as the stores go

    [__init__] starts from empty stores and loads each from its file;
    [download_log] is what [load_download_history] reads. *)
Definition init (fromisoformat : string → option Z) (cfg : Config) (now : Z)
    (now_iso : string) (chans pls : list (string * string))
    (download_log : gmap string string * gmap string string)
    (history_file : file channel_history_t)
    (resume_file : file resume_state_t) : downloader :=
  let st0 :=
    {| channels := chans; playlists := pls;
       channel_history :=
         {| ch_channels := None; ch_last_updated := None;
            ch_first_run_completed := None |};
       resume_state :=
         {| rs_videos := []; rs_playlists := []; rs_last_cleanup := "" |};
       download_history := download_log;
       channel_history_file := history_file;
       resume_state_file := resume_file |} in
  load_channel_history now_iso
    (load_resume_state fromisoformat cfg now now_iso st0).

(** A new process over the files the previous one left. *)
Definition restart (fromisoformat : string → option Z) (cfg : Config)
    (now : Z) (now_iso : string) (st : downloader) : downloader :=
  init fromisoformat cfg now now_iso (channels st) (playlists st)
       (download_history st) (channel_history_file st)
       (resume_state_file st).

(** ** A reading of ISO timestamps

    The texts [datetime.isoformat()] writes, and the bare date the sweep
    falls back on: [YYYY-MM-DD], optionally followed by one separator
    character and [HH:MM:SS], optionally followed by a point and six
    digits. The value is the number of microseconds since 0001-01-01. *)

Definition digit_val (a : ascii) : option Z :=
  if is_digit a then Some (Z.of_nat (nat_of_ascii a) - 48) else None.

(** The decimal number written by exactly [n] digits at the head of [s],
    and the rest of [s]. *)
Fixpoint read_digits (n : nat) (acc : Z) (s : string) : option (Z * string) :=
  match n with
  | O => Some (acc, s)
  | S n' =>
      match s with
      | String a s' =>
          match digit_val a with
          | Some d => read_digits n' (10 * acc + d) s'
          | None => None
          end
      | EmptyString => None
      end
  end.

Definition expect (a : ascii) (s : string) : option string :=
  match s with
  | String b s' => if Ascii.eqb a b then Some s' else None
  | EmptyString => None
  end.

Definition is_leap (y : Z) : bool :=
  ((y mod 4 =? 0) && negb (y mod 100 =? 0)) || (y mod 400 =? 0).

Definition days_in_month (y m : Z) : Z :=
  if m =? 2 then (if is_leap y then 29 else 28)
  else if (m =? 4) || (m =? 6) || (m =? 9) || (m =? 11) then 30 else 31.

Definition days_before_year (y : Z) : Z :=
  let p := y - 1 in p * 365 + p / 4 - p / 100 + p / 400.

Fixpoint days_before_month (y : Z) (m : nat) : Z :=
  match m with
  | O => 0
  | S m' =>
      match m' with
      | O => 0
      | _ => days_before_month y m' + days_in_month y (Z.of_nat m')
      end
  end.

Definition read_date (s : string) : option (Z * string) :=
  '(y, s) ← read_digits 4 0 s;
  s ← expect "-" s;
  '(m, s) ← read_digits 2 0 s;
  s ← expect "-" s;
  '(d, s) ← read_digits 2 0 s;
  if (1 <=? y) && (1 <=? m) && (m <=? 12) && (1 <=? d)
     && (d <=? days_in_month y m)
  then Some (days_before_year y + days_before_month y (Z.to_nat m) + d - 1, s)
  else None.

Definition read_time (s : string) : option (Z * string) :=
  '(hh, s) ← read_digits 2 0 s;
  s ← expect ":" s;
  '(mm, s) ← read_digits 2 0 s;
  s ← expect ":" s;
  '(ss, s) ← read_digits 2 0 s;
  if (hh <? 24) && (mm <? 60) && (ss <? 60)
  then Some (((hh * 60 + mm) * 60 + ss) * 1000000, s)
  else None.

Definition iso_instant (text : string) : option Z :=
  '(days, s) ← read_date text;
  match s with
  | EmptyString => Some (days * microseconds_per_day)
  | String _ s =>
      '(t, s) ← read_time s;
      match s with
      | EmptyString => Some (days * microseconds_per_day + t)
      | String "." s =>
          '(us, s) ← read_digits 6 0 s;
          match s with
          | EmptyString => Some (days * microseconds_per_day + t + us)
          | String _ _ => None
          end
      | String _ _ => None
      end
  end.

(** ** Download jobs *)

(** What one run of the external process amounts to for
    [_execute_download]: it exits with a return code, the loop having
    captured [stderr_lines]; or starting or reading it raises. *)
Inductive proc_outcome : Type :=
  | Exited (return_code : Z) (stderr_lines : list string)
  | TimedOut                      (* subprocess.TimeoutExpired *)
  | Raised (message : string).    (* any other exception, [str(e)] *)

(** [_execute_download], its result [(success, video_id, error_msg)]. The
    progress display it drives while reading the streams has no part in
    the result. *)
Definition _execute_download (video_info : video_info) (o : proc_outcome)
    : bool * string * string :=
  let video_id := vi_id video_info in
  match o with
  | Exited return_code stderr_lines =>
      let error_summary :=
        match stderr_lines with
        | [] => "Unknown error"
        | _ => str_join (last_n 5 stderr_lines)
        end in
      if return_code =? 0 then
        if existsb (λ line, contains "ERROR:" line) stderr_lines
        then (false, video_id, error_summary)
        else (true, video_id, "")
      else (false, video_id, error_summary)
  | TimedOut => (false, video_id, "Download timeout")
  | Raised message => (false, video_id, message)
  end.

(** The command lines [build_download_command] builds differ, for one
    configuration, in these three arguments only. *)
Record invocation : Type := {
  inv_url : string;
  inv_skip_subs : bool;
  inv_resume : bool
}.

(** What a job finds outside the program. *)
Record job_env : Type := {
  je_existing : bool * Z;          (* check_existing_download *)
  je_has_subtitles : bool;         (* check_subtitles_available *)
  je_first : proc_outcome;         (* the first run of the tool *)
  je_retry : proc_outcome;         (* the run without subtitles, if any *)
  je_now_iso : string
}.

(** [download_video]: the result [(success, video_id)], the store after it
    and the invocations of the tool it made. An entry of the resume store
    is a non-empty dictionary, so the test [resume_state and ...] of line
    1364 is the test that an entry exists. The clean-up of subtitle files
    and [_save_download_success] (the last-download snapshot) on the
    success path touch neither store. *)
Definition download_video (video_info : video_info) (source_name : string)
    (je : job_env) (st : downloader)
    : bool * string * downloader * list invocation :=
  let video_id := vi_id video_info in
  let video_url := vi_url video_info in
  let video_title := vi_title video_info in
  let '(can_resume, current_resume_progress) := je_existing je in
  let resume_state := get_resume_state "video" video_id st in
  let resume :=
    if can_resume && (current_resume_progress <? 100) then true
    else if bool_decide (is_Some resume_state)
            && (current_resume_progress <? 100) then true
    else false in
  let has_subtitles := je_has_subtitles je in
  let st1 :=
    if resume then
      update_resume_state (je_now_iso je) "video" video_id
        {| re_url := video_url; re_title := video_title;
           re_source := source_name;
           re_progress := current_resume_progress;
           re_type := "video"; re_timestamp := None |} st
    else st in
  let call skip_subs :=
    {| inv_url := video_url; inv_skip_subs := skip_subs;
       inv_resume := resume |} in
  let '(success, video_id', invs) :=
    if has_subtitles then
      let '(success, video_id', error_msg) :=
        _execute_download video_info (je_first je) in
      if negb success
         && (contains "subtitles" (str_lower error_msg)
             || contains "429" error_msg) then
        let '(success', video_id'', _) :=
          _execute_download video_info (je_retry je) in
        (success', video_id'', [call false; call true])
      else (success, video_id', [call false])
    else
      let '(success, video_id', _) :=
        _execute_download video_info (je_first je) in
      (success, video_id', [call true]) in
  if success then
    (true, video_id', clear_resume_state "video" video_id' st1, invs)
  else (false, video_id', st1, invs).

(** ** Sync planner *)

(** The tasks a planner returns, with the three counters it keeps (and
    prints) while going through the scan. *)
Record plan : Type := {
  download_tasks : list task;
  new_videos_count : nat;
  already_downloaded_count : nat;
  shorts_skipped : nat
}.

Definition empty_plan : plan :=
  {| download_tasks := []; new_videos_count := 0;
     already_downloaded_count := 0; shorts_skipped := 0 |}.

(** One turn of the loop of [process_channel_auto] (lines 1641-1656) and of
    [process_playlist_auto] (lines 1714-1732); [key] is the handle or the
    playlist URL the history is looked up under. *)
Definition plan_step (cfg : Config) (st : downloader)
    (key source_name task_type : string) (p : plan) (video_info : video_info)
    : plan :=
  let video_id := vi_id video_info in
  if filter_shorts cfg && (vi_duration video_info <? 60) then
    {| download_tasks := download_tasks p;
       new_videos_count := new_videos_count p;
       already_downloaded_count := already_downloaded_count p;
       shorts_skipped := S (shorts_skipped p) |}
  else if is_video_downloaded key video_id st then
    {| download_tasks := download_tasks p;
       new_videos_count := new_videos_count p;
       already_downloaded_count := S (already_downloaded_count p);
       shorts_skipped := shorts_skipped p |}
  else
    {| download_tasks :=
         download_tasks p ++ [(video_info, source_name, task_type)];
       new_videos_count := S (new_videos_count p);
       already_downloaded_count := already_downloaded_count p;
       shorts_skipped := shorts_skipped p |}.

Definition plan_loop (cfg : Config) (st : downloader)
    (key source_name task_type : string) (recent_videos : list video_info)
    : plan :=
  fold_left (plan_step cfg st key source_name task_type) recent_videos
            empty_plan.

(** What the planners find outside the program: the scanner
    [get_all_recent_videos url source_name max_videos], and the operator's
    answer to the per-channel prompt ([None]: no terminal, an empty or
    invalid answer, or end of input, all of which fall back on the
    default). *)
Record scan_env : Type := {
  get_all_recent_videos : string → string → Z → list video_info;
  limit_reply : string → option Z
}.

Definition channel_url (handle : string) : string :=
  "https://www.youtube.com/@" +:+ handle +:+ "/videos".

(** Lines 1569-1602 of [process_channel_auto]: how many items to scan. *)
Definition channel_check_limit (cfg : Config) (env : scan_env)
    (st : downloader) (handle : string) : Z :=
  let check_limit := gap_check_limit cfg in
  let check_limit :=
    if max_videos_per_channel cfg >? check_limit
    then max_videos_per_channel cfg else check_limit in
  let is_new_channel :=
    negb (bool_decide (is_Some (history_channels st !! handle))) in
  if is_new_channel || ask_video_limit_per_channel cfg then
    let default_limit :=
      if is_new_channel then initial_videos_per_channel cfg
      else check_limit in
    default default_limit (limit_reply env handle)
  else check_limit.

(** The scan a steady-state planner works on (lines 1608-1613, 1704). *)
Definition channel_scan (cfg : Config) (env : scan_env) (st : downloader)
    (handle display_name : string) : list video_info :=
  get_all_recent_videos env (channel_url handle) display_name
    (channel_check_limit cfg env st handle).

Definition playlist_scan (cfg : Config) (env : scan_env)
    (playlist_url playlist_name : string) : list video_info :=
  get_all_recent_videos env playlist_url playlist_name
    (max_videos_per_channel cfg).

Definition process_channel_auto (cfg : Config) (env : scan_env)
    (st : downloader) (handle display_name : string) : plan :=
  let recent_videos := channel_scan cfg env st handle display_name in
  plan_loop cfg st handle display_name "channel" recent_videos.

Definition process_playlist_auto (cfg : Config) (env : scan_env)
    (st : downloader) (playlist_url playlist_name : string) : plan :=
  let recent_videos := playlist_scan cfg env playlist_url playlist_name in
  plan_loop cfg st playlist_url playlist_name "playlist" recent_videos.

(** [process_channel_first_run]: every scanned item becomes a task. *)
Definition first_run_scan (env : scan_env) (handle display_name : string)
    (video_limit : Z) : list video_info :=
  get_all_recent_videos env (channel_url handle) display_name video_limit.

Definition process_channel_first_run (env : scan_env)
    (handle display_name : string) (video_limit : Z) : list task :=
  if video_limit =? 0 then []
  else
    let recent_videos := first_run_scan env handle display_name video_limit in
    map (λ video_info, (video_info, display_name, "channel")) recent_videos.

(** The operator's answers to the first-run prompt, in order. *)
Inductive answer : Type :=
  | AnsEmpty            (* just return *)
  | AnsNumber (n : Z)
  | AnsInvalid.         (* [int()] raises ValueError *)

(** [get_initial_video_limit]; [None] when the input ends before a valid
    answer ([EOFError] is not caught there). *)
Fixpoint get_initial_video_limit (cfg : Config) (answers : list answer)
    : option Z :=
  if negb (ask_initial_videos cfg) then Some (initial_videos_per_channel cfg)
  else
    match answers with
    | [] => None
    | AnsEmpty :: _ => Some (initial_videos_per_channel cfg)
    | AnsNumber limit :: rest =>
        if (0 <=? limit) && (limit <=? max_videos_per_channel cfg)
        then Some limit
        else get_initial_video_limit cfg rest
    | AnsInvalid :: rest => get_initial_video_limit cfg rest
    end.

(** ** Scheduler and commit ([download_videos_parallel]) *)

(** [[k for k, v in d.items() if v == name][0]]; [None] is the IndexError
    of an empty list. *)
Definition key_of_name (d : list (string * string)) (name : string)
    : option string :=
  head (map fst (filter (λ kv, String.eqb (snd kv) name) d)).

(** Lines 1887-1907: what the main thread does with one successful
    result. An IndexError leaves through the [except] of line 1908. *)
Definition commit (now_iso : string) (t : task) (video_id : string)
    (st : downloader) : downloader :=
  let '(video_info, source_name, task_type) := t in
  if String.eqb task_type "channel" then
    match key_of_name (channels st) source_name with
    | None => st
    | Some handle =>
        let st1 := update_channel_history now_iso handle video_info st in
        set_download_history
          (<[handle := video_id]> (fst (download_history st1)),
           snd (download_history st1)) st1
    end
  else if String.eqb task_type "playlist" then
    match key_of_name (playlists st) source_name with
    | None => st
    | Some playlist_url =>
        let st1 :=
          update_channel_history now_iso playlist_url video_info st in
        set_download_history
          (fst (download_history st1),
           <[playlist_url := video_id]> (snd (download_history st1))) st1
    end
  else st.

(** The outcome of a pass over the pool. *)
Record pool_result : Type := {
  pr_state : downloader;
  successful_downloads : nat;
  pr_invocations : list invocation
}.

(** [download_videos_parallel]. The jobs are taken in the order
    [as_completed] yields them: [schedule] lists, in that order, the index
    of each task with what its job found. A job's effects on the resume
    store are placed just before the commit of its result. *)
Fixpoint download_videos_parallel (tasks : list task)
    (schedule : list (nat * job_env)) (st : downloader) : pool_result :=
  match schedule with
  | [] => {| pr_state := st; successful_downloads := 0;
             pr_invocations := [] |}
  | (i, je) :: rest =>
      match tasks !! i with
      | None => download_videos_parallel tasks rest st
      | Some ((video_info, source_name, task_type) as t) =>
          let '(success, video_id, st1, invs) :=
            download_video video_info source_name je st in
          let st2 :=
            if success then commit (je_now_iso je) t video_id st1 else st1 in
          let r := download_videos_parallel tasks rest st2 in
          {| pr_state := pr_state r;
             successful_downloads :=
               (if success then 1 else 0) + successful_downloads r;
             pr_invocations := invs ++ pr_invocations r |}
      end
  end.

(** A schedule of [tasks]: every submitted task completes exactly once. *)
Definition schedule_of (tasks : list task) (schedule : list (nat * job_env))
    : Prop :=
  Permutation (map fst schedule) (seq 0 (length tasks)).

(** ** Orchestrator ([run_auto_download]) *)

Record run_env : Type := {
  env_scan : scan_env;
  env_answers : list answer;
  env_now_iso : string;
  (** the completion order of the jobs, given the tasks of the pass *)
  env_schedule : list task → list (nat * job_env)
}.

(** The tasks of a pass (lines 1944-1993). *)
Definition plan_pass (cfg : Config) (env : run_env) (st : downloader)
    : option (list task) :=
  if is_first_run st then
    videos_per_channel ←
      (if ask_initial_videos cfg
       then get_initial_video_limit cfg (env_answers env)
       else Some (initial_videos_per_channel cfg));
    Some
      (flat_map (λ '(handle, name),
          process_channel_first_run (env_scan env) handle name
                                    videos_per_channel) (channels st)
       ++ flat_map (λ '(url, name),
          process_channel_first_run (env_scan env) url name
                                    videos_per_channel) (playlists st))
  else
    Some
      (flat_map (λ '(handle, name),
          download_tasks
            (process_channel_auto cfg (env_scan env) st handle name))
          (channels st)
       ++ flat_map (λ '(url, name),
          download_tasks
            (process_playlist_auto cfg (env_scan env) st url name))
          (playlists st)).

(** [run_auto_download]; [None] when the first-run prompt ends the
    process. The flag is set right after planning (line 1974), before the
    downloads are scheduled (line 1995). *)
Definition run_auto_download (cfg : Config) (env : run_env) (st : downloader)
    : option pool_result :=
  all_download_tasks ← plan_pass cfg env st;
  let st1 :=
    if is_first_run st then mark_first_run_completed (env_now_iso env) st
    else st in
  Some (download_videos_parallel all_download_tasks
          (env_schedule env all_download_tasks) st1).

(** ** Duration cache ([Config.DirectoryDurationCache])

    The modification time and the duration are floats the cache stores,
    compares for equality and hands back; their type is left open. *)

Module DirectoryDurationCache.
Section Cache.
Context {M D : Type} `{EqDecision M}.

Record entry : Type := {
  mtime : M;
  size : Z;
  duration : D
}.

Record t : Type := {
  cache : gmap string entry;
  _dirty : bool;
  cache_file : file (gmap string entry)
}.

(** [file_path.stat()]: the [(st_mtime, st_size)] of an existing file,
    [None] for FileNotFoundError. *)
Definition stat_fn : Type := string → option (M * Z).

Definition _load_cache (f : file (gmap string entry))
    : gmap string entry :=
  match f with
  | FileOk c => c
  | FileMissing | FileCorrupt => ∅
  end.

Definition init (f : file (gmap string entry)) : t :=
  {| cache := _load_cache f; _dirty := false; cache_file := f |}.


Definition get (stat : stat_fn) (file_path : string) (c : t) : option D :=
  match cache c !! file_path with
  | Some entry =>
      match stat file_path with
      | Some (st_mtime, st_size) =>
          if bool_decide (mtime entry = st_mtime) && (size entry =? st_size)
          then Some (duration entry)
          else None
      | None => None
      end
  | None => None
  end.

Definition set (stat : stat_fn) (file_path : string) (d : D) (c : t) : t :=
  match stat file_path with
  | Some (st_mtime, st_size) =>
      {| cache :=
           <[file_path :=
               {| mtime := st_mtime; size := st_size; duration := d |}]>
             (cache c);
         _dirty := true;
         cache_file := cache_file c |}
  | None => c
  end.
End Cache.

Arguments entry : clear implicits.
Arguments t : clear implicits.
Arguments stat_fn : clear implicits.
End DirectoryDurationCache.

(** ** More of Python's [str] *)

(** [s.lstrip()], [s.rstrip()] and [s.strip()]: without the white space at
    its ends. *)
Fixpoint str_lstrip (s : string) : string :=
  match s with
  | EmptyString => EmptyString
  | String a s' => if is_space a then str_lstrip s' else s
  end.

Fixpoint str_rstrip (s : string) : string :=
  match s with
  | EmptyString => EmptyString
  | String a s' =>
      match str_rstrip s' with
      | EmptyString => if is_space a then EmptyString else String a EmptyString
      | r => String a r
      end
  end.

Definition str_strip (s : string) : string := str_rstrip (str_lstrip s).

(** [s.split(sep)] for a separator of one character. *)
Fixpoint str_split (sep : ascii) (s : string) : list string :=
  match s with
  | EmptyString => [EmptyString]
  | String a s' =>
      if Ascii.eqb a sep then EmptyString :: str_split sep s'
      else match str_split sep s' with
           | part :: parts => String a part :: parts
           | [] => [String a EmptyString]
           end
  end.

(** [s.isdigit()]: not empty, and decimal digits only. *)
Fixpoint str_isdigit (s : string) : bool :=
  match s with
  | EmptyString => false
  | String a EmptyString => is_digit a
  | String a s' => is_digit a && str_isdigit s'
  end.

(** [int(s)] for a text of decimal digits; [None] is its ValueError. *)
Definition int_of_str (s : string) : option Z :=
  match s with
  | EmptyString => None
  | _ => fst <$> read_digits (String.length s) 0 s
  end.

(** [str(n)] for an integer. *)
Definition str_of_int (n : Z) : string :=
  NilEmpty.string_of_int (Z.to_int n).

(** [f"{n:02d}"] for a non-negative integer: [str(n)], with a zero before
    a single digit. *)
Definition fmt_02d (n : Z) : string :=
  let s := str_of_int n in
  if (String.length s <? 2)%nat then String "0" s else s.

(** ** [format_duration]

    [None] is Python's [None]. The durations the scanner hands over are
    whole seconds here, so that [int(seconds)] is the identity and the
    [except] branch is not reached. *)
Definition format_duration (seconds : option Z) : string :=
  match seconds with
  | None => "Unknown"
  | Some seconds =>
      if seconds <? 0 then "Unknown"
      else
        let hours := seconds / 3600 in
        let minutes := (seconds mod 3600) / 60 in
        let seconds := seconds mod 60 in
        if hours >? 0
        then fmt_02d hours +:+ ":" +:+ fmt_02d minutes +:+ ":"
             +:+ fmt_02d seconds
        else fmt_02d minutes +:+ ":" +:+ fmt_02d seconds
  end.

(** ** Runs of a command *)

(** What [subprocess.run(cmd, capture_output=True, text=True, timeout=30,
    check=False)] amounts to: the process exits, or the call raises
    (TimeoutExpired, or any other exception). *)
Inductive run_result : Type :=
  | RunExit (returncode : Z) (stdout : string)
  | RunRaises.

(** ** The scanner ([get_all_recent_videos], [_fallback_recent_videos]) *)

Module Scanner.

(** What [json.loads] and the [.get] calls of lines 819-828 find in one
    line of the listing: the fields of a JSON object, each absent or
    holding a value of its type (the durations as whole seconds). *)
Record json_record : Type := {
  jr_id : option string;
  jr_title : option string;
  jr_uploader : option string;
  jr_duration : option Z;
  jr_average_duration : option Z
}.

Inductive json_line : Type :=
  | LineBlank                    (* [line.strip()] is empty *)
  | LineInvalid                  (* JSONDecodeError *)
  | LineObject (data : json_record)
  | LineRaises.                  (* any other exception, as for a JSON value
                                    that is not an object *)

(** One run of the listing command (lines 806-812). *)
Inductive query_outcome : Type :=
  | QueryOutput (lines : list json_line)   (* exit code 0, [stdout] split *)
  | QueryTimeout                           (* subprocess.TimeoutExpired *)
  | QueryFailed                            (* subprocess.CalledProcessError *)
  | QueryRaises.                           (* any other exception *)

Definition watch_url (video_id : string) : string :=
  "https://www.youtube.com/watch?v=" +:+ video_id.

(** Lines 820-837: the dictionary appended for one object. *)
Definition scanned_item (source_name : string) (data : json_record)
    : video_info :=
  let video_id := default "unknown" (jr_id data) in
  let title := default "Unknown" (jr_title data) in
  let uploader := default source_name (jr_uploader data) in
  let duration := default 0 (jr_duration data) in
  let duration :=
    if duration =? 0 then default 0 (jr_average_duration data)
    else duration in
  {| vi_id := video_id; vi_title := title; vi_url := watch_url video_id;
     vi_uploader := uploader; vi_duration := duration;
     vi_duration_formatted := format_duration (Some duration) |}.

(** The loop over the lines (816-839): the list after it, and whether it
    ran to its end. *)
Fixpoint parse_lines (source_name : string) (lines : list json_line)
    (videos : list video_info) : list video_info * bool :=
  match lines with
  | [] => (videos, true)
  | LineBlank :: lines' | LineInvalid :: lines' =>
      parse_lines source_name lines' videos
  | LineObject data :: lines' =>
      parse_lines source_name lines'
                  (videos ++ [scanned_item source_name data])
  | LineRaises :: _ => (videos, false)
  end.

Definition is_blank (l : json_line) : bool :=
  match l with LineBlank => true | _ => false end.

(** Lines 910-929: the dictionary appended for one printed line, if any. *)
Definition fallback_item (source_name stdout : string) : option video_info :=
  let parts := str_split "009" (str_strip stdout) in
  if (2 <=? length parts)%nat then
    let video_id := default "" (parts !! 0%nat) in
    let title := default "Unknown" (parts !! 1%nat) in
    let uploader := default source_name (parts !! 2%nat) in
    let duration_str := default "0" (parts !! 3%nat) in
    let duration :=
      if str_isdigit duration_str
      then default 0 (int_of_str duration_str) else 0 in
    Some {| vi_id := video_id; vi_title := title;
            vi_url := watch_url video_id; vi_uploader := uploader;
            vi_duration := duration;
            vi_duration_formatted := format_duration (Some duration) |}
  else None.

(** The loop of lines 890-932 from the item [i] on, [n] items to go. *)
Fixpoint fallback_loop (probe : Z → run_result) (source_name : string)
    (n : nat) (i : Z) (videos : list video_info) : list video_info :=
  match n with
  | O => videos
  | S n' =>
      match probe i with
      | RunRaises => videos
      | RunExit returncode stdout =>
          let videos' :=
            if (returncode =? 0) && negb (String.eqb (str_strip stdout) "")
            then match fallback_item source_name stdout with
                 | Some item => videos ++ [item]
                 | None => videos
                 end
            else videos in
          fallback_loop probe source_name n' (i + 1) videos'
      end
  end.

(** [_fallback_recent_videos]; [probe i] is the run for the item [i]. *)
Definition _fallback_recent_videos (is_first_run : bool)
    (probe : Z → run_result) (source_name : string) (limit : Z)
    : list video_info :=
  let max_videos := if is_first_run then limit else Z.min limit 50 in
  fallback_loop probe source_name (Z.to_nat max_videos) 1 [].

(** The loop of [get_all_recent_videos] from the attempt [attempt] on,
    [n] attempts to go; [videos] is the list of line 788, which the
    attempts share. *)
Fixpoint query_loop (max_retries : Z) (is_first_run : bool)
    (run : Z → query_outcome) (probe : Z → run_result)
    (source_name : string) (max_videos : Z) (n : nat) (attempt : Z)
    (videos : list video_info) : list video_info :=
  match n with
  | O => []
  | S n' =>
      let continue := query_loop max_retries is_first_run run probe
                                 source_name max_videos n' (attempt + 1) in
      match run attempt with
      | QueryOutput lines =>
          if forallb is_blank lines then []
          else
            let '(videos', finished) :=
              parse_lines source_name lines videos in
            if finished then videos' else continue videos'
      | QueryTimeout => continue videos
      | QueryFailed =>
          if attempt =? max_retries - 1
          then _fallback_recent_videos is_first_run probe source_name
                                       max_videos
          else continue videos
      | QueryRaises => continue videos
      end
  end.

(** [get_all_recent_videos]; [run attempt] is the run of the attempt
    [attempt], [max_retries] the setting of that name. *)
Definition get_all_recent_videos (max_retries : Z) (is_first_run : bool)
    (run : Z → query_outcome) (probe : Z → run_result)
    (source_name : string) (max_videos : Z) : list video_info :=
  query_loop max_retries is_first_run run probe source_name max_videos
             (Z.to_nat max_retries) 0 [].

End Scanner.
(** ** Command lines ([build_download_command],
       [build_audio_download_command])

    The fields of [Config] the command lines are built from; the
    directories are given by their [str()], and [str(dir / name)] is
    [dir], a slash and [name] (the directories are not the root). *)
Record CommandConfig : Type := {
  max_resolution : string;
  current_video_dir : string;
  current_audio_dir : string
}.

Definition path_join (dir name : string) : string := dir +:+ "/" +:+ name.

Definition build_download_command (cc : CommandConfig)
    (video_url source_name : string) (skip_subs is_manual resume : bool)
    : list string :=
  let output_template :=
    path_join (current_video_dir cc) "%(title)s.%(ext)s" in
  let cmd :=
    ["yt-dlp";
     "-f"; "bestvideo[height<=" +:+ max_resolution cc
           +:+ "]+bestaudio/best[height<=" +:+ max_resolution cc +:+ "]";
     "--merge-output-format"; "mp4";
     "--no-cookies";
     "--no-cache-dir";
     "--no-part";
     "--no-mtime";
     "--sponsorblock-remove";
     "sponsor,intro,outro,selfpromo,preview,interaction";
     "--embed-chapters";
     "--embed-metadata";
     "--no-embed-thumbnail";
     "--no-playlist";
     "--output"; output_template;
     "--newline";
     "--no-warnings";
     "--progress";
     "--retries"; "10";
     "--fragment-retries"; "10";
     "--file-access-retries"; "5";
     "--socket-timeout"; "30"] in
  let cmd := if resume then cmd ++ ["--continue"] else cmd in
  let cmd :=
    if negb skip_subs then
      cmd ++ ["--write-auto-sub";
              "--write-sub";
              "--sub-langs"; "en";
              "--convert-subs"; "srt";
              "--embed-subs"]
    else cmd in
  cmd ++ [video_url].

Definition build_audio_download_command (cc : CommandConfig)
    (video_url source_name : string) (is_manual resume : bool)
    : list string :=
  let output_template :=
    path_join (current_audio_dir cc) "%(title)s.%(ext)s" in
  let cmd :=
    ["yt-dlp";
     "-f"; "bestaudio[ext=m4a]/bestaudio/best";
     "--extract-audio";
     "--audio-format"; "mp3";
     "--audio-quality"; "320K";
     "--no-cookies";
     "--no-cache-dir";
     "--no-part";
     "--no-mtime";
     "--embed-metadata";
     "--embed-thumbnail";
     "--no-playlist";
     "--output"; output_template;
     "--newline";
     "--no-warnings";
     "--progress";
     "--retries"; "10";
     "--fragment-retries"; "10";
     "--file-access-retries"; "5";
     "--socket-timeout"; "30"] in
  let cmd := if resume then cmd ++ ["--continue"] else cmd in
  cmd ++ [video_url].

(** ** [check_subtitles_available]

    [listing] is the run of the command that lists the subtitles. *)
Definition check_subtitles_available (listing : run_result) : bool :=
  match listing with
  | RunExit returncode stdout =>
      if returncode =? 0 then
        let lines := str_split "010" (str_strip stdout) in
        existsb (λ line,
                   (contains "Language" line && contains "Formats" line
                    && (2 <? length lines)%nat)
                   || String.prefix "en " line
                   || contains "english" (str_lower line)) lines
      else false
  | RunRaises => false
  end.

(** ** [check_existing_download] *)

(** [re.sub] of the class of lines 1268 and 1321 by an underscore: the
    characters a file name may not hold. *)
Definition is_reserved (a : ascii) : bool :=
  existsb (Ascii.eqb a)
          ["<"; ">"; ":"; "034"; "/"; "\"; "|"; "?"; "*"]%char.

Fixpoint clean_title (video_title : string) : string :=
  match video_title with
  | EmptyString => EmptyString
  | String a s =>
      String (if is_reserved a then "_"%char else a) (clean_title s)
  end.

(** A path a glob yields: not a regular file, a regular file of a size,
    or one whose [stat()] raises. *)
Inductive found : Type :=
  | FoundOther
  | FoundFile (st_size : Z)
  | FoundGone.

(** The loop of lines 1331-1342 over the paths the glob yields. *)
Fixpoint first_file (paths : list found) : bool * Z :=
  match paths with
  | [] => (false, 0)
  | FoundOther :: paths' => first_file paths'
  | FoundFile file_size :: _ =>
      if file_size >? 1024 * 1024 then (true, 50) else (true, 100)
  | FoundGone :: _ => (false, 0)
  end.

(** [check_existing_download]; [glob dir pattern] is what
    [dir.glob(pattern)] yields. *)
Definition check_existing_download (cc : CommandConfig)
    (glob : string → string → list found) (video_info : video_info)
    (download_type : string) : bool * Z :=
  let video_title := vi_title video_info in
  let '(download_dir, file_pattern) :=
    if String.eqb download_type "video"
    then (current_video_dir cc, "*" +:+ clean_title video_title +:+ "*.mp4")
    else (current_audio_dir cc, "*" +:+ clean_title video_title +:+ "*.mp3") in
  first_file (glob download_dir file_pattern).

(** ** Log rotation ([Config.setup_log_cleanup]) *)

Record log_file : Type := {
  lf_name : string;
  lf_mtime : Z
}.

(** [list.sort(key=...)]: the sort is stable. *)
Fixpoint insert_by_mtime (x : log_file) (l : list log_file) : list log_file :=
  match l with
  | [] => [x]
  | y :: l' =>
      if lf_mtime x <? lf_mtime y then x :: l
      else y :: insert_by_mtime x l'
  end.

Definition sort_by_mtime (l : list log_file) : list log_file :=
  fold_left (λ sorted x, insert_by_mtime x sorted) l [].

(** [l[:k]]. *)
Definition slice_to {A} (k : Z) (l : list A) : list A :=
  if k <? 0 then take (Z.to_nat (Z.of_nat (length l) + k)) l
  else take (Z.to_nat k) l.

(** [setup_log_cleanup]: the files it unlinks, in order; [log_files] is
    what the glob yields. *)
Definition setup_log_cleanup (max_log_files : Z) (log_files : list log_file)
    : list log_file :=
  if Z.of_nat (length log_files) >? max_log_files then
    slice_to (- max_log_files) (sort_by_mtime log_files)
  else [].

(** ** The configuration file ([load_config], [save_config]) *)

(** The JSON object of [config.json]; each key may be absent. *)
Record config_data : Type := {
  cd_channels : option (list (string * string));
  cd_playlists : option (list (string * string));
  cd_ask_initial_videos : option bool;
  cd_initial_videos_per_channel : option Z;
  cd_max_videos_per_channel : option Z;
  cd_max_resolution : option string
}.

(** What the two methods read and write: the dictionaries of the
    downloader, its [Config] (the resolution apart from the record above)
    and the file. *)
Record config_state : Type := {
  cs_channels : list (string * string);
  cs_playlists : list (string * string);
  cs_config : Config;
  cs_max_resolution : string;
  cs_file : file config_data
}.

Definition get_default_channels : list (string * string) := [].
Definition get_default_playlists : list (string * string) := [].

(** [{**d1, **d2}]. *)
Definition dict_merge {V} (d1 d2 : list (string * V)) : list (string * V) :=
  fold_left (λ d kv, dict_set (fst kv) (snd kv) d) d2 d1.

(** [d1 != d2] on dictionaries, which does not look at the order. *)
Definition dict_differs (d1 d2 : list (string * string)) : bool :=
  negb (bool_decide ((list_to_map d1 : gmap string string) = list_to_map d2)).

Definition save_config (cs : config_state) : config_state :=
  {| cs_channels := cs_channels cs; cs_playlists := cs_playlists cs;
     cs_config := cs_config cs; cs_max_resolution := cs_max_resolution cs;
     cs_file :=
       FileOk
         {| cd_channels := Some (cs_channels cs);
            cd_playlists := Some (cs_playlists cs);
            cd_ask_initial_videos := Some (ask_initial_videos (cs_config cs));
            cd_initial_videos_per_channel :=
              Some (initial_videos_per_channel (cs_config cs));
            cd_max_videos_per_channel :=
              Some (max_videos_per_channel (cs_config cs));
            cd_max_resolution := Some (cs_max_resolution cs) |} |}.

Definition load_config (cs : config_state) : config_state :=
  match cs_file cs with
  | FileOk data =>
      let file_channels := default [] (cd_channels data) in
      let file_playlists := default [] (cd_playlists data) in
      let merged_channels := dict_merge get_default_channels file_channels in
      let merged_playlists :=
        dict_merge get_default_playlists file_playlists in
      let cfg := cs_config cs in
      let cs1 :=
        {| cs_channels := merged_channels; cs_playlists := merged_playlists;
           cs_config :=
             {| max_parallel_downloads := max_parallel_downloads cfg;
                resume_cache_days := resume_cache_days cfg;
                ask_initial_videos :=
                  default true (cd_ask_initial_videos data);
                initial_videos_per_channel :=
                  default 5 (cd_initial_videos_per_channel data);
                max_videos_per_channel :=
                  default 100 (cd_max_videos_per_channel data);
                filter_shorts := filter_shorts cfg;
                ask_video_limit_per_channel :=
                  ask_video_limit_per_channel cfg;
                gap_check_limit := gap_check_limit cfg |};
           cs_max_resolution := default "720" (cd_max_resolution data);
           cs_file := cs_file cs |} in
      if dict_differs file_channels merged_channels
         || dict_differs file_playlists merged_playlists
      then save_config cs1 else cs1
  | FileMissing | FileCorrupt =>
      save_config
        {| cs_channels := get_default_channels;
           cs_playlists := get_default_playlists;
           cs_config := cs_config cs;
           cs_max_resolution := cs_max_resolution cs;
           cs_file := cs_file cs |}
  end.

(* ===================================================================== *)
(** * Part II: vocabulary of the properties                               *)
(* ===================================================================== *)

(** ** History and planner *)

(** The ids of a source's [downloaded_videos], in order. *)
Definition history_ids (st : downloader) (source : string) : list string :=
  match history_channels st !! source with
  | Some e => map hv_id (downloaded_videos e)
  | None => []
  end.

(** [len(set(ids))]. *)
Definition distinct_count (ids : list string) : nat :=
  size (list_to_set ids : gset string).

(** A history in which no source lists an id twice. *)
Definition well_formed_history (st : downloader) : Prop :=
  ∀ source, NoDup (history_ids st source).

(** A sequence of commits: each is one call of [update_channel_history],
    with the clock reading, the source and the item. *)
Definition commits (cs : list (string * string * video_info))
    (st : downloader) : downloader :=
  fold_left (λ st '(now_iso, handle, video_info),
               update_channel_history now_iso handle video_info st) cs st.

(** A dictionary lists no key twice. *)
Definition dict_wf {V} (d : list (string * V)) : Prop := NoDup (dict_keys d).

(** The item of a task and its id. *)
Definition task_video (t : task) : video_info := fst (fst t).

Definition task_id (t : task) : string := vi_id (task_video t).

(** The test of lines 1645 and 1718: the item is skipped as a short. *)
Definition skipped_as_short (cfg : Config) (v : video_info) : bool :=
  filter_shorts cfg && (vi_duration v <? 60).

(** The item is neither skipped as a short nor found in the history of
    [key]. *)
Definition fetchable (cfg : Config) (st : downloader) (key : string)
    (v : video_info) : bool :=
  negb (skipped_as_short cfg v)
  && negb (is_video_downloaded key (vi_id v) st).

(** The item is not a short but is in the history of [key]. *)
Definition counted_downloaded (cfg : Config) (st : downloader) (key : string)
    (v : video_info) : bool :=
  negb (skipped_as_short cfg v) && is_video_downloaded key (vi_id v) st.

(** How many elements of [l] pass the test [f]. *)
Definition count {A} (f : A → bool) (l : list A) : nat :=
  length (List.filter f l).



(** ** Operations *)

(** The operations of the program on its stores. *)
Inductive op : Type :=
  | OpPass (cfg : Config) (env : run_env)         (* run_auto_download *)
  | OpCommit (now_iso handle : string) (v : video_info)
                                                  (* update_channel_history *)
  | OpDownload (v : video_info) (source_name : string) (je : job_env)
                                                  (* download_video *)
  | OpRestart (cfg : Config) (now : Z) (now_iso : string).
                                                  (* a new process *)

(** The store after an operation; a pass that the first-run prompt ends
    leaves it as it was. *)
Definition apply_op (fromisoformat : string → option Z) (st : downloader)
    (o : op) : downloader :=
  match o with
  | OpPass cfg env =>
      match run_auto_download cfg env st with
      | Some r => pr_state r
      | None => st
      end
  | OpCommit now_iso handle v => update_channel_history now_iso handle v st
  | OpDownload v source_name je =>
      snd (fst (download_video v source_name je st))
  | OpRestart cfg now now_iso => restart fromisoformat cfg now now_iso st
  end.

(** ** Stores, scans and jobs of the examples *)

(** The empty store of a process that has loaded nothing yet. *)
Definition blank (chans pls : list (string * string)) : downloader :=
  {| channels := chans; playlists := pls;
     channel_history :=
       {| ch_channels := None; ch_last_updated := None;
          ch_first_run_completed := None |};
     resume_state :=
       {| rs_videos := []; rs_playlists := []; rs_last_cleanup := "" |};
     download_history := (∅, ∅);
     channel_history_file := FileMissing;
     resume_state_file := FileMissing |}.

(** An item of a given id and duration, for examples. *)
Definition item (id : string) (seconds : Z) : video_info :=
  {| vi_id := id; vi_title := "title of " +:+ id;
     vi_url := "https://www.youtube.com/watch?v=" +:+ id;
     vi_uploader := "uploader"; vi_duration := seconds;
     vi_duration_formatted := "" |}.

(** The ids a commit of [id] leaves in a list of ids (lines 374-385). *)
Definition ids_after_commit (id : string) (ids : list string) : list string :=
  if bool_decide (id ∈ ids) then ids
  else if (history_limit <? length (ids ++ [id]))%nat
       then last_n history_limit (ids ++ [id])
       else ids ++ [id].

(** The scanner of a pass that always answers with the same list. *)
Definition fixed_scan (l : list video_info) : scan_env :=
  {| get_all_recent_videos := λ _ _ _, l; limit_reply := λ _, None |}.

(** A job that finds nothing on disk and whose process [first] is all that
    runs. *)
Definition plain_job (first : proc_outcome) : job_env :=
  {| je_existing := (false, 0); je_has_subtitles := false;
     je_first := first; je_retry := first;
     je_now_iso := "2026-11-03T10:00:00" |}.

(** The jobs complete in the order of submission, all with [je]. *)
Definition in_order (je : job_env) (tasks : list task)
    : list (nat * job_env) :=
  imap (λ i _, (i, je)) tasks.

(** A pass whose scans all return [scan] and whose jobs all end as
    [first]; the first-run prompt is answered with the default. *)
Definition pass_env (scan : list video_info) (first : proc_outcome)
    : run_env :=
  {| env_scan := fixed_scan scan; env_answers := [AnsEmpty];
     env_now_iso := "2026-11-03T10:00:00";
     env_schedule := in_order (plain_job first) |}.

(** The instants of the examples, in microseconds since 0001-01-01:
    2026-11-03T10:00:00 and 2000-01-01. *)
Definition start_time : Z := 63929296800000000.
Definition year_2000 : Z := 63082281600000000.

(** The store of a process started over no files at all. *)
Definition fresh_start (chans pls : list (string * string)) : downloader :=
  init iso_instant default_config start_time "2026-11-03T10:00:00"
       chans pls (∅, ∅) FileMissing FileMissing.

(** The flag is set in memory and in the history file. *)
Definition first_run_done (st : downloader) : Prop :=
  ch_first_run_completed (channel_history st) = Some true
  ∧ ∃ h, channel_history_file st = FileOk h
         ∧ ch_first_run_completed h = Some true.

(** A store that holds a Resume entry for "v1". *)
Definition store_with_entry : downloader :=
  update_resume_state "2026-11-01T08:00:00" "video" "v1"
    {| re_url := "https://www.youtube.com/watch?v=v1"; re_title := "title of v1";
       re_source := "Channel A"; re_progress := 50; re_type := "video";
       re_timestamp := None |}
    (fresh_start [("A", "Channel A")] []).

(** The sweep keeps an entry when its time is not before the cutoff. *)
Definition kept (fromisoformat : string → option Z) (cutoff_time : Z)
    (kv : string * resume_entry) : bool :=
  match fromisoformat (default "2000-01-01" (re_timestamp (snd kv))) with
  | Some entry_time => negb (entry_time <? cutoff_time)
  | None => true
  end.

(** Every timestamp the sweep reads in [d] denotes an instant. *)
Definition readable (fromisoformat : string → option Z)
    (d : list (string * resume_entry)) : Prop :=
  ∀ k e, (k, e) ∈ d →
    is_Some (fromisoformat (default "2000-01-01" (re_timestamp e))).

(** An entry as an earlier format of the file may hold it. *)
Definition entry_without_timestamp : resume_entry :=
  {| re_url := "u"; re_title := "t"; re_source := "s"; re_progress := 50;
     re_type := "video"; re_timestamp := None |}.

(** A file with one entry without a timestamp and one written two days
    before the start: the first is purged, the second is returned. *)
Definition resume_file_example : resume_state_t :=
  {| rs_videos :=
       [("old", entry_without_timestamp);
        ("new", stamp entry_without_timestamp "2026-11-01T10:00:00.000000")];
     rs_playlists := [];
     rs_last_cleanup := "2026-11-01T00:00:00" |}.


(** The source a task is committed under. *)
Definition resolves (st : downloader) (t : task) (key : string) : Prop :=
  (snd t = "channel" ∧ key_of_name (channels st) (snd (fst t)) = Some key)
  ∨ (snd t = "playlist" ∧ key_of_name (playlists st) (snd (fst t)) = Some key).

(** The job of a task succeeds whatever the state of the resume store. *)
Definition succeeds (t : task) (je : job_env) : Prop :=
  ∀ st, fst (fst (fst (download_video (task_video t) (snd (fst t)) je st)))
        = true.

(** ** What the patterns denote *)

(** Every character of [s] passes [p]. *)
Fixpoint str_forall (p : ascii → bool) (s : string) : bool :=
  match s with
  | EmptyString => true
  | String a s' => p a && str_forall p s'
  end.

(** What a pattern matches, and the groups it captures on the way, when
    the classes are read as [cls]. *)
Inductive den (cls : char_classes) : regex → string → list string → Prop :=
  | den_chars lit : den cls (RChars lit) lit []
  | den_many c min w :
      str_forall (in_class cls c) w = true → (min ≤ String.length w)%nat →
      den cls (RMany c min) w []
  | den_opt_none c : den cls (ROpt c) "" []
  | den_opt_one c a :
      in_class cls c a = true → den cls (ROpt c) (String a "") []
  | den_seq r1 r2 w1 w2 g1 g2 :
      den cls r1 w1 g1 → den cls r2 w2 g2 →
      den cls (RSeq r1 r2) (w1 +:+ w2) (g1 ++ g2)
  | den_alt_l r1 r2 w g : den cls r1 w g → den cls (RAlt r1 r2) w g
  | den_alt_r r1 r2 w g : den cls r2 w g → den cls (RAlt r1 r2) w g
  | den_group r w g : den cls r w g → den cls (RGroup r) w (g ++ [w]).

(** A non-empty run of digits, that is of characters of the class [\d]. *)
Definition digit_string (cls : char_classes) (w : string) : Prop :=
  str_forall (cls_digit cls) w = true ∧ w ≠ "".


(** ["mm:ss"] or a plain count of seconds. *)
Definition well_formed_eta (cls : char_classes) (w : string) : Prop :=
  digit_string cls w
  ∨ ∃ m s, w = m +:+ ":" +:+ s ∧ digit_string cls m ∧ digit_string cls s.

(** Inversion of [den] on the constructors of a pattern. *)
Ltac den_inv :=
  repeat match goal with
         | H : den _ (RChars _) _ _ |- _ => inversion H; subst; clear H
         | H : den _ (RMany _ _) _ _ |- _ => inversion H; subst; clear H
         | H : den _ (ROpt _) _ _ |- _ => inversion H; subst; clear H
         | H : den _ (RSeq _ _) _ _ |- _ => inversion H; subst; clear H
         | H : den _ (RAlt _ _) _ _ |- _ => inversion H; subst; clear H
         | H : den _ (RGroup _) _ _ |- _ => inversion H; subst; clear H
         end.







(** A reading of the classes beyond ASCII: the no-break space (code point
    160) is a space, as it is for a [str] pattern. *)
Definition with_no_break_space : char_classes :=
  {| cls_space := λ a, is_space a || (nat_of_ascii a =? 160)%nat;
     cls_digit := is_digit; cls_word := is_word |}.

(** A progress line with a no-break space after the percent sign. *)
Definition no_break_space_line : string :=
  "[download]  45.3%" +:+ String (ascii_of_nat 160)
    "of 10.00MiB at  1.20MiB/s ETA 00:05".

(** ** Persistence *)

(** The history file holds the history in memory. *)
Definition history_persisted (st : downloader) : Prop :=
  channel_history_file st = FileOk (channel_history st).

(** A store whose source "A" lists a thousand entries. *)
Definition full_store : downloader :=
  set_channel_history
    {| ch_channels :=
         Some {[ "A" :=
                 {| downloaded_videos :=
                      map (λ n, {| hv_id := String (ascii_of_nat (n / 100 + 48))
                                              (String (ascii_of_nat (n / 10 mod 10 + 48))
                                                 (String (ascii_of_nat (n mod 10 + 48)) ""));
                                   hv_title := ""; hv_url := "";
                                   hv_downloaded_at := "" |})
                          (seq 0 1000);
                    last_download := "" |} ]};
       ch_last_updated := None;
       ch_first_run_completed := Some true |}
    (blank [("A", "Channel A")] []).

(** The [resume] flag of a job (lines 1361-1368). *)
Definition job_resumes (je : job_env) (v : video_info) (st : downloader)
    : bool :=
  (snd (je_existing je) <? 100)
  && (fst (je_existing je)
      || bool_decide (is_Some (get_resume_state "video" (vi_id v) st))).

(** The test of line 1405 on the message of a failed run. *)
Definition blames_subtitles (error_msg : string) : bool :=
  contains "subtitles" (str_lower error_msg) || contains "429" error_msg.

(** The resume store is in its file. *)
Definition resume_persisted (st : downloader) : Prop :=
  resume_state_file st = FileOk (resume_state st).

(** An answer the first-run prompt asks again after. *)
Definition rejected (cfg : Config) (a : answer) : bool :=
  match a with
  | AnsEmpty => false
  | AnsNumber limit =>
      negb ((0 <=? limit) && (limit <=? max_videos_per_channel cfg))
  | AnsInvalid => true
  end.

(** ** Reading a duration back *)

(** The number a text of decimal digits writes. *)
Definition field_value (s : string) : option Z :=
  match s with
  | EmptyString => None
  | _ => (λ d, Z.of_N (N.of_uint d)) <$> NilEmpty.uint_of_string s
  end.

(** The seconds a text [MM:SS] or [HH:MM:SS] stands for. *)
Definition clock_seconds (s : string) : option Z :=
  match str_split ":" s with
  | [mm; ss] =>
      m ← field_value mm; s ← field_value ss; Some (60 * m + s)
  | [hh; mm; ss] =>
      h ← field_value hh; m ← field_value mm; s ← field_value ss;
      Some (3600 * h + 60 * m + s)
  | _ => None
  end.
(** ** Listings *)

(** The items of the objects among the lines of a listing. *)
Definition objects (source_name : string) (lines : list Scanner.json_line)
    : list video_info :=
  flat_map (λ l, match l with
                 | Scanner.LineObject data =>
                     [Scanner.scanned_item source_name data]
                 | _ => []
                 end) lines.

(** No line of the listing makes the loop over the lines raise. *)
Definition clean (lines : list Scanner.json_line) : bool :=
  forallb (λ l, match l with Scanner.LineRaises => false | _ => true end)
          lines.

(** The run gave no listing. *)
Definition no_output (o : Scanner.query_outcome) : bool :=
  match o with Scanner.QueryOutput _ => false | _ => true end.

(** The command of the run failed. *)
Definition is_failed (o : Scanner.query_outcome) : bool :=
  match o with Scanner.QueryFailed => true | _ => false end.

(** The item is as both loops of the scanner build it. *)
Definition item_well_formed (v : video_info) : Prop :=
  vi_url v = Scanner.watch_url (vi_id v)
  ∧ vi_duration_formatted v = format_duration (Some (vi_duration v)).

(** The scanner of a pass, over the runs of the listing command: [run url
    max_videos attempt] and [probe url i]. *)
Definition scanner_env (max_retries : Z) (is_first_run : bool)
    (run : string → Z → Z → Scanner.query_outcome)
    (probe : string → Z → run_result)
    (reply : string → option Z) : scan_env :=
  {| get_all_recent_videos := λ url source_name max_videos,
       Scanner.get_all_recent_videos max_retries is_first_run
         (run url max_videos) (probe url) source_name max_videos;
     limit_reply := reply |}.
(** ** Listings of the examples *)

(** A listing of two objects, the second without id and duration, around
    a line that does not parse and an empty one. *)
Definition listing_example : list Scanner.json_line :=
  [Scanner.LineObject
     {| Scanner.jr_id := Some "v1"; Scanner.jr_title := Some "First";
        Scanner.jr_uploader := None; Scanner.jr_duration := Some 200;
        Scanner.jr_average_duration := None |};
   Scanner.LineInvalid;
   Scanner.LineBlank;
   Scanner.LineObject
     {| Scanner.jr_id := None; Scanner.jr_title := None;
        Scanner.jr_uploader := Some "Someone"; Scanner.jr_duration := None;
        Scanner.jr_average_duration := Some 45 |}].

(** The first attempt times out, the second lists. *)
Definition second_attempt_lists (attempt : Z) : Scanner.query_outcome :=
  if attempt =? 0 then Scanner.QueryTimeout
  else Scanner.QueryOutput listing_example.

(** The first attempt raises after its first object, the second lists. *)
Definition first_attempt_aborts (attempt : Z) : Scanner.query_outcome :=
  if attempt =? 0
  then Scanner.QueryOutput
         (take 1 listing_example ++ Scanner.LineRaises :: drop 1 listing_example)
  else Scanner.QueryOutput listing_example.

(** The fallback prints one item, then its command times out. *)
Definition probe_example (i : Z) : run_result :=
  if i =? 1 then
    RunExit 0
      ("v1" +:+ String "009" ("First" +:+ String "009" ("Chan"
         +:+ String "009" ("200" +:+ String "010" ""))))
  else RunRaises.

(** A pass during which every listing command times out. *)
Definition outage_env : run_env :=
  {| env_scan :=
       scanner_env 2 true (λ _ _ _, Scanner.QueryTimeout)
                   (λ _ _, RunRaises) (λ _, None);
     env_answers := [AnsEmpty];
     env_now_iso := "2026-11-03T10:00:00";
     env_schedule := in_order (plain_job (Exited 0 [])) |}.
(** ** Command lines *)

(** The options of lines 1077-1083, which ask for subtitles. *)
Definition subtitle_options : list string :=
  ["--write-auto-sub"; "--write-sub"; "--sub-langs"; "--convert-subs";
   "--embed-subs"].

(** The command line of an invocation of a job. *)
Definition command_of (cc : CommandConfig) (source_name : string)
    (i : invocation) : list string :=
  build_download_command cc (inv_url i) source_name (inv_skip_subs i) false
                         (inv_resume i).

(** An option is none of the arguments of a list: each is a literal other
    than the option, or is the format or the output template, which the
    lemmas [format_ne] and [template_ne] tell from an option. *)
Ltac not_an_argument format_ne template_ne :=
  let Hin := fresh "Hin" in
  intros Hin;
  repeat (apply elem_of_cons in Hin as [Hin|Hin];
          [first [ discriminate Hin
                 | by eapply format_ne in Hin
                 | eapply template_ne in Hin; [done|cbn; lia] ]
          |]);
  by apply elem_of_nil in Hin.

Ltac is_an_argument :=
  repeat first [ by apply list_elem_of_here | apply list_elem_of_further ].

Ltac decide_argument format_ne template_ne :=
  first [ split; [intros _; reflexivity | intros _; is_an_argument]
        | split; [by not_an_argument format_ne template_ne | done] ].
(** ** Files on disk and log rotation *)

(** One mebibyte, the size above which an existing file counts as partial
    (line 1336). *)
Definition partial_size : Z := 1024 * 1024.

(** [a] is not newer than [b]. *)
Definition not_newer (a b : log_file) : Prop := lf_mtime a ≤ lf_mtime b.

(** Log files of the examples. *)
Definition logs_example : list log_file :=
  [{| lf_name := "YT_feed.log"; lf_mtime := 50 |};
   {| lf_name := "YT_feed.log.1"; lf_mtime := 40 |};
   {| lf_name := "YT_feed.log.2"; lf_mtime := 30 |};
   {| lf_name := "YT_feed.log.3"; lf_mtime := 20 |}].

(** A job that finds the subtitle listing failing. *)
Definition job_without_listing (first : proc_outcome) : job_env :=
  {| je_existing := (false, 0);
     je_has_subtitles := check_subtitles_available (RunExit 1 "");
     je_first := first; je_retry := first;
     je_now_iso := "2026-11-03T10:00:00" |}.

(** The directories and resolution of the examples. *)
Definition cc_example : CommandConfig :=
  {| max_resolution := "720"; current_video_dir := "/home/u/Videos/YT_feed";
     current_audio_dir := "/home/u/Music/YT_music" |}.

(** A glob that yields a directory and then a file of [file_size] bytes
    for every pattern. *)
Definition glob_example (file_size : Z) (dir pattern : string) : list found :=
  [FoundOther; FoundFile file_size].

(** A job over what [check_existing_download] finds. *)
Definition job_over_files (cc : CommandConfig)
    (glob : string → string → list found) (v : video_info)
    (first : proc_outcome) : job_env :=
  {| je_existing := check_existing_download cc glob v "video";
     je_has_subtitles := false;
     je_first := first; je_retry := first;
     je_now_iso := "2026-11-03T10:00:00" |}.

(** A configuration in memory, and a new process before [load_config]. *)
Definition config_example : config_state :=
  {| cs_channels := [("chanA", "Channel A"); ("chanB", "Channel B")];
     cs_playlists := [("https://www.youtube.com/playlist?list=PL1", "Mix")];
     cs_config :=
       {| max_parallel_downloads := 5; resume_cache_days := 30;
          ask_initial_videos := false; initial_videos_per_channel := 3;
          max_videos_per_channel := 50; filter_shorts := true;
          ask_video_limit_per_channel := false; gap_check_limit := 10 |};
     cs_max_resolution := "1080";
     cs_file := FileMissing |}.

Definition new_process (f : file config_data) : config_state :=
  {| cs_channels := []; cs_playlists := []; cs_config := default_config;
     cs_max_resolution := "720"; cs_file := f |}.

(** The process [boot] over the configuration file [f]. *)
Definition over_file (boot : config_state) (f : file config_data)
    : config_state :=
  {| cs_channels := cs_channels boot; cs_playlists := cs_playlists boot;
     cs_config := cs_config boot; cs_max_resolution := cs_max_resolution boot;
     cs_file := f |}.


(* ===================================================================== *)
(** * Part III: properties                                                *)
(* ===================================================================== *)

Opaque history_limit.
#[local] Arguments Nat.ltb : simpl never.

(** ** History store: no id twice *)

Lemma last_n_NoDup {A} n (l : list A) : NoDup l → NoDup (last_n n l).
Proof. intros H. unfold last_n. eapply sublist_NoDup; [done | apply sublist_drop]. Qed.

Lemma history_ids_save now_iso st source :
  history_ids (save_channel_history now_iso st) source = history_ids st source.
Proof. reflexivity. Qed.

Lemma map_last_n {A B} (f : A → B) n (l : list A) : map f (last_n n l) = last_n n (map f l).
Proof. unfold last_n. rewrite length_map. generalize (length l - n)%nat as k. intros k; revert l.
  induction k as [|k IH]; intros [|x l]; cbn; auto. Qed.

Lemma history_ids_update now_iso handle vi st source :
  history_ids (update_channel_history now_iso handle vi st) source =
  if bool_decide (source = handle)
  then ids_after_commit (vi_id vi) (history_ids st handle)
  else history_ids st source.
Proof.
  unfold update_channel_history, ids_after_commit.
  set (chans := default ∅ (ch_channels (channel_history st))).
  set (entry := default {| downloaded_videos := []; last_download := now_iso |}
                        (chans !! handle)).
  assert (Hids : history_ids st handle = map hv_id (downloaded_videos entry)).
  { unfold history_ids, history_channels, entry. fold chans.
    destruct (chans !! handle); reflexivity. }
  assert (Hother : source ≠ handle → ∀ e,
            default [] (map hv_id <$> (downloaded_videos <$> (<[handle:=e]> chans !! source)))
            = history_ids st source).
  { intros Hne e. rewrite lookup_insert_ne by congruence.
    unfold history_ids, history_channels. fold chans.
    destruct (chans !! source); reflexivity. }
  rewrite <- Hids.
  destruct (decide (source = handle)) as [->|Hsrc];
    [rewrite (bool_decide_eq_true_2 (handle = handle)) by done
    |rewrite (bool_decide_eq_false_2 (source = handle)) by done].
  - destruct (bool_decide (vi_id vi ∈ history_ids st handle)) eqn:Hin.
    + unfold history_ids at 1, history_channels; cbn.
      rewrite lookup_insert_eq. symmetry; exact Hids.
    + rewrite history_ids_save.
      unfold history_ids at 1, history_channels; cbn.
      rewrite lookup_insert_eq. cbn.
      rewrite Hids, <- (length_map hv_id), map_app. cbn [map hv_id].
      destruct (history_limit <? _)%nat; [|by rewrite map_app].
      by rewrite map_last_n, map_app.
  - destruct (bool_decide (vi_id vi ∈ history_ids st handle)) eqn:Hin;
      [|rewrite history_ids_save];
      unfold history_ids at 1, history_channels; cbn;
      match goal with |- context [<[handle:=?e]> chans !! source] =>
        specialize (Hother Hsrc e); destruct (<[handle:=e]> chans !! source);
        exact Hother end.
Qed.

Lemma ids_after_commit_NoDup id ids : NoDup ids → NoDup (ids_after_commit id ids).
Proof.
  intros Hnd. unfold ids_after_commit.
  case_bool_decide as Hin; [done|].
  assert (NoDup (ids ++ [id])).
  { apply NoDup_app. split_and!; [done| |apply NoDup_singleton].
    intros x Hx ->%list_elem_of_singleton. done. }
  destruct (history_limit <? _)%nat; [by apply last_n_NoDup | done].
Qed.

Lemma update_well_formed now_iso handle vi st :
  well_formed_history st →
  well_formed_history (update_channel_history now_iso handle vi st).
Proof.
  intros Hwf source. rewrite history_ids_update.
  case_bool_decide; [apply ids_after_commit_NoDup|]; apply Hwf.
Qed.

Lemma commits_well_formed cs st :
  well_formed_history st → well_formed_history (commits cs st).
Proof.
  revert st. induction cs as [|[[now_iso handle] vi] cs IH]; intros st Hwf; [done|].
  cbn. apply IH. by apply update_well_formed.
Qed.

(** The empty history is well formed. *)
Lemma blank_well_formed chans pls : well_formed_history (blank chans pls).
Proof. intros source. unfold history_ids, history_channels. cbn. rewrite lookup_empty. constructor. Qed.

(** Claim C1. For every source, after any sequence of calls of
    [update_channel_history] that starts from a well-formed history (the
    empty one included), the ids of the source's [downloaded_videos] are
    pairwise distinct: the number of distinct ids is the length of the
    list. *)
Theorem no_duplicate_history (st : downloader)
    (cs : list (string * string * video_info)) (source : string) :
  well_formed_history st →
  NoDup (history_ids (commits cs st) source)
  ∧ distinct_count (history_ids (commits cs st) source)
    = length (history_ids (commits cs st) source).
Proof.
  intros Hwf. pose proof (commits_well_formed cs st Hwf source) as Hnd.
  split; [done|]. unfold distinct_count. by apply size_list_to_set.
Qed.

Lemma no_duplicate_history_witness :
  well_formed_history (blank [] [])
  ∧ history_ids
      (commits [("t1", "chan", item "v1" 100); ("t2", "chan", item "v2" 100);
                ("t3", "chan", item "v1" 100)] (blank [] [])) "chan"
    = ["v1"; "v2"]
  ∧ distinct_count
      (history_ids
         (commits [("t1", "chan", item "v1" 100); ("t2", "chan", item "v2" 100);
                   ("t3", "chan", item "v1" 100)] (blank [] [])) "chan")
    = length
        (history_ids
           (commits [("t1", "chan", item "v1" 100); ("t2", "chan", item "v2" 100);
                     ("t3", "chan", item "v1" 100)] (blank [] [])) "chan").
Proof.
  split; [apply blank_well_formed|].
  split; [vm_compute; reflexivity|].
  apply (no_duplicate_history (blank [] [])
           [("t1", "chan", item "v1" 100); ("t2", "chan", item "v2" 100);
            ("t3", "chan", item "v1" 100)] "chan").
  apply blank_well_formed.
Defined.

(** ** Download jobs: when a run of the tool counts as a success *)

Lemma prefix_spec (p s : string) :
  String.prefix p s = true ↔ ∃ post, s = p +:+ post.
Proof.
  revert s. induction p as [|a p IH]; intros s.
  - destruct s; (split; [intros _; by eexists | done]).
  - destruct s as [|b s]; [split; [done | intros [post Hp]; done]|].
    cbn [String.prefix]. destruct (ascii_dec a b) as [->|Hne].
    + rewrite IH. split; intros [post Hp]; exists post; cbn in *; [by subst | by injection Hp].
    + split; [done | intros [post Hp]; cbn in Hp; injection Hp as Hab _; by destruct Hne].
Qed.

(** [contains] is the substring test. *)
Lemma contains_spec (pat s : string) :
  contains pat s = true ↔ ∃ pre post, s = pre +:+ pat +:+ post.
Proof.
  induction s as [|a s IH].
  - cbn [contains]. rewrite orb_false_r, prefix_spec. split.
    + intros [post Hp]. exists EmptyString, post. done.
    + intros ([|b pre] & post & Hp); [by exists post | done].
  - cbn [contains]. rewrite orb_true_iff, prefix_spec, IH. split.
    + intros [[post Hp] | (pre & post & Hp)].
      * by exists EmptyString, post.
      * exists (String a pre), post. cbn. by rewrite Hp.
    + intros ([|b pre] & post & Hp).
      * left. by exists post.
      * right. exists pre, post. by injection Hp as _ ->.
Qed.

Lemma existsb_false_iff {A} (f : A → bool) (l : list A) :
  existsb f l = false ↔ ∀ x, x ∈ l → f x = false.
Proof.
  induction l as [|y l IH]; cbn.
  - split; [intros _ x Hx; inv Hx | done].
  - rewrite orb_false_iff, IH. split.
    + intros [Hy Hl] x Hx. inv Hx; auto.
    + intros H. split; [apply H; left | intros x Hx; apply H; by right].
Qed.

(** Claim C6. [_execute_download] reports success if and only if the
    process exited with return code 0 and no captured stderr line contains
    the marker "ERROR:"; a return code of 0 with a marked stderr line is a
    failure whose error summary is the last five stderr lines joined. *)
Theorem execute_download_success_iff (vi : video_info) (o : proc_outcome) :
  (fst (fst (_execute_download vi o)) = true
   ↔ ∃ stderr_lines,
       o = Exited 0 stderr_lines
       ∧ ∀ line, line ∈ stderr_lines → contains "ERROR:" line = false)
  ∧ (∀ stderr_lines line,
       o = Exited 0 stderr_lines →
       line ∈ stderr_lines →
       contains "ERROR:" line = true →
       _execute_download vi o
       = (false, vi_id vi, str_join (last_n 5 stderr_lines))).
Proof.
  split.
  - destruct o as [rc lines| |msg]; cbn.
    + destruct (Z.eqb_spec rc 0) as [->|Hrc].
      * destruct (existsb _ lines) eqn:Hex; cbn.
        -- split; [done|]. intros (l & [= <-] & Hl).
           apply (existsb_false_iff (λ line, contains "ERROR:" line)) in Hl.
           congruence.
        -- split; [|done]. intros _. exists lines. split; [done|].
           by apply existsb_false_iff.
      * cbn. split; [done|]. intros (l & [= -> <-] & _). done.
    + split; [done | intros (l & [=] & _)].
    + split; [done | intros (l & [=] & _)].
  - intros lines line -> Hin Hmark. cbn.
    assert (existsb (λ l, contains "ERROR:" l) lines = true) as ->.
    { apply existsb_exists. exists line. split; [by apply list_elem_of_In | done]. }
    destruct lines; [inv Hin | done].
Qed.

(** Exit code 0 and a marked line among seven: a failure, with the last
    five lines as its summary. *)
Example execute_download_marked :
  _execute_download (item "v1" 100)
    (Exited 0 ["a"; "b"; "ERROR: unavailable"; "c"; "d"; "e"; "f"])
  = (false, "v1", "ERROR: unavailablecdef").
Proof. reflexivity. Qed.

(** ** Duration cache *)

Section DurationCacheFacts.
Import DirectoryDurationCache.
Context {M D : Type} `{EqDecision M}.
Implicit Types (c : DirectoryDurationCache.t M D) (stat : stat_fn M).

(** Claim C8. [get] returns the stored duration exactly when the file's
    current modification time and size both equal the stored pair; it
    returns [None] when there is no entry for the path, when the file no
    longer exists, and when either value differs. *)
Theorem cache_get_iff c stat (file_path : string) (d : D) :
  (get stat file_path c = Some d
   ↔ ∃ e, cache c !! file_path = Some e
          ∧ stat file_path = Some (mtime e, size e)
          ∧ duration e = d)
  ∧ (cache c !! file_path = None → get stat file_path c = None)
  ∧ (stat file_path = None → get stat file_path c = None)
  ∧ (∀ e st_mtime st_size,
       cache c !! file_path = Some e →
       stat file_path = Some (st_mtime, st_size) →
       mtime e ≠ st_mtime ∨ size e ≠ st_size →
       get stat file_path c = None).
Proof.
  unfold get. split_and!.
  - destruct (cache c !! file_path) as [e|]; [|split; [done | intros (? & [=] & _)]].
    destruct (stat file_path) as [[m sz]|];
      [|split; [done | intros (? & _ & [=] & _)]].
    case_bool_decide as Hm; cbn.
    + destruct (Z.eqb_spec (size e) sz) as [Hs|Hs].
      * split; [intros [= <-]; exists e; by subst | intros (? & [= <-] & _ & <-); done].
      * split; [done | intros (? & [= <-] & [= _ Hsz] & _); done].
    + split; [done | intros (? & [= <-] & [= Hmm _] & _); done].
  - by intros ->.
  - intros ->. by destruct (cache c !! file_path).
  - intros e m sz -> -> [Hm|Hs].
    + by rewrite bool_decide_eq_false_2.
    + destruct (Z.eqb_spec (size e) sz); [done|]. by rewrite andb_false_r.
Qed.


End DurationCacheFacts.

(** An entry recorded for a file of 1000 bytes: found while the file is
    as it was, missed once its size or mtime differs or the file is
    gone, and never found for another path. *)
Example cache_get_examples :
  let c := DirectoryDurationCache.set
             (λ _, Some (1700000000, 1000)) "a.mp4" 42
             (DirectoryDurationCache.init FileMissing) in
  DirectoryDurationCache.get (λ _, Some (1700000000, 1000)) "a.mp4" c = Some 42
  ∧ DirectoryDurationCache.get (λ _, Some (1700000000, 2000)) "a.mp4" c = None
  ∧ DirectoryDurationCache.get (λ _, Some (1700000001, 1000)) "a.mp4" c = None
  ∧ DirectoryDurationCache.get (λ _, None) "a.mp4" c = None
  ∧ DirectoryDurationCache.get (λ _, Some (1700000000, 1000)) "b.mp4" c = None.
Proof. vm_compute. done. Qed.

(** ** Sync planner *)

(** The loop of the steady-state planners, in closed form. *)
Lemma plan_loop_from cfg st key name ty (scan : list video_info) (p : plan) :
  fold_left (plan_step cfg st key name ty) scan p =
  {| download_tasks :=
       download_tasks p
       ++ map (λ v, (v, name, ty)) (List.filter (fetchable cfg st key) scan);
     new_videos_count :=
       new_videos_count p + count (fetchable cfg st key) scan;
     already_downloaded_count :=
       already_downloaded_count p + count (counted_downloaded cfg st key) scan;
     shorts_skipped := shorts_skipped p + count (skipped_as_short cfg) scan |}.
Proof.
  revert p. induction scan as [|v scan IH]; intros p.
  - destruct p. cbn. unfold count. cbn. rewrite app_nil_r.
    f_equal; first [done | lia].
  - cbn [fold_left]. rewrite IH. unfold count. cbn [List.filter].
    assert (fetchable cfg st key v
            = negb (skipped_as_short cfg v)
              && negb (is_video_downloaded key (vi_id v) st)) as -> by done.
    assert (counted_downloaded cfg st key v
            = negb (skipped_as_short cfg v)
              && is_video_downloaded key (vi_id v) st) as -> by done.
    unfold plan_step. fold (skipped_as_short cfg v).
    destruct (skipped_as_short cfg v),
             (is_video_downloaded key (vi_id v) st); cbn;
      rewrite <- ?app_assoc; f_equal; first [done | lia].
Qed.

Lemma plan_loop_spec cfg st key name ty (scan : list video_info) :
  plan_loop cfg st key name ty scan =
  {| download_tasks :=
       map (λ v, (v, name, ty)) (List.filter (fetchable cfg st key) scan);
     new_videos_count := count (fetchable cfg st key) scan;
     already_downloaded_count := count (counted_downloaded cfg st key) scan;
     shorts_skipped := count (skipped_as_short cfg) scan |}.
Proof. unfold plan_loop. by rewrite plan_loop_from. Qed.










(** The scenario of the design: history [v1, v2], a scan [v3, v2, v1] with
    durations 120, 30 and 200, shorts filtered. *)
Example planner_scenario :
  process_channel_auto default_config
    (fixed_scan [item "v3" 120; item "v2" 30; item "v1" 200])
    (commits [("t1", "A", item "v1" 200); ("t2", "A", item "v2" 30)]
             (blank [("A", "Channel A")] []))
    "A" "Channel A"
  = {| download_tasks := [(item "v3" 120, "Channel A", "channel")];
       new_videos_count := 1;
       already_downloaded_count := 1;
       shorts_skipped := 1 |}.
Proof. vm_compute. reflexivity. Qed.

(** ** Jobs and commits leave the rest of the store alone *)

(** [download_video] reads and writes the resume store only. *)
Lemma download_video_frame v source_name je st :
  let st' := snd (fst (download_video v source_name je st)) in
  channel_history st' = channel_history st
  ∧ channel_history_file st' = channel_history_file st
  ∧ channels st' = channels st
  ∧ playlists st' = playlists st
  ∧ download_history st' = download_history st.
Proof.
  unfold download_video. destruct (je_existing je) as [can_resume progress].
  destruct (je_has_subtitles je);
    destruct (_execute_download v (je_first je)) as [[s1 i1] m1];
    destruct (_execute_download v (je_retry je)) as [[s2 i2] m2];
    repeat match goal with
           | |- context [if ?b then _ else _] => destruct b
           end; cbn; done.
Qed.

Lemma download_video_id v source_name je st :
  snd (fst (fst (download_video v source_name je st))) = vi_id v.
Proof.
  unfold download_video, _execute_download.
  destruct (je_existing je) as [can_resume progress].
  destruct (je_has_subtitles je), (je_first je), (je_retry je);
    repeat match goal with
           | |- context [if ?b then _ else _] => destruct b
           end; cbn; done.
Qed.

Lemma history_ids_frame st st' source :
  channel_history st' = channel_history st →
  history_ids st' source = history_ids st source.
Proof. unfold history_ids, history_channels. by intros ->. Qed.

Lemma ids_after_commit_elem id ids x :
  x ∈ ids_after_commit id ids → x ∈ ids ∨ x = id.
Proof.
  unfold ids_after_commit. case_bool_decide; [by left|].
  intros Hx.
  assert (x ∈ ids ++ [id]) as Hin.
  { destruct (history_limit <? _)%nat; [|done].
    unfold last_n in Hx. eapply elem_of_sublist; [exact Hx | apply sublist_drop]. }
  apply elem_of_app in Hin as [?|?%list_elem_of_singleton]; auto.
Qed.

(** A commit adds at most the id of its task to a source's history. *)
Lemma commit_history_ids now_iso t video_id st source x :
  x ∈ history_ids (commit now_iso t video_id st) source →
  x ∈ history_ids st source ∨ x = task_id t.
Proof.
  destruct t as [[v name] ty]. unfold commit, task_id. cbn.
  assert (∀ handle st1,
            st1 = update_channel_history now_iso handle v st →
            x ∈ history_ids st1 source → x ∈ history_ids st source ∨ x = vi_id v)
    as Hupd.
  { intros handle st1 -> Hx. rewrite history_ids_update in Hx.
    case_bool_decide as Hs; [subst source|by left].
    by apply ids_after_commit_elem. }
  destruct (String.eqb ty "channel").
  { destruct (key_of_name (channels st) name) as [handle|]; [|by left].
    intros Hx. eapply (Hupd handle); [reflexivity|]. exact Hx. }
  destruct (String.eqb ty "playlist"); [|by left].
  destruct (key_of_name (playlists st) name) as [url|]; [|by left].
  intros Hx. eapply (Hupd url); [reflexivity|]. exact Hx.
Qed.

(** A pass over the pool adds to a history only ids of its tasks. *)
Lemma pool_history_ids tasks schedule st source x :
  x ∈ history_ids (pr_state (download_videos_parallel tasks schedule st)) source →
  x ∈ history_ids st source ∨ ∃ t, t ∈ tasks ∧ task_id t = x.
Proof.
  revert st. induction schedule as [|[i je] schedule IH]; intros st; cbn.
  { by left. }
  destruct (tasks !! i) as [[[v name] ty]|] eqn:Hi; [|apply IH].
  pose proof (download_video_frame v name je st) as (Hh & _).
  destruct (download_video v name je st) as [[[success vid] st1] invs].
  cbn in Hh. cbn. intros Hx. apply IH in Hx as [Hx|Hx]; [|by right].
  destruct success.
  - apply (commit_history_ids (je_now_iso je) (v, name, ty) vid st1) in Hx
      as [Hx| ->].
    + left. by rewrite <- (history_ids_frame st st1 source Hh).
    + right. exists (v, name, ty). split; [|done].
      by eapply list_elem_of_lookup_2.
  - left. by rewrite <- (history_ids_frame st st1 source Hh).
Qed.

Lemma pool_no_tasks schedule st :
  download_videos_parallel [] schedule st
  = {| pr_state := st; successful_downloads := 0; pr_invocations := [] |}.
Proof. induction schedule as [|[i je] schedule IH]; cbn; [done|]. by rewrite lookup_nil. Qed.

(** ** The tasks of a steady-state pass *)

Lemma steady_plan cfg env st :
  is_first_run st = false →
  plan_pass cfg env st =
  Some
    (flat_map (λ '(handle, name),
        map (λ v, (v, name, "channel"))
          (List.filter (fetchable cfg st handle)
             (channel_scan cfg (env_scan env) st handle name))) (channels st)
     ++ flat_map (λ '(url, name),
        map (λ v, (v, name, "playlist"))
          (List.filter (fetchable cfg st url)
             (playlist_scan cfg (env_scan env) url name))) (playlists st)).
Proof.
  intros Hfr. unfold plan_pass. rewrite Hfr. do 2 f_equal.
  - apply flat_map_ext. intros [handle name].
    unfold process_channel_auto. by rewrite plan_loop_spec.
  - apply flat_map_ext. intros [url name].
    unfold process_playlist_auto. by rewrite plan_loop_spec.
Qed.

(** Every task of a steady-state pass comes from a scanned item that
    passed both tests. *)
Lemma steady_task cfg env st tasks t :
  is_first_run st = false →
  plan_pass cfg env st = Some tasks →
  t ∈ tasks →
  ∃ key, fetchable cfg st key (task_video t) = true.
Proof.
  intros Hfr Hplan Ht. rewrite (steady_plan _ _ _ Hfr) in Hplan.
  injection Hplan as <-.
  apply elem_of_app in Ht as [Ht|Ht]; apply list_elem_of_In, in_flat_map in Ht;
    destruct Ht as ([key name] & _ & Ht);
    apply in_map_iff in Ht as (v & <- & Hv); apply filter_In in Hv as [_ Hv];
    by exists key.
Qed.

Lemma fetchable_not_short cfg st key v :
  filter_shorts cfg = true → fetchable cfg st key v = true →
  60 ≤ vi_duration v.
Proof.
  unfold fetchable, skipped_as_short. intros ->. cbn.
  destruct (Z.ltb_spec (vi_duration v) 60); [done | lia].
Qed.

Lemma count_ext {A} (f g : A → bool) (l : list A) :
  (∀ x, f x = g x) → count f l = count g l.
Proof. intros Hfg. unfold count. f_equal. by apply filter_ext. Qed.

(** ** Passes keep the history well formed *)

Lemma commit_well_formed now_iso t video_id st :
  well_formed_history st → well_formed_history (commit now_iso t video_id st).
Proof.
  intros Hwf. destruct t as [[v name] ty]. unfold commit.
  assert (∀ key d, well_formed_history
            (set_download_history d (update_channel_history now_iso key v st)))
    as Hupd.
  { intros key d source.
    apply (update_well_formed now_iso key v st Hwf source). }
  destruct (String.eqb ty "channel").
  { destruct (key_of_name (channels st) name); [apply Hupd | done]. }
  destruct (String.eqb ty "playlist"); [|done].
  destruct (key_of_name (playlists st) name); [apply Hupd | done].
Qed.

Lemma pool_well_formed tasks schedule st :
  well_formed_history st →
  well_formed_history (pr_state (download_videos_parallel tasks schedule st)).
Proof.
  revert st. induction schedule as [|[i je] schedule IH]; intros st Hwf; [done|].
  cbn [download_videos_parallel].
  destruct (tasks !! i) as [[[v name] ty]|]; [|by apply IH].
  pose proof (download_video_frame v name je st) as (Hh & _).
  destruct (download_video v name je st) as [[[success vid] st1] invs].
  cbn [fst snd] in Hh. cbn [pr_state]. apply IH.
  assert (well_formed_history st1) as Hwf1.
  { intros source. rewrite (history_ids_frame st st1 source Hh). apply Hwf. }
  destruct success; [by apply commit_well_formed | done].
Qed.

(** A whole pass, first run or not, keeps every history free of repeated
    ids. *)
Lemma pass_well_formed cfg env st r :
  well_formed_history st → run_auto_download cfg env st = Some r →
  well_formed_history (pr_state r).
Proof.
  intros Hwf. unfold run_auto_download.
  destruct (plan_pass cfg env st) as [tasks|]; [|done]. cbn.
  intros [= <-]. apply pool_well_formed.
  destruct (is_first_run st); [|done]. intros source. apply Hwf.
Qed.

(** ** Short filtering *)

(** Claim C4, as stated, fails on the first-run path: with short filtering
    enabled, the first pass emits a fetch task for a 45-second item, and
    the item enters History once its download succeeds. *)
Lemma first_run_fetches_short :
  filter_shorts default_config = true
  ∧ is_first_run (fresh_start [("chan", "Chan")] []) = true
  ∧ plan_pass default_config (pass_env [item "s1" 45] (Exited 0 []))
              (fresh_start [("chan", "Chan")] [])
    = Some [(item "s1" 45, "Chan", "channel")]
  ∧ (λ r, history_ids (pr_state r) "chan")
      <$> run_auto_download default_config
            (pass_env [item "s1" 45] (Exited 0 []))
            (fresh_start [("chan", "Chan")] [])
    = Some ["s1"].
Proof. vm_compute. done. Qed.

(** Claim C4, amended to the steady-state planning path. With short
    filtering enabled, in a pass that is not the first run: no fetch task
    is for an item shorter than 60 seconds; History gains only ids of fetch
    tasks, hence of items of 60 seconds or more; and for every source the
    skipped-shorts tally counts exactly the scanned items shorter than 60
    seconds, while the already-downloaded tally counts only items of 60
    seconds or more whose id is in History (a short whose id is in History
    is counted as a short). *)
Theorem shorts_filtered_in_steady_state (cfg : Config) (env : run_env)
    (st : downloader) :
  filter_shorts cfg = true →
  is_first_run st = false →
  ∃ tasks r,
    plan_pass cfg env st = Some tasks
    ∧ run_auto_download cfg env st = Some r
    ∧ (∀ t, t ∈ tasks → 60 ≤ vi_duration (task_video t))
    ∧ (∀ source id,
         id ∈ history_ids (pr_state r) source →
         id ∈ history_ids st source
         ∨ ∃ t, t ∈ tasks ∧ task_id t = id ∧ 60 ≤ vi_duration (task_video t))
    ∧ (∀ handle name,
         let p := process_channel_auto cfg (env_scan env) st handle name in
         let scan := channel_scan cfg (env_scan env) st handle name in
         (∀ t, t ∈ download_tasks p → 60 ≤ vi_duration (task_video t))
         ∧ shorts_skipped p = count (λ v, vi_duration v <? 60) scan
         ∧ already_downloaded_count p
           = count (λ v, (60 <=? vi_duration v)
                         && is_video_downloaded handle (vi_id v) st) scan)
    ∧ (∀ url name,
         let p := process_playlist_auto cfg (env_scan env) st url name in
         let scan := playlist_scan cfg (env_scan env) url name in
         (∀ t, t ∈ download_tasks p → 60 ≤ vi_duration (task_video t))
         ∧ shorts_skipped p = count (λ v, vi_duration v <? 60) scan
         ∧ already_downloaded_count p
           = count (λ v, (60 <=? vi_duration v)
                         && is_video_downloaded url (vi_id v) st) scan).
Proof.
  intros Hfs Hfr.
  assert (Hshort : ∀ v, skipped_as_short cfg v = (vi_duration v <? 60)).
  { intros v. unfold skipped_as_short. by rewrite Hfs. }
  assert (Hcd : ∀ key v, counted_downloaded cfg st key v
                = (60 <=? vi_duration v) && is_video_downloaded key (vi_id v) st).
  { intros key v. unfold counted_downloaded. rewrite Hshort. f_equal.
    destruct (Z.ltb_spec (vi_duration v) 60), (Z.leb_spec 60 (vi_duration v));
      first [done | lia]. }
  assert (Hloop : ∀ key name ty scan,
            let p := plan_loop cfg st key name ty scan in
            (∀ t, t ∈ download_tasks p → 60 ≤ vi_duration (task_video t))
            ∧ shorts_skipped p = count (λ v, vi_duration v <? 60) scan
            ∧ already_downloaded_count p
              = count (λ v, (60 <=? vi_duration v)
                            && is_video_downloaded key (vi_id v) st) scan).
  { intros key name ty scan. cbn zeta. rewrite plan_loop_spec. cbn. split_and!.
    - intros t Ht. apply list_elem_of_In, in_map_iff in Ht as (v & <- & Hv).
      apply filter_In in Hv as [_ Hv]. by eapply fetchable_not_short.
    - by apply count_ext.
    - by apply count_ext. }
  destruct (plan_pass cfg env st) as [tasks|] eqn:Hplan;
    [|by rewrite (steady_plan _ _ _ Hfr) in Hplan].
  assert (Htasks : ∀ t, t ∈ tasks → 60 ≤ vi_duration (task_video t)).
  { intros t Ht. destruct (steady_task cfg env st tasks t Hfr Hplan Ht) as [key Hk].
    by eapply fetchable_not_short. }
  exists tasks. eexists. split; [done|].
  split. { unfold run_auto_download. rewrite Hplan, Hfr. reflexivity. }
  split; [exact Htasks|]. split.
  - intros source id Hid.
    apply pool_history_ids in Hid as [Hid | (t & Ht & Hid)]; [by left|].
    right. exists t. split_and!; [done | done | by apply Htasks].
  - split; intros key name; apply Hloop.
Qed.

Lemma shorts_filtered_in_steady_state_witness :
  ∃ tasks r,
    plan_pass default_config
      (pass_env [item "v3" 120; item "v2" 30; item "v1" 200] (Exited 0 []))
      (commits [("t1", "A", item "v1" 200); ("t2", "A", item "v2" 30)]
         (mark_first_run_completed "t0" (fresh_start [("A", "Channel A")] [])))
    = Some tasks
    ∧ run_auto_download default_config
        (pass_env [item "v3" 120; item "v2" 30; item "v1" 200] (Exited 0 []))
        (commits [("t1", "A", item "v1" 200); ("t2", "A", item "v2" 30)]
           (mark_first_run_completed "t0" (fresh_start [("A", "Channel A")] [])))
      = Some r
    ∧ ∀ t, t ∈ tasks → 60 ≤ vi_duration (task_video t).
Proof.
  destruct (shorts_filtered_in_steady_state default_config
              (pass_env [item "v3" 120; item "v2" 30; item "v1" 200] (Exited 0 []))
              (commits [("t1", "A", item "v1" 200); ("t2", "A", item "v2" 30)]
                 (mark_first_run_completed "t0"
                    (fresh_start [("A", "Channel A")] []))))
    as (tasks & r & Hplan & Hrun & Htasks & _).
  - reflexivity.
  - vm_compute. reflexivity.
  - exists tasks, r. auto.
Defined.

(** ** A pass that finds nothing new *)

Lemma flat_map_nil {A B} (f : A → list B) (l : list A) :
  (∀ x, x ∈ l → f x = []) → flat_map f l = [].
Proof.
  induction l as [|x l IH]; intros H; cbn; [done|].
  rewrite (H x) by left. apply IH. intros y Hy. apply H. by right.
Qed.

Lemma filter_nil {A} (f : A → bool) (l : list A) :
  (∀ x, x ∈ l → f x = false) → List.filter f l = [].
Proof.
  induction l as [|x l IH]; intros H; cbn; [done|].
  rewrite (H x) by left. apply IH. intros y Hy. apply H. by right.
Qed.

(** A steady-state pass whose scans hold no new item plans no task. *)
Lemma no_new_items_no_tasks (cfg : Config) (env : run_env) (st : downloader) :
  is_first_run st = false →
  (∀ handle name v,
     (handle, name) ∈ channels st →
     v ∈ channel_scan cfg (env_scan env) st handle name →
     skipped_as_short cfg v = false →
     is_video_downloaded handle (vi_id v) st = true) →
  (∀ url name v,
     (url, name) ∈ playlists st →
     v ∈ playlist_scan cfg (env_scan env) url name →
     skipped_as_short cfg v = false →
     is_video_downloaded url (vi_id v) st = true) →
  plan_pass cfg env st = Some [].
Proof.
  intros Hfr Hch Hpl. rewrite (steady_plan _ _ _ Hfr). f_equal.
  rewrite !flat_map_nil; [done| |].
  - intros [url name] Hin. rewrite filter_nil; [done|].
    intros v Hv. unfold fetchable.
    destruct (skipped_as_short cfg v) eqn:Hs; [done|].
    by rewrite (Hpl url name v Hin Hv Hs).
  - intros [handle name] Hin. rewrite filter_nil; [done|].
    intros v Hv. unfold fetchable.
    destruct (skipped_as_short cfg v) eqn:Hs; [done|].
    by rewrite (Hch handle name v Hin Hv Hs).
Qed.

(** ** Idempotence: a pass followed by the same scans *)

Lemma is_video_downloaded_ids key id st :
  is_video_downloaded key id st = true ↔ id ∈ history_ids st key.
Proof.
  unfold is_video_downloaded, history_ids.
  destruct (history_channels st !! key) as [e|]; [|split; [done | intros H; inv H]].
  rewrite existsb_exists. split.
  - intros (hv & Hin & Heq%String.eqb_eq). subst id.
    apply list_elem_of_In, in_map, Hin.
  - intros (hv & <- & Hin)%list_elem_of_In%in_map_iff.
    exists hv. split; [done | apply String.eqb_refl].
Qed.

Lemma key_of_name_unique (d : list (string * string)) k name :
  NoDup (map snd d) → (k, name) ∈ d → key_of_name d name = Some k.
Proof.
  unfold key_of_name. induction d as [|[k0 n0] d IH]; [intros _ H; inv H|].
  cbn [map snd]. intros [Hn0 Hd]%NoDup_cons Hin.
  destruct (String.eqb_spec n0 name) as [->|Hne].
  - rewrite filter_cons_True by (cbn; by rewrite String.eqb_refl). cbn.
    apply elem_of_cons in Hin as [[= ->]|Hin]; [done|].
    destruct Hn0. apply list_elem_of_In. apply list_elem_of_In in Hin.
    change name with (snd (k, name)). by apply in_map.
  - rewrite filter_cons_False.
    + apply elem_of_cons in Hin as [[= -> ->]|Hin]; [by destruct Hne|].
      by apply IH.
    + cbn. rewrite (proj2 (String.eqb_neq n0 name) Hne). by intros [].
Qed.

Lemma ids_after_commit_length id ids :
  (length (ids_after_commit id ids) ≤ S (length ids))%nat.
Proof.
  unfold ids_after_commit. case_bool_decide; [lia|].
  destruct (history_limit <? _)%nat.
  - unfold last_n. rewrite length_drop, length_app. cbn. lia.
  - rewrite length_app. cbn. lia.
Qed.

(** Below the limit a commit evicts nothing and lists the id. *)
Lemma ids_after_commit_below id ids :
  (length ids < history_limit)%nat →
  id ∈ ids_after_commit id ids
  ∧ ∀ x, x ∈ ids → x ∈ ids_after_commit id ids.
Proof.
  intros Hlen. unfold ids_after_commit. case_bool_decide as Hin; [done|].
  destruct (Nat.ltb_spec history_limit (length (ids ++ [id]))) as [Hgt|_].
  { rewrite length_app in Hgt. cbn in Hgt. lia. }
  split; [|intros x Hx]; apply elem_of_app; [right; left | by left].
Qed.

(** The commit of a task whose source resolves to [key]. *)
Lemma commit_history_resolved now_iso v name ty video_id st key source :
  (ty = "channel" ∧ key_of_name (channels st) name = Some key
   ∨ ty = "playlist" ∧ key_of_name (playlists st) name = Some key) →
  history_ids (commit now_iso (v, name, ty) video_id st) source
  = history_ids (update_channel_history now_iso key v st) source.
Proof.
  unfold commit. intros [[-> Hk]|[-> Hk]]; cbn; by rewrite Hk.
Qed.

Lemma commit_length now_iso t video_id st source :
  (length (history_ids (commit now_iso t video_id st) source)
   ≤ S (length (history_ids st source)))%nat.
Proof.
  destruct t as [[v name] ty]. unfold commit.
  assert (∀ key, (length (history_ids (update_channel_history now_iso key v st) source)
                  ≤ S (length (history_ids st source)))%nat) as Hupd.
  { intros key. rewrite history_ids_update. case_bool_decide as Hs; [subst|lia].
    apply ids_after_commit_length. }
  destruct (String.eqb ty "channel").
  { destruct (key_of_name (channels st) name); [apply Hupd | lia]. }
  destruct (String.eqb ty "playlist"); [|lia].
  destruct (key_of_name (playlists st) name); [apply Hupd | lia].
Qed.

Lemma commit_keeps now_iso t video_id st source x :
  (length (history_ids st source) < history_limit)%nat →
  x ∈ history_ids st source →
  x ∈ history_ids (commit now_iso t video_id st) source.
Proof.
  intros Hlen Hx. destruct t as [[v name] ty]. unfold commit.
  assert (∀ key, x ∈ history_ids (update_channel_history now_iso key v st) source)
    as Hupd.
  { intros key. rewrite history_ids_update. case_bool_decide as Hs; [subst|done].
    by apply ids_after_commit_below. }
  destruct (String.eqb ty "channel").
  { destruct (key_of_name (channels st) name); [apply Hupd | done]. }
  destruct (String.eqb ty "playlist"); [|done].
  destruct (key_of_name (playlists st) name); [apply Hupd | done].
Qed.

Lemma commit_frame now_iso t video_id st :
  channels (commit now_iso t video_id st) = channels st
  ∧ playlists (commit now_iso t video_id st) = playlists st.
Proof.
  destruct t as [[v name] ty]. unfold commit, update_channel_history.
  destruct (String.eqb ty "channel");
    [destruct (key_of_name (channels st) name); [|done]
    |destruct (String.eqb ty "playlist"); [|done];
     destruct (key_of_name (playlists st) name); [|done]];
    cbn; by case_bool_decide.
Qed.

Lemma commit_flag now_iso t video_id st :
  ch_first_run_completed (channel_history (commit now_iso t video_id st))
  = ch_first_run_completed (channel_history st).
Proof.
  destruct t as [[v name] ty]. unfold commit, update_channel_history.
  destruct (String.eqb ty "channel");
    [destruct (key_of_name (channels st) name); [|done]
    |destruct (String.eqb ty "playlist"); [|done];
     destruct (key_of_name (playlists st) name); [|done]];
    cbn; by case_bool_decide.
Qed.

(** A pass over the pool changes neither the configured sources nor the
    first-run flag. *)
Lemma pool_frame tasks schedule st :
  let st' := pr_state (download_videos_parallel tasks schedule st) in
  channels st' = channels st ∧ playlists st' = playlists st
  ∧ ch_first_run_completed (channel_history st')
    = ch_first_run_completed (channel_history st).
Proof.
  revert st. induction schedule as [|[i je] schedule IH]; intros st; [done|].
  cbn [download_videos_parallel].
  destruct (tasks !! i) as [[[v name] ty]|]; [|apply IH].
  pose proof (download_video_frame v name je st) as (Hh & _ & Hc & Hp & _).
  destruct (download_video v name je st) as [[[success vid] st1] invs].
  cbn [fst snd] in Hh, Hc, Hp. cbn [pr_state].
  set (st2 := if success then commit (je_now_iso je) (v, name, ty) vid st1
              else st1).
  destruct (IH st2) as (H1 & H2 & H3). cbn zeta. rewrite H1, H2, H3.
  subst st2. destruct success; [|by rewrite Hh, Hc, Hp].
  destruct (commit_frame (je_now_iso je) (v, name, ty) vid st1) as [-> ->].
  by rewrite commit_flag, Hh, Hc, Hp.
Qed.

(** While no history reaches the limit, a pass over the pool keeps every
    id and adds the id of every task that succeeds and resolves. *)
Lemma pool_commits tasks schedule st :
  (∀ source,
     (length (history_ids st source) + length schedule ≤ history_limit)%nat) →
  (∀ i je t, (i, je) ∈ schedule → tasks !! i = Some t → succeeds t je) →
  let st' := pr_state (download_videos_parallel tasks schedule st) in
  (∀ source x, x ∈ history_ids st source → x ∈ history_ids st' source)
  ∧ (∀ i je t key,
       (i, je) ∈ schedule → tasks !! i = Some t → resolves st t key →
       task_id t ∈ history_ids st' key).
Proof.
  revert st. induction schedule as [|[i je] schedule IH]; intros st Hlim Hok.
  { cbn. split; [done|]. intros i je t key Hin. inv Hin. }
  cbn [download_videos_parallel].
  destruct (tasks !! i) as [[[v name] ty]|] eqn:Hi.
  2:{ destruct (IH st) as [Hkeep Hadd].
      - intros source. specialize (Hlim source). cbn in Hlim. lia.
      - intros i' je' t' Hin. apply Hok. by right.
      - split; [done|]. intros i' je' t' key [[= -> ->]|Hin]%elem_of_cons Ht'.
        + by pose proof (eq_trans (eq_sym Ht') Hi).
        + by eapply Hadd. }
  pose proof (download_video_frame v name je st) as (Hh & _ & Hc & Hp & _).
  pose proof (Hok i je (v, name, ty) ltac:(left) Hi st) as Hsucc.
  cbn in Hsucc.
  destruct (download_video v name je st) as [[[success vid] st1] invs].
  cbn in Hh, Hc, Hp, Hsucc. subst success. cbn [pr_state].
  set (st2 := commit (je_now_iso je) (v, name, ty) vid st1).
  assert (Hids1 : ∀ source, history_ids st1 source = history_ids st source)
    by (intros; by apply history_ids_frame).
  destruct (commit_frame (je_now_iso je) (v, name, ty) vid st1) as [Hc2 Hp2].
  fold st2 in Hc2, Hp2.
  destruct (IH st2) as [Hkeep Hadd].
  { intros source. specialize (Hlim source). cbn in Hlim.
    pose proof (commit_length (je_now_iso je) (v, name, ty) vid st1 source).
    fold st2 in H. rewrite Hids1 in H. lia. }
  { intros i' je' t' Hin. apply Hok. by right. }
  assert (Hstep : ∀ source x, x ∈ history_ids st source → x ∈ history_ids st2 source).
  { intros source x Hx. apply commit_keeps; rewrite Hids1; [|done].
    specialize (Hlim source). cbn in Hlim. lia. }
  split.
  - intros source x Hx. by apply Hkeep, Hstep.
  - intros i' je' t' key [[= -> ->]|Hin]%elem_of_cons Ht' Hres.
    + pose proof (eq_trans (eq_sym Ht') Hi) as Heq. injection Heq as ->.
      apply Hkeep.
      unfold st2. unfold resolves in Hres. cbn in Hres.
      rewrite (commit_history_resolved _ _ _ _ _ _ key);
        [|by rewrite Hc, Hp].
      rewrite history_ids_update, bool_decide_eq_true_2 by done.
      refine (proj1 (ids_after_commit_below _ _ _)). rewrite Hids1.
      specialize (Hlim key). cbn in Hlim. lia.
    + eapply Hadd; [done..|].
      unfold resolves in *. by rewrite Hc2, Hp2, Hc, Hp.
Qed.

(** After a steady-state pass in which every job succeeds, every source
    has a distinct display name and no history reaches its limit, the same
    scans hold no new item: a second pass has nothing to fetch. *)
Lemma pass_then_same_scans cfg env env' st r tasks :
  is_first_run st = false →
  plan_pass cfg env st = Some tasks →
  run_auto_download cfg env st = Some r →
  schedule_of tasks (env_schedule env tasks) →
  (∀ i je t, (i, je) ∈ env_schedule env tasks → tasks !! i = Some t →
             succeeds t je) →
  NoDup (map snd (channels st)) → NoDup (map snd (playlists st)) →
  (∀ source,
     (length (history_ids st source) + length tasks ≤ history_limit)%nat) →
  (∀ handle name,
     channel_scan cfg (env_scan env') (pr_state r) handle name
     = channel_scan cfg (env_scan env) st handle name) →
  (∀ url name,
     playlist_scan cfg (env_scan env') url name
     = playlist_scan cfg (env_scan env) url name) →
  plan_pass cfg env' (pr_state r) = Some []
  ∧ ∃ r', run_auto_download cfg env' (pr_state r) = Some r'
          ∧ pr_invocations r' = []
          ∧ successful_downloads r' = 0%nat
          ∧ pr_state r' = pr_state r.
Proof.
  intros Hfr Hplan Hrun Hsched Hok Hnc Hnp Hlim Hsc Hsp.
  unfold run_auto_download in Hrun. rewrite Hplan, Hfr in Hrun. cbn in Hrun.
  injection Hrun as <-.
  set (schedule := env_schedule env tasks) in *.
  assert (Hlen : length schedule = length tasks).
  { unfold schedule_of in Hsched. apply Permutation_length in Hsched.
    by rewrite length_map, length_seq in Hsched. }
  destruct (pool_commits tasks schedule st) as [Hkeep Hadd]; [|done|].
  { intros source. rewrite Hlen. apply Hlim. }
  set (st' := pr_state (download_videos_parallel tasks schedule st)) in *.
  destruct (pool_frame tasks schedule st) as (Hc & Hp & Hflag').
  fold st' in Hc, Hp, Hflag'.
  assert (Hflag : is_first_run st' = false).
  { unfold is_first_run in *. by rewrite Hflag'. }
  assert (Hin_tasks : ∀ t key, t ∈ tasks → resolves st t key →
                      task_id t ∈ history_ids st' key).
  { intros t key [i Hi]%list_elem_of_lookup Hres.
    assert (i ∈ map fst schedule) as Hin.
    { apply list_elem_of_In. eapply Permutation_in;
        [symmetry; exact Hsched|]. apply in_seq.
      apply lookup_lt_Some in Hi. lia. }
    apply list_elem_of_In, in_map_iff in Hin as ([i' je] & [= ->] & Hin).
    apply list_elem_of_In in Hin. by eapply Hadd. }
  rewrite (steady_plan _ _ _ Hfr) in Hplan. injection Hplan as Htasks.
  assert (Hplan' : plan_pass cfg env' st' = Some []);
    [apply no_new_items_no_tasks; [done| |]
    |split; [done|]; eexists; split;
     [unfold run_auto_download; rewrite Hplan', Hflag; cbn; reflexivity
     |by rewrite pool_no_tasks]].
  - intros handle name v Hin Hv Hs. rewrite Hc in Hin. rewrite Hsc in Hv.
    apply is_video_downloaded_ids.
    destruct (is_video_downloaded handle (vi_id v) st) eqn:Hd.
    { by apply Hkeep, is_video_downloaded_ids. }
    apply (Hin_tasks (v, name, "channel")).
    + rewrite <- Htasks. apply elem_of_app. left.
      apply list_elem_of_In, in_flat_map. exists (handle, name).
      split; [by apply list_elem_of_In|].
      apply (in_map (λ v, (v, name, "channel"))), filter_In.
      split; [by apply list_elem_of_In|]. unfold fetchable. by rewrite Hs, Hd.
    + left. split; [done|]. by apply key_of_name_unique.
  - intros url name v Hin Hv Hs. rewrite Hp in Hin. rewrite Hsp in Hv.
    apply is_video_downloaded_ids.
    destruct (is_video_downloaded url (vi_id v) st) eqn:Hd.
    { by apply Hkeep, is_video_downloaded_ids. }
    apply (Hin_tasks (v, name, "playlist")).
    + rewrite <- Htasks. apply elem_of_app. right.
      apply list_elem_of_In, in_flat_map. exists (url, name).
      split; [by apply list_elem_of_In|].
      apply (in_map (λ v, (v, name, "playlist"))), filter_In.
      split; [by apply list_elem_of_In|]. unfold fetchable. by rewrite Hs, Hd.
    + right. split; [done|]. by apply key_of_name_unique.
Qed.




(** ** The first-run flag *)

Lemma first_run_done_not_first st : first_run_done st → is_first_run st = false.
Proof. intros [Hm _]. unfold is_first_run. by rewrite Hm. Qed.

Lemma mark_first_run_done now_iso st :
  first_run_done (mark_first_run_completed now_iso st).
Proof. split; [done|]. eexists. split; reflexivity. Qed.

Lemma first_run_done_frame st st' :
  channel_history st' = channel_history st →
  channel_history_file st' = channel_history_file st →
  first_run_done st → first_run_done st'.
Proof. unfold first_run_done. by intros -> ->. Qed.

Lemma update_first_run_done now_iso handle v st :
  first_run_done st → first_run_done (update_channel_history now_iso handle v st).
Proof.
  intros [Hm (h & Hf & Hh)]. unfold update_channel_history.
  case_bool_decide.
  - split; [done|]. by exists h.
  - split; [done|]. eexists. split; [reflexivity|done].
Qed.

Lemma commit_first_run_done now_iso t video_id st :
  first_run_done st → first_run_done (commit now_iso t video_id st).
Proof.
  intros Hd. destruct t as [[v name] ty]. unfold commit.
  destruct (String.eqb ty "channel").
  { destruct (key_of_name (channels st) name) as [handle|]; [|done].
    eapply first_run_done_frame; [| |by apply (update_first_run_done now_iso handle v)];
      reflexivity. }
  destruct (String.eqb ty "playlist"); [|done].
  destruct (key_of_name (playlists st) name) as [url|]; [|done].
  eapply first_run_done_frame; [| |by apply (update_first_run_done now_iso url v)];
    reflexivity.
Qed.

Lemma download_video_first_run_done v source_name je st :
  first_run_done st →
  first_run_done (snd (fst (download_video v source_name je st))).
Proof.
  pose proof (download_video_frame v source_name je st) as (Hh & Hf & _).
  by apply first_run_done_frame.
Qed.

Lemma pool_first_run_done tasks schedule st :
  first_run_done st →
  first_run_done (pr_state (download_videos_parallel tasks schedule st)).
Proof.
  revert st. induction schedule as [|[i je] schedule IH]; intros st Hd; cbn; [done|].
  destruct (tasks !! i) as [[[v name] ty]|]; [|by apply IH].
  pose proof (download_video_first_run_done v name je st Hd) as Hd1.
  destruct (download_video v name je st) as [[[success vid] st1] invs].
  cbn in *. apply IH. destruct success; [|done].
  by apply (commit_first_run_done (je_now_iso je) (v, name, ty) vid st1).
Qed.

Lemma pass_first_run_done cfg env st r :
  first_run_done st → run_auto_download cfg env st = Some r →
  first_run_done (pr_state r).
Proof.
  intros Hd. unfold run_auto_download.
  destruct (plan_pass cfg env st) as [tasks|]; [|done]. cbn.
  rewrite (first_run_done_not_first st Hd). intros [= <-].
  by apply pool_first_run_done.
Qed.

Lemma restart_first_run_done fromisoformat cfg now now_iso st :
  first_run_done st → first_run_done (restart fromisoformat cfg now now_iso st).
Proof.
  intros [_ (h & Hf & Hh)]. unfold restart, init, load_channel_history.
  set (st0 := {| channels := _ |}).
  assert (channel_history_file
            (load_resume_state fromisoformat cfg now now_iso st0)
          = FileOk h) as Hfile.
  { rewrite <- Hf. unfold load_resume_state, cleanup_old_resume_entries.
    subst st0. cbn.
    destruct (resume_state_file st) as [| |r]; [done|done|].
    cbn. destruct (sweep _ _ _ _ _) as [[vs n] fin]. destruct fin; [|done].
    destruct (sweep _ _ _ _ _) as [[ps n'] fin']. cbn.
    by destruct (fin' && _). }
  rewrite Hfile. split; [done|]. by exists h.
Qed.

Lemma apply_op_first_run_done fromisoformat st o :
  first_run_done st → first_run_done (apply_op fromisoformat st o).
Proof.
  intros Hd. destruct o as [cfg env|now_iso handle v|v name je|cfg now now_iso]; cbn.
  - destruct (run_auto_download cfg env st) as [r|] eqn:Hr; [|done].
    by eapply pass_first_run_done.
  - by apply update_first_run_done.
  - by apply download_video_first_run_done.
  - by apply restart_first_run_done.
Qed.

Lemma ops_first_run_done fromisoformat ops st :
  first_run_done st → first_run_done (fold_left (apply_op fromisoformat) ops st).
Proof.
  revert st. induction ops as [|o ops IH]; intros st Hd; cbn; [done|].
  by apply IH, apply_op_first_run_done.
Qed.

Lemma first_plan_answered cfg env st :
  is_first_run st = true →
  is_Some (get_initial_video_limit cfg (env_answers env)) →
  is_Some (plan_pass cfg env st).
Proof.
  intros Hfr [limit Hl]. unfold plan_pass. rewrite Hfr.
  destruct (ask_initial_videos cfg); [rewrite Hl|]; cbn; eauto.
Qed.

(** Claim C5. Whenever the first pass completes (the first-run prompt,
    when enabled, is answered), the persisted flag has gone from "first
    run" to "not first run", whatever the scans returned and whatever
    became of the downloads (all failed, none scheduled); and no later
    operation of the program (a pass, a commit, a download job, a restart
    over the files it left) brings "first run" back. *)
Theorem first_run_flag_flips_once (fromisoformat : string → option Z)
    (cfg : Config) (env : run_env) (st : downloader) :
  is_first_run st = true →
  is_Some (get_initial_video_limit cfg (env_answers env)) →
  ∃ r, run_auto_download cfg env st = Some r
       ∧ is_first_run (pr_state r) = false
       ∧ (∃ h, channel_history_file (pr_state r) = FileOk h
               ∧ ch_first_run_completed h = Some true)
       ∧ ∀ ops,
           is_first_run (fold_left (apply_op fromisoformat) ops (pr_state r))
           = false.
Proof.
  intros Hfr Hans.
  destruct (first_plan_answered cfg env st Hfr Hans) as [tasks Hplan].
  unfold run_auto_download. rewrite Hplan, Hfr. cbn.
  eexists. split; [reflexivity|].
  assert (first_run_done
            (pr_state (download_videos_parallel tasks (env_schedule env tasks)
                         (mark_first_run_completed (env_now_iso env) st))))
    as Hd by apply pool_first_run_done, mark_first_run_done.
  split; [by apply first_run_done_not_first|].
  split; [apply Hd|].
  intros ops. by apply first_run_done_not_first, ops_first_run_done.
Qed.

(** A first pass all of whose downloads fail (exit code 1), followed by a
    restart and another pass. *)
Lemma first_run_flag_flips_once_witness :
  is_first_run (fresh_start [("A", "Channel A")] []) = true
  ∧ ∃ r, run_auto_download default_config
           (pass_env [item "v1" 100; item "v2" 100] (Exited 1 ["failed"]))
           (fresh_start [("A", "Channel A")] [])
         = Some r
         ∧ successful_downloads r = 0%nat
         ∧ is_first_run (pr_state r) = false
         ∧ is_first_run
             (fold_left (apply_op iso_instant)
                [OpRestart default_config (start_time + 3600000000)
                           "2026-11-03T11:00:00";
                 OpPass default_config
                        (pass_env [item "v1" 100] (Exited 0 []))]
                (pr_state r))
           = false.
Proof.
  split; [reflexivity|].
  destruct (first_run_flag_flips_once iso_instant default_config
              (pass_env [item "v1" 100; item "v2" 100] (Exited 1 ["failed"]))
              (fresh_start [("A", "Channel A")] []))
    as (r & Hr & Hflag & _ & Hops).
  - reflexivity.
  - by exists 5.
  - exists r. split; [exact Hr|]. split; [|split; [exact Hflag | apply Hops]].
    vm_compute in Hr. by injection Hr as <-.
Defined.

(** ** Dictionaries *)

Section DictFacts.
Context {V : Type}.
Implicit Types (d : list (string * V)) (k : string) (v : V).

Lemma dict_get_Some_elem d k v : dict_get k d = Some v → (k, v) ∈ d.
Proof.
induction d as [|[k' v'] d IH]; cbn; [done|].
destruct (String.eqb_spec k' k) as [->|Hne].
- intros [= ->]. left.
- intros H. right. by apply IH.
Qed.

Lemma dict_get_None d k : k ∉ dict_keys d → dict_get k d = None.
Proof.
induction d as [|[k' v'] d IH]; cbn; [done|].
intros Hk. destruct (String.eqb_spec k' k) as [->|Hne].
- destruct Hk. left.
- apply IH. intros Hin. apply Hk. by right.
Qed.

Lemma dict_get_elem d k v : dict_wf d → (k, v) ∈ d → dict_get k d = Some v.
Proof.
unfold dict_wf. induction d as [|[k' v'] d IH]; cbn; [intros _ H; inv H|].
intros [Hk Hd]%NoDup_cons Hin. destruct (String.eqb_spec k' k) as [->|Hne].
- apply elem_of_cons in Hin as [[= ->]|Hin]; [done|].
  destruct Hk. apply list_elem_of_In. apply list_elem_of_In in Hin.
  change k with (fst (k, v)). by apply in_map.
- apply elem_of_cons in Hin as [[= -> ->]|Hin]; [done|]. by apply IH.
Qed.

Lemma dict_get_set_eq d k v : dict_get k (dict_set k v d) = Some v.
Proof.
induction d as [|[k' v'] d IH]; cbn.
- by rewrite String.eqb_refl.
- destruct (String.eqb_spec k' k) as [->|Hne]; cbn.
  + by rewrite String.eqb_refl.
  + by destruct (String.eqb_spec k' k).
Qed.

Lemma dict_get_set_ne d k k' v :
k ≠ k' → dict_get k' (dict_set k v d) = dict_get k' d.
Proof.
intros Hne. induction d as [|[k0 v0] d IH]; cbn.
- by destruct (String.eqb_spec k k').
- destruct (String.eqb_spec k0 k) as [->|Hne0]; cbn.
  + by destruct (String.eqb_spec k k').
  + by rewrite IH.
Qed.

Lemma dict_keys_del_subseteq d k x : x ∈ dict_keys (dict_del k d) → x ∈ dict_keys d.
Proof.
induction d as [|[k' v'] d IH]; cbn; [done|].
destruct (String.eqb k' k); cbn.
- by right.
- intros [->|Hx]%elem_of_cons; [left | right; by apply IH].
Qed.

Lemma dict_del_wf d k : dict_wf d → dict_wf (dict_del k d).
Proof.
unfold dict_wf. induction d as [|[k' v'] d IH]; cbn; [done|].
intros [Hk Hd]%NoDup_cons. destruct (String.eqb k' k); cbn; [done|].
apply NoDup_cons. split; [|by apply IH].
intros Hin. by apply Hk, (dict_keys_del_subseteq d k).
Qed.

Lemma dict_get_del_eq d k : dict_wf d → dict_get k (dict_del k d) = None.
Proof.
unfold dict_wf. induction d as [|[k' v'] d IH]; cbn; [done|].
intros [Hk Hd]%NoDup_cons. destruct (String.eqb_spec k' k) as [->|Hne]; cbn.
- by apply dict_get_None.
- destruct (String.eqb_spec k' k); [done|]. by apply IH.
Qed.

Lemma dict_get_del_ne d k k' :
k ≠ k' → dict_get k' (dict_del k d) = dict_get k' d.
Proof.
intros Hne. induction d as [|[k0 v0] d IH]; cbn; [done|].
destruct (String.eqb_spec k0 k) as [->|Hne0]; cbn.
- by destruct (String.eqb_spec k k').
- by rewrite IH.
Qed.

Lemma dict_keys_set d k v x :
x ∈ dict_keys (dict_set k v d) → x ∈ dict_keys d ∨ x = k.
Proof.
induction d as [|[k' v'] d IH]; cbn.
- intros ->%list_elem_of_singleton. by right.
- destruct (String.eqb_spec k' k) as [->|Hne]; cbn.
  + intros [->|Hx]%elem_of_cons; left; [left | by right].
  + intros [->|Hx]%elem_of_cons; [left; left|].
    destruct (IH Hx) as [?|?]; [left; by right | by right].
Qed.

Lemma dict_set_wf d k v : dict_wf d → dict_wf (dict_set k v d).
Proof.
unfold dict_wf. induction d as [|[k' v'] d IH]; cbn.
- intros _. apply NoDup_singleton.
- intros [Hk Hd]%NoDup_cons. destruct (String.eqb_spec k' k) as [->|Hne]; cbn.
  + by apply NoDup_cons.
  + apply NoDup_cons. split; [|by apply IH].
    intros [Hin| ->]%dict_keys_set; done.
Qed.
End DictFacts.

(** ** Resume store: what a job leaves behind *)

Lemma clear_resume_state_video id st :
  dict_wf (rs_videos (resume_state st)) →
  get_resume_state "video" id (clear_resume_state "video" id st) = None
  ∧ resume_state_file (clear_resume_state "video" id st)
    = FileOk (resume_state (clear_resume_state "video" id st)).
Proof.
  intros Hwf. split; [|reflexivity].
  unfold clear_resume_state, get_resume_state. cbn.
  case_bool_decide as Hin; cbn.
  - by apply dict_get_del_eq.
  - destruct (dict_get id (rs_videos (resume_state st))) eqn:Hg; [|done].
    destruct Hin. eauto.
Qed.

Lemma update_resume_state_video now_iso id data st :
  get_resume_state "video" id (update_resume_state now_iso "video" id data st)
  = Some (stamp data now_iso)
  ∧ (dict_wf (rs_videos (resume_state st)) →
     dict_wf (rs_videos (resume_state
                (update_resume_state now_iso "video" id data st)))).
Proof.
  unfold update_resume_state, get_resume_state. cbn. split.
  - apply dict_get_set_eq.
  - apply dict_set_wf.
Qed.

(** Claim C7. For a download job of an item: on success the item's Resume
    entry is gone and the store on disk is the store in memory; on failure
    an entry that existed before the job is still there, and so is the
    entry the job recorded when it found a partial file to resume. *)
Theorem resume_entry_after_job (v : video_info) (source_name : string)
    (je : job_env) (st st' : downloader) (success : bool)
    (video_id : string) (invs : list invocation) :
  dict_wf (rs_videos (resume_state st)) →
  download_video v source_name je st = (success, video_id, st', invs) →
  video_id = vi_id v
  ∧ (success = true →
     get_resume_state "video" (vi_id v) st' = None
     ∧ resume_state_file st' = FileOk (resume_state st'))
  ∧ (success = false →
     (is_Some (get_resume_state "video" (vi_id v) st) →
      is_Some (get_resume_state "video" (vi_id v) st'))
     ∧ (∀ progress,
          je_existing je = (true, progress) → progress < 100 →
          ∃ e, get_resume_state "video" (vi_id v) st' = Some e
               ∧ re_progress e = progress
               ∧ re_timestamp e = Some (je_now_iso je))).
Proof.
  intros Hwf Hjob.
  pose proof (download_video_id v source_name je st) as Hid.
  rewrite Hjob in Hid. cbn in Hid. split; [done|].
  revert Hjob. unfold download_video.
  destruct (je_existing je) as [can_resume cur] eqn:Hex.
  set (resume := if can_resume && (cur <? 100) then true
                 else if bool_decide (is_Some (get_resume_state "video" (vi_id v) st))
                         && (cur <? 100) then true else false).
  set (data := {| re_url := vi_url v |}).
  set (st1 := if resume then update_resume_state (je_now_iso je) "video" (vi_id v) data st
              else st).
  assert (Hwf1 : dict_wf (rs_videos (resume_state st1))).
  { subst st1. destruct resume; [|done]. by apply update_resume_state_video. }
  assert (Hkeep : is_Some (get_resume_state "video" (vi_id v) st) →
                  is_Some (get_resume_state "video" (vi_id v) st1)).
  { subst st1. destruct resume; [|done]. intros _.
    rewrite (proj1 (update_resume_state_video _ _ _ _)). eauto. }
  assert (Hnew : ∀ progress, (can_resume, cur) = (true, progress) → progress < 100 →
                 ∃ e, get_resume_state "video" (vi_id v) st1 = Some e
                      ∧ re_progress e = progress
                      ∧ re_timestamp e = Some (je_now_iso je)).
  { intros progress [= -> ->] Hlt. subst st1 resume. cbn.
    destruct (Z.ltb_spec progress 100); [|lia].
    eexists. split; [apply update_resume_state_video|]. done. }
  clearbody st1 resume.
  assert (Hend : ∀ (ok : bool) vid' invs',
            (if ok then (true, vid', clear_resume_state "video" vid' st1, invs')
             else (false, vid', st1, invs'))
            = (success, video_id, st', invs) →
            (success = true →
             get_resume_state "video" (vi_id v) st' = None
             ∧ resume_state_file st' = FileOk (resume_state st'))
            ∧ (success = false →
               (is_Some (get_resume_state "video" (vi_id v) st) →
                is_Some (get_resume_state "video" (vi_id v) st'))
               ∧ (∀ progress, (can_resume, cur) = (true, progress) → progress < 100 →
                    ∃ e, get_resume_state "video" (vi_id v) st' = Some e
                         ∧ re_progress e = progress
                         ∧ re_timestamp e = Some (je_now_iso je)))).
  { intros [] vid' invs' [= <- Hv <- _].
    - split; [intros _ | done]. subst vid'. rewrite Hid.
      by apply clear_resume_state_video.
    - split; [done | intros _]. by split. }
  destruct (je_has_subtitles je);
    destruct (_execute_download v (je_first je)) as [[s1 i1] m1];
    destruct (_execute_download v (je_retry je)) as [[s2 i2] m2];
    [destruct s1; cbn [negb andb];
     [|destruct (contains "subtitles" (str_lower m1) || contains "429" m1)]|];
    intros Hjob;
    first [exact (Hend true _ _ Hjob) | exact (Hend false _ _ Hjob)
          | exact (Hend s1 _ _ Hjob) | exact (Hend s2 _ _ Hjob)].
Qed.

(** A failed job keeps the entry; a successful one removes it. *)
Lemma resume_entry_after_job_witness :
  is_Some (get_resume_state "video" "v1" store_with_entry)
  ∧ is_Some
      (get_resume_state "video" "v1"
         (snd (fst (download_video (item "v1" 100) "Channel A"
                      (plain_job (Exited 1 ["ERROR: broken"]))
                      store_with_entry))))
  ∧ get_resume_state "video" "v1"
      (snd (fst (download_video (item "v1" 100) "Channel A"
                   (plain_job (Exited 0 [])) store_with_entry)))
    = None.
Proof.
  assert (Hwf : dict_wf (rs_videos (resume_state store_with_entry))).
  { refine (bool_decide_unpack _ _). vm_compute. exact I. }
  split; [vm_compute; eauto|]. split.
  - destruct (download_video (item "v1" 100) "Channel A"
                (plain_job (Exited 1 ["ERROR: broken"])) store_with_entry)
      as [[[success vid] st'] invs] eqn:Hjob.
    destruct (resume_entry_after_job _ _ _ _ _ _ _ _ Hwf Hjob) as (_ & _ & Hfail).
    vm_compute in Hjob. injection Hjob as <- _ _ _.
    apply Hfail; [done|]. vm_compute. eauto.
  - destruct (download_video (item "v1" 100) "Channel A"
                (plain_job (Exited 0 [])) store_with_entry)
      as [[[success vid] st'] invs] eqn:Hjob.
    destruct (resume_entry_after_job _ _ _ _ _ _ _ _ Hwf Hjob) as (_ & Hok & _).
    vm_compute in Hjob. injection Hjob as <- _ _ _.
    by apply Hok.
Defined.

(** ** Resume store: the sweep at load time *)

Section Sweep.
Variable fromisoformat : string → option Z.
Variable cutoff_time : Z.

(** A sweep that no exception cuts short filters the dictionary. *)
Lemma sweep_filters (pre suf : list (string * resume_entry)) (n : nat) :
dict_wf (pre ++ suf) →
readable fromisoformat suf →
sweep fromisoformat cutoff_time (dict_keys suf) (pre ++ suf) n
= (pre ++ List.filter (kept fromisoformat cutoff_time) suf,
   (n + count (λ kv, negb (kept fromisoformat cutoff_time kv)) suf)%nat,
   true).
Proof.
revert pre n. induction suf as [|[k e] suf IH]; intros pre n Hwf Hrd.
- cbn. unfold count. cbn. do 2 f_equal. lia.
- cbn [dict_keys map fst sweep].
  assert (Hk : k ∉ dict_keys pre).
  { unfold dict_wf, dict_keys in Hwf. rewrite map_app in Hwf.
    apply NoDup_app in Hwf as (_ & Hdisj & _).
    intros Hin. apply (Hdisj k Hin). left. }
  assert (Hget : dict_get k (pre ++ (k, e) :: suf) = Some e).
  { apply dict_get_elem; [done|]. apply elem_of_app. right. left. }
  rewrite Hget.
  destruct (Hrd k e) as [t Ht]; [left|]. rewrite Ht.
  assert (Hrd' : readable fromisoformat suf).
  { intros k' e' Hin. apply (Hrd k' e'). by right. }
  assert (Hkept : kept fromisoformat cutoff_time (k, e)
                  = negb (t <? cutoff_time)).
  { unfold kept. cbn [snd]. by rewrite Ht. }
  unfold count. cbn [List.filter]. rewrite Hkept.
  destruct (t <? cutoff_time); cbn [negb].
  + assert (Hdel : dict_del k (pre ++ (k, e) :: suf) = pre ++ suf).
    { clear -Hk. induction pre as [|[k0 v0] pre IHp]; cbn.
      - by rewrite String.eqb_refl.
      - destruct (String.eqb_spec k0 k) as [->|Hne].
        + destruct Hk. left.
        + f_equal. apply IHp. intros Hin. apply Hk. by right. }
    rewrite Hdel. rewrite IH; [|by rewrite <- Hdel; apply dict_del_wf|done].
    unfold count. cbn [length]. do 2 f_equal. lia.
  + replace (pre ++ (k, e) :: suf) with ((pre ++ [(k, e)]) ++ suf)
      by (by rewrite <- app_assoc).
    rewrite IH; [|by rewrite <- app_assoc|done].
    unfold count. rewrite <- app_assoc. reflexivity.
Qed.

Lemma kept_has_timestamp t2000 kv :
fromisoformat "2000-01-01" = Some t2000 →
t2000 < cutoff_time →
kept fromisoformat cutoff_time kv = true →
is_Some (re_timestamp (snd kv)).
Proof.
intros H2000 Hlt. unfold kept.
destruct (re_timestamp (snd kv)) as [ts|]; [eauto|]. cbn. rewrite H2000.
destruct (Z.ltb_spec t2000 cutoff_time); [done | lia].
Qed.
End Sweep.

Lemma readable_app fromisoformat (d1 d2 : list (string * resume_entry)) :
  (∀ k e ts, (k, e) ∈ d1 ++ d2 → re_timestamp e = Some ts →
             is_Some (fromisoformat ts)) →
  is_Some (fromisoformat "2000-01-01") →
  readable fromisoformat d1 ∧ readable fromisoformat d2.
Proof.
  intros Hts H2000. split; intros k e Hin;
    (destruct (re_timestamp e) as [ts|] eqn:He; cbn; [|done]);
    apply (Hts k e ts); [apply elem_of_app| |apply elem_of_app|]; auto.
Qed.

(** The store after [load_resume_state] when no exception cuts the sweep
    short. *)
Lemma load_resume_state_filters fromisoformat cfg now now_iso st r :
  resume_state_file st = FileOk r →
  dict_wf (rs_videos r) → dict_wf (rs_playlists r) →
  readable fromisoformat (rs_videos r) →
  readable fromisoformat (rs_playlists r) →
  let cutoff_time := now - resume_cache_days cfg * microseconds_per_day in
  rs_videos (resume_state (load_resume_state fromisoformat cfg now now_iso st))
  = List.filter (kept fromisoformat cutoff_time) (rs_videos r)
  ∧ rs_playlists
      (resume_state (load_resume_state fromisoformat cfg now now_iso st))
    = List.filter (kept fromisoformat cutoff_time) (rs_playlists r).
Proof.
  intros Hf Hwv Hwp Hrv Hrp cutoff_time.
  pose proof (sweep_filters fromisoformat cutoff_time [] (rs_videos r) 0 Hwv Hrv)
    as Hsv.
  unfold load_resume_state, cleanup_old_resume_entries. rewrite Hf.
  cbn [resume_state set_resume_state rs_videos rs_playlists set_videos
       set_playlists]. fold cutoff_time.
  cbn [app] in Hsv. rewrite Hsv.
  pose proof (sweep_filters fromisoformat cutoff_time [] (rs_playlists r)
                (0 + count (λ kv, negb (kept fromisoformat cutoff_time kv))
                           (rs_videos r)) Hwp Hrp) as Hsp.
  cbn [app] in Hsp. rewrite Hsp.
  by destruct (true && (0 <? _)%nat).
Qed.

(** The two instants of the examples, read from their texts. *)
Example iso_instant_examples :
  iso_instant "2026-11-03T10:00:00" = Some start_time
  ∧ iso_instant "2000-01-01" = Some year_2000
  ∧ iso_instant "not-a-date" = None.
Proof. vm_compute. done. Qed.

(** Claim C10, as stated, fails: an entry without a timestamp survives the
    load when an entry visited before it carries a timestamp that
    [datetime.fromisoformat] rejects; the exception ends the sweep, and
    [get_resume_state] then returns the entry without a timestamp. *)
Lemma sweep_cut_short_keeps_entry :
  iso_instant "2000-01-01" = Some year_2000
  ∧ year_2000
    < start_time - resume_cache_days default_config * microseconds_per_day
  ∧ re_timestamp
    <$> get_resume_state "video" "b"
          (init iso_instant default_config start_time
             "2026-11-03T10:00:00" [] [] (∅, ∅) FileMissing
             (FileOk
                {| rs_videos :=
                     [("a", {| re_url := "u"; re_title := "t"; re_source := "s";
                               re_progress := 50; re_type := "video";
                               re_timestamp := Some "not-a-date" |});
                      ("b", {| re_url := "u"; re_title := "t"; re_source := "s";
                               re_progress := 50; re_type := "video";
                               re_timestamp := None |})];
                   rs_playlists := [];
                   rs_last_cleanup := "2026-11-01T00:00:00" |}))
    = Some None.
Proof. vm_compute. done. Qed.

(** Claim C10, amended. At load time, provided the retention sweep is not
    cut short by an exception (every timestamp present in the file can be
    read), an entry without a timestamp is taken as dated 2000-01-01 and
    purged whenever the cutoff postdates 2000-01-01; after such a start,
    [get_resume_state] returns no entry without a timestamp. *)
Theorem entries_without_timestamp_purged (fromisoformat : string → option Z)
    (cfg : Config) (now : Z) (now_iso : string) (st : downloader)
    (r : resume_state_t) (t2000 : Z) :
  resume_state_file st = FileOk r →
  dict_wf (rs_videos r) → dict_wf (rs_playlists r) →
  fromisoformat "2000-01-01" = Some t2000 →
  t2000 < now - resume_cache_days cfg * microseconds_per_day →
  (∀ k e ts, (k, e) ∈ rs_videos r ++ rs_playlists r →
             re_timestamp e = Some ts → is_Some (fromisoformat ts)) →
  let st' := load_resume_state fromisoformat cfg now now_iso st in
  (∀ item_type item_id e,
     get_resume_state item_type item_id st' = Some e →
     is_Some (re_timestamp e))
  ∧ (∀ k e, (k, e) ∈ rs_videos r → re_timestamp e = None →
            get_resume_state "video" k st' = None)
  ∧ (∀ k e, (k, e) ∈ rs_playlists r → re_timestamp e = None →
            get_resume_state "playlist" k st' = None).
Proof.
  intros Hf Hwv Hwp H2000 Hlt Hts st'.
  destruct (readable_app fromisoformat _ _ Hts) as [Hrv Hrp]; [by rewrite H2000|].
  destruct (load_resume_state_filters fromisoformat cfg now now_iso st r
              Hf Hwv Hwp Hrv Hrp) as [Hv Hp].
  fold st' in Hv, Hp.
  assert (Hget : ∀ item_type item_id e,
            get_resume_state item_type item_id st' = Some e →
            is_Some (re_timestamp e)
            ∧ ((item_type = "video" ∧ (item_id, e) ∈ rs_videos r)
               ∨ (item_type = "playlist" ∧ (item_id, e) ∈ rs_playlists r))).
  { intros item_type item_id e. unfold get_resume_state. rewrite Hv, Hp.
    destruct (String.eqb_spec item_type "video") as [->|_];
      [|destruct (String.eqb_spec item_type "playlist") as [->|_]; [|done]];
      intros Hin%dict_get_Some_elem%list_elem_of_In%filter_In;
      destruct Hin as [Hin%list_elem_of_In Hk];
      (split; [by apply (kept_has_timestamp _ _ t2000 _ H2000 Hlt Hk)|]); auto. }
  split_and!.
  - intros item_type item_id e He. by apply (Hget item_type item_id e).
  - intros k e Hin Hnone.
    destruct (get_resume_state "video" k st') as [e'|] eqn:He'; [|done].
    destruct (Hget _ _ _ He') as [[ts Hsome] [[_ Hin']|[[=] _]]].
    pose proof (dict_get_elem _ _ _ Hwv Hin) as Hg1.
    pose proof (dict_get_elem _ _ _ Hwv Hin') as Hg2. congruence.
  - intros k e Hin Hnone.
    destruct (get_resume_state "playlist" k st') as [e'|] eqn:He'; [|done].
    destruct (Hget _ _ _ He') as [[ts Hsome] [[[=] _]|[_ Hin']]].
    pose proof (dict_get_elem _ _ _ Hwp Hin) as Hg1.
    pose proof (dict_get_elem _ _ _ Hwp Hin') as Hg2. congruence.
Qed.

Lemma entries_without_timestamp_purged_witness :
  get_resume_state "video" "old"
    (load_resume_state iso_instant default_config start_time
       "2026-11-03T10:00:00"
       (set_resume_state_file (FileOk resume_file_example) (blank [] [])))
  = None
  ∧ is_Some
      (get_resume_state "video" "new"
         (load_resume_state iso_instant default_config start_time
            "2026-11-03T10:00:00"
            (set_resume_state_file (FileOk resume_file_example) (blank [] [])))).
Proof.
  split; [|vm_compute; eauto].
  refine (proj1 (proj2 (entries_without_timestamp_purged iso_instant
            default_config start_time "2026-11-03T10:00:00"
            (set_resume_state_file (FileOk resume_file_example) (blank [] []))
            resume_file_example year_2000 _ _ _ _ _ _))
            "old" entry_without_timestamp _ eq_refl).
  - reflexivity.
  - refine (bool_decide_unpack _ _). vm_compute. exact I.
  - constructor.
  - vm_compute. reflexivity.
  - vm_compute. reflexivity.
  - intros k e ts Hin Hts. cbn in Hin.
    apply elem_of_cons in Hin as [[= -> ->]|Hin]; [done|].
    apply list_elem_of_singleton in Hin as [= -> ->].
    injection Hts as <-. vm_compute. eauto.
  - left.
Defined.

(** ** Progress parser *)

Lemma str_app_cons (x : ascii) (a b : string) :
  String x a +:+ b = String x (a +:+ b).
Proof. reflexivity. Qed.

Lemma str_app_nil_l (a : string) : "" +:+ a = a.
Proof. reflexivity. Qed.


Lemma str_app_nil_r (a : string) : a +:+ "" = a.
Proof. induction a as [|x a IH]; [done|]. by rewrite str_app_cons, IH. Qed.

Lemma str_length_app (a b : string) :
  String.length (a +:+ b) = (String.length a + String.length b)%nat.
Proof.
  induction a as [|x a IH]; [done|]. rewrite str_app_cons. cbn. by rewrite IH.
Qed.



Section MatcherFacts.
Context {A : Type} (cls : char_classes).


End MatcherFacts.


Lemma den_digits1 cls w g : den cls digits1 w g → g = [] ∧ digit_string cls w.
Proof.
  unfold digits1. intros H. den_inv. split; [done|]. split; [done|].
  intros ->. cbn in *. lia.
Qed.

Lemma den_word1 cls w g :
  den cls (RMany CWord 1) w g →
  g = [] ∧ str_forall (cls_word cls) w = true ∧ w ≠ "".
Proof.
  intros H. den_inv. split_and!; [done..|]. intros ->. cbn in *. lia.
Qed.


Lemma den_eta cls w g :
  den cls (RAlt (digits1 ⋅ RChars ":" ⋅ digits1) digits1) w g →
  g = [] ∧ well_formed_eta cls w.
Proof.
  intros H. inversion H as [| | | | |? ? ? ? Hl|? ? ? ? Hr|]; subst; clear H.
  - inversion Hl as [| | | |? ? m rest gm grest Hm Hrest| | |]; subst; clear Hl.
    inversion Hrest as [| | | |? ? colon s gc gs Hc Hs| | |]; subst; clear Hrest.
    inversion Hc; subst; clear Hc.
    apply den_digits1 in Hm as [-> Hm]. apply den_digits1 in Hs as [-> Hs].
    split; [done|]. right. by exists m, s.
  - apply den_digits1 in Hr as [-> Hr]. split; [done|]. by left.
Qed.




(** *** The result depends on the classes at the characters of the line
    only *)




Section MatcherAgreement.
Context {A : Type}.


End MatcherAgreement.






(** The classes are read as given: a line with a no-break space for a
    blank is a download event when the class [\s] holds it, and none when
    the class is the ASCII one. *)
Example parse_progress_reads_the_classes :
  parse_progress with_no_break_space no_break_space_line
  = Some (PDownload "45.3" "10.00MiB" "1.20MiB/s" "00:05")
  ∧ parse_progress ascii_classes no_break_space_line = None.
Proof. vm_compute. done. Qed.

(** One line of each of the five shapes, and a line of none. *)
Example parse_progress_shapes :
  parse_progress ascii_classes
    "[download]  45.3% of ~ 10.00MiB at  1.20MiB/s ETA 00:05"
  = Some (PDownload "45.3" "10.00MiB" "1.20MiB/s" "00:05")
  ∧ parse_progress ascii_classes "[download] Destination: talk.mp4"
    = Some PStarting
  ∧ parse_progress ascii_classes "[ExtractAudio] Destination: talk.mp3"
    = Some (PExtract "talk.mp3")
  ∧ parse_progress ascii_classes "[FFmpeg] Converting video from webm to mp4"
    = Some PConverting
  ∧ parse_progress ascii_classes "[download] Downloading item 3 of 12"
    = Some (PPlaylistProgress "3" "12")
  ∧ parse_progress ascii_classes "[info] Writing video metadata" = None.
Proof. vm_compute. done. Qed.

(** ** History store: the cap of a thousand entries *)

Lemma history_limit_eq : history_limit = 1000%nat.
Proof. reflexivity. Qed.

(** A commit keeps a list of ids within the limit. *)
Lemma ids_after_commit_bounded id ids :
  (length ids ≤ history_limit)%nat →
  (length (ids_after_commit id ids) ≤ history_limit)%nat.
Proof.
  intros H. unfold ids_after_commit. case_bool_decide; [done|].
  destruct (history_limit <? length (ids ++ [id]))%nat eqn:E.
  - unfold last_n. rewrite length_drop. lia.
  - by apply Nat.ltb_ge in E.
Qed.

Lemma update_bounded now_iso handle v st :
  (∀ source, (length (history_ids st source) ≤ history_limit)%nat) →
  ∀ source,
    (length (history_ids (update_channel_history now_iso handle v st) source)
     ≤ history_limit)%nat.
Proof.
  intros H source. rewrite history_ids_update.
  case_bool_decide; [apply ids_after_commit_bounded|]; apply H.
Qed.

Lemma commit_bounded now_iso t video_id st :
  (∀ source, (length (history_ids st source) ≤ history_limit)%nat) →
  ∀ source,
    (length (history_ids (commit now_iso t video_id st) source)
     ≤ history_limit)%nat.
Proof.
  intros H source. destruct t as [[v name] ty]. unfold commit.
  destruct (String.eqb ty "channel").
  { destruct (key_of_name (channels st) name) as [handle|]; [|apply H].
    apply (update_bounded now_iso handle v st H source). }
  destruct (String.eqb ty "playlist"); [|apply H].
  destruct (key_of_name (playlists st) name) as [url|]; [|apply H].
  apply (update_bounded now_iso url v st H source).
Qed.

Lemma pool_bounded tasks schedule st :
  (∀ source, (length (history_ids st source) ≤ history_limit)%nat) →
  ∀ source,
    (length (history_ids
               (pr_state (download_videos_parallel tasks schedule st)) source)
     ≤ history_limit)%nat.
Proof.
  revert st. induction schedule as [|[i je] schedule IH]; intros st H; [done|].
  cbn [download_videos_parallel].
  destruct (tasks !! i) as [[[v name] ty]|] eqn:Hi; [|by apply IH].
  pose proof (download_video_frame v name je st) as (Hh & _).
  destruct (download_video v name je st) as [[[success vid] st1] invs].
  cbn [fst snd] in Hh. cbn [pr_state]. apply IH. intros source.
  assert (∀ s, (length (history_ids st1 s) ≤ history_limit)%nat) as H1.
  { intros s. rewrite (history_ids_frame st st1 s Hh). apply H. }
  destruct success; [by apply commit_bounded | apply H1].
Qed.

(** Property X1. A history that holds at most [history_limit] ids per
    source still does after any sequence of [update_channel_history] calls
    and after a pass of [download_videos_parallel] over any tasks: the
    store keeps no more than the last thousand ids of a source. *)
Theorem history_stays_within_limit (cs : list (string * string * video_info))
    (tasks : list task) (schedule : list (nat * job_env)) (st : downloader) :
  (∀ source, (length (history_ids st source) ≤ history_limit)%nat) →
  ∀ source,
    (length (history_ids (commits cs st) source) ≤ history_limit)%nat
    ∧ (length (history_ids
                 (pr_state (download_videos_parallel tasks schedule st)) source)
       ≤ history_limit)%nat.
Proof.
  intros H source. split; [|by apply pool_bounded].
  revert st H. unfold commits.
  induction cs as [|[[now_iso handle] v] cs IH]; intros st H; cbn; [done|].
  apply IH. by apply update_bounded.
Qed.

Lemma history_stays_within_limit_witness :
  (length
     (history_ids
        (commits [("t1", "chan", item "v1" 100); ("t2", "chan", item "v2" 100)]
                 (blank [] [])) "chan") ≤ history_limit)%nat
  ∧ (length
       (history_ids
          (pr_state (download_videos_parallel [] [] (blank [] []))) "chan")
     ≤ history_limit)%nat.
Proof.
  apply (history_stays_within_limit
           [("t1", "chan", item "v1" 100); ("t2", "chan", item "v2" 100)]
           [] [] (blank [] [])).
  intros source. rewrite history_limit_eq.
  unfold history_ids, history_channels. cbn. rewrite lookup_empty. cbn. lia.
Defined.

(** Property X2. When a source's history is full and a new id is
    committed, the oldest entry is the one dropped: the ids move up by one
    place and the new id comes last (lines 383-385 keep the last thousand). *)
Theorem full_history_evicts_oldest (now_iso handle : string) (v : video_info)
    (st : downloader) (oldest : string) (rest : list string) :
  history_ids st handle = oldest :: rest →
  length (oldest :: rest) = history_limit →
  vi_id v ∉ oldest :: rest →
  history_ids (update_channel_history now_iso handle v st) handle
  = rest ++ [vi_id v].
Proof.
  intros Hids Hlen Hnew. rewrite history_ids_update.
  rewrite (bool_decide_eq_true_2 (handle = handle)) by done.
  unfold ids_after_commit. rewrite Hids.
  rewrite (bool_decide_eq_false_2 _ Hnew).
  assert ((history_limit <? length ((oldest :: rest) ++ [vi_id v]))%nat = true)
    as ->.
  { apply Nat.ltb_lt. rewrite length_app, Hlen. cbn. lia. }
  unfold last_n. rewrite length_app, Hlen. cbn [length].
  replace (history_limit + 1 - history_limit)%nat with 1%nat by lia.
  reflexivity.
Qed.

Lemma full_history_evicts_oldest_witness :
  head (history_ids full_store "A") = Some "000"
  ∧ length (history_ids full_store "A") = history_limit
  ∧ head (history_ids
            (update_channel_history "t" "A" (item "new" 100) full_store) "A")
    = Some "001"
  ∧ last (history_ids
            (update_channel_history "t" "A" (item "new" 100) full_store) "A")
    = Some "new".
Proof.
  assert (∃ rest, history_ids full_store "A" = "000" :: rest) as [rest Hrest].
  { eexists. vm_compute. reflexivity. }
  assert (length ("000" :: rest) = history_limit) as Hlen.
  { rewrite <- Hrest. vm_compute. reflexivity. }
  assert ("new" ∉ "000" :: rest) as Hnew.
  { rewrite <- Hrest. refine (bool_decide_unpack _ _). vm_compute. exact I. }
  rewrite (full_history_evicts_oldest "t" "A" (item "new" 100) full_store
             "000" rest Hrest Hlen Hnew).
  rewrite Hrest. split; [done|]. split; [done|].
  split; [|by rewrite last_snoc].
  revert Hrest. vm_compute. intros [= <-]. reflexivity.
Defined.

(** The item of a commit is in the history of its source afterwards. *)
Lemma update_then_downloaded now_iso handle v st :
  is_video_downloaded handle (vi_id v)
    (update_channel_history now_iso handle v st) = true.
Proof.
  apply is_video_downloaded_ids. rewrite history_ids_update.
  rewrite (bool_decide_eq_true_2 (handle = handle)) by done.
  unfold ids_after_commit. case_bool_decide as Hin; [done|].
  destruct (history_limit <? _)%nat eqn:E.
  - unfold last_n. rewrite length_app. cbn [length].
    rewrite drop_app_le by (rewrite history_limit_eq; lia).
    apply elem_of_app. right. by apply list_elem_of_singleton.
  - apply elem_of_app. right. by apply list_elem_of_singleton.
Qed.

(** Property X3. Right after [update_channel_history] the item is found by
    [is_video_downloaded] under the source it was committed to, whatever
    the store held before; the histories of all other sources, and the
    answers of [is_video_downloaded] for them, are unchanged. *)
Theorem committed_item_is_downloaded (now_iso handle : string) (v : video_info)
    (st : downloader) :
  let st' := update_channel_history now_iso handle v st in
  is_video_downloaded handle (vi_id v) st' = true
  ∧ (∀ source, source ≠ handle →
       history_ids st' source = history_ids st source)
  ∧ (∀ source id, source ≠ handle →
       is_video_downloaded source id st' = is_video_downloaded source id st).
Proof.
  cbn zeta. split_and!.
  - apply update_then_downloaded.
  - intros source Hne. rewrite history_ids_update.
    by rewrite (bool_decide_eq_false_2 (source = handle)).
  - intros source id Hne.
    apply eq_true_iff_eq. rewrite !is_video_downloaded_ids.
    rewrite history_ids_update.
    by rewrite (bool_decide_eq_false_2 (source = handle)).
Qed.

(** ** History store: every change is written through *)

Lemma save_persisted now_iso st : history_persisted (save_channel_history now_iso st).
Proof. reflexivity. Qed.

(** A commit of an id that is already listed changes nothing; any other
    commit saves. *)
Lemma update_persisted now_iso handle v st :
  history_persisted st →
  history_persisted (update_channel_history now_iso handle v st).
Proof.
  intros Hp. unfold update_channel_history.
  destruct (bool_decide _) eqn:Hin; [|apply save_persisted].
  apply bool_decide_eq_true in Hin.
  unfold history_persisted in *. cbn. rewrite Hp. f_equal.
  destruct (channel_history st) as [chans lu fr]. cbn in *.
  destruct chans as [chans|]; cbn in *.
  - destruct (chans !! handle) as [e|] eqn:He; cbn in *.
    + by rewrite insert_id.
    + by apply elem_of_nil in Hin.
  - rewrite lookup_empty in Hin. cbn in Hin. by apply elem_of_nil in Hin.
Qed.

Lemma persisted_frame st st' :
  channel_history st' = channel_history st →
  channel_history_file st' = channel_history_file st →
  history_persisted st → history_persisted st'.
Proof. unfold history_persisted. by intros -> ->. Qed.

Lemma commit_persisted now_iso t video_id st :
  history_persisted st → history_persisted (commit now_iso t video_id st).
Proof.
  intros Hp. destruct t as [[v name] ty]. unfold commit.
  assert (∀ key d, history_persisted
            (set_download_history d (update_channel_history now_iso key v st)))
    as Hupd.
  { intros key d. apply (update_persisted now_iso key v st Hp). }
  destruct (String.eqb ty "channel").
  { destruct (key_of_name (channels st) name); [apply Hupd | done]. }
  destruct (String.eqb ty "playlist"); [|done].
  destruct (key_of_name (playlists st) name); [apply Hupd | done].
Qed.

Lemma download_video_persisted v source_name je st :
  history_persisted st →
  history_persisted (snd (fst (download_video v source_name je st))).
Proof.
  intros Hp. pose proof (download_video_frame v source_name je st) as (H1 & H2 & _).
  by apply (persisted_frame st).
Qed.

Lemma pool_persisted tasks schedule st :
  history_persisted st →
  history_persisted (pr_state (download_videos_parallel tasks schedule st)).
Proof.
  revert st. induction schedule as [|[i je] schedule IH]; intros st Hp; [done|].
  cbn [download_videos_parallel].
  destruct (tasks !! i) as [[[v name] ty]|]; [|by apply IH].
  pose proof (download_video_persisted v name je st Hp) as Hp1.
  destruct (download_video v name je st) as [[[success vid] st1] invs].
  cbn [fst snd] in Hp1. cbn [pr_state]. apply IH.
  destruct success; [by apply commit_persisted | done].
Qed.

Lemma pass_persisted cfg env st r :
  history_persisted st → run_auto_download cfg env st = Some r →
  history_persisted (pr_state r).
Proof.
  intros Hp. unfold run_auto_download.
  destruct (plan_pass cfg env st) as [tasks|]; [|done]. cbn.
  intros [= <-]. apply pool_persisted.
  destruct (is_first_run st); [|done]. apply save_persisted.
Qed.

Lemma load_channel_history_persisted now_iso st :
  history_persisted (load_channel_history now_iso st).
Proof.
  unfold load_channel_history.
  destruct (channel_history_file st) eqn:Hf; try apply save_persisted.
  unfold history_persisted. cbn. exact Hf.
Qed.

Lemma restart_persisted fromisoformat cfg now now_iso st :
  history_persisted (restart fromisoformat cfg now now_iso st).
Proof. apply load_channel_history_persisted. Qed.

(** Loading the resume store leaves the history file alone. *)
Lemma load_resume_state_history_file fromisoformat cfg now now_iso st :
  channel_history_file (load_resume_state fromisoformat cfg now now_iso st)
  = channel_history_file st.
Proof.
  unfold load_resume_state.
  destruct (resume_state_file st); try reflexivity.
  unfold cleanup_old_resume_entries.
  destruct (sweep _ _ _ _ _) as [[videos cleaned] finished].
  destruct finished; [|reflexivity].
  destruct (sweep _ _ _ _ _) as [[pls cleaned'] finished'].
  destruct (finished' && _); reflexivity.
Qed.

(** A new process reads back the history the file holds. *)
Lemma restart_recovers fromisoformat cfg now now_iso st :
  history_persisted st →
  channel_history (restart fromisoformat cfg now now_iso st)
  = channel_history st.
Proof.
  intros Hp. unfold restart, init, load_channel_history.
  rewrite load_resume_state_history_file. cbn.
  unfold history_persisted in Hp. rewrite Hp. reflexivity.
Qed.

Lemma apply_op_persisted fromisoformat st o :
  history_persisted st → history_persisted (apply_op fromisoformat st o).
Proof.
  intros Hp. destruct o as [cfg env|now_iso handle v|v name je|cfg now now_iso];
    cbn [apply_op].
  - destruct (run_auto_download cfg env st) as [r|] eqn:Hr; [|done].
    by eapply pass_persisted.
  - by apply update_persisted.
  - by apply download_video_persisted.
  - apply restart_persisted.
Qed.

(** Property X4. Once the history file holds the history in memory, it
    does so after every sequence of passes, commits, jobs and restarts, and
    a new process started over the files finds the same history: no commit
    is ever held in memory only. *)
Theorem history_written_through (fromisoformat : string → option Z)
    (ops : list op) (cfg : Config) (now : Z) (now_iso : string)
    (st : downloader) :
  history_persisted st →
  let st' := fold_left (apply_op fromisoformat) ops st in
  history_persisted st'
  ∧ channel_history (restart fromisoformat cfg now now_iso st')
    = channel_history st'
  ∧ ∀ source,
      history_ids (restart fromisoformat cfg now now_iso st') source
      = history_ids st' source.
Proof.
  intros Hp. cbn zeta.
  assert (history_persisted (fold_left (apply_op fromisoformat) ops st)) as Hp'.
  { revert st Hp. induction ops as [|o ops IH]; intros st Hp; [done|].
    cbn [fold_left]. apply IH. by apply apply_op_persisted. }
  split; [done|]. split; [by apply restart_recovers|].
  intros source. apply history_ids_frame. by apply restart_recovers.
Qed.

Lemma history_written_through_witness :
  history_persisted (fresh_start [("A", "Channel A")] [])
  ∧ history_ids
      (restart iso_instant default_config (start_time + 3600000000)
         "2026-11-03T11:00:00"
         (fold_left (apply_op iso_instant)
            [OpPass default_config
                    (pass_env [item "v1" 100; item "v2" 100] (Exited 0 []))]
            (fresh_start [("A", "Channel A")] []))) "A"
    = ["v1"; "v2"].
Proof.
  split; [reflexivity|].
  rewrite (proj2 (proj2 (history_written_through iso_instant
             [OpPass default_config
                     (pass_env [item "v1" 100; item "v2" 100] (Exited 0 []))]
             default_config (start_time + 3600000000) "2026-11-03T11:00:00"
             (fresh_start [("A", "Channel A")] []) eq_refl))).
  vm_compute. reflexivity.
Defined.

(** ** Sync planner: the counters *)

Lemma count_partition {A} (f g h : A → bool) (l : list A) :
  (∀ x, (if f x then 1 else 0) + (if g x then 1 else 0)
        + (if h x then 1 else 0) = 1)%nat →
  (count f l + count g l + count h l = length l)%nat.
Proof.
  intros H. unfold count. induction l as [|x l IH]; [done|].
  cbn. specialize (H x).
  destruct (f x), (g x), (h x); cbn in *; lia.
Qed.

Lemma filter_sublist {A} (f : A → bool) (l : list A) :
  List.filter f l `sublist_of` l.
Proof.
  induction l as [|x l IH]; [done|]. cbn.
  destruct (f x); [by apply sublist_skip | by apply sublist_cons].
Qed.

(** Property X5. The loop of [process_channel_auto] and
    [process_playlist_auto] puts every scanned item in exactly one of its
    three counters, so that they add up to the length of the scan;
    [new_videos_count] is the number of tasks; the tasks list their items
    in the order of the scan, each with the source name and type of the
    planner. *)
Theorem planner_counts_partition_scan (cfg : Config) (st : downloader)
    (key source_name task_type : string) (scan : list video_info) :
  let p := plan_loop cfg st key source_name task_type scan in
  (new_videos_count p + already_downloaded_count p + shorts_skipped p
   = length scan)%nat
  ∧ new_videos_count p = length (download_tasks p)
  ∧ map task_video (download_tasks p) `sublist_of` scan
  ∧ ∀ t, t ∈ download_tasks p →
      snd (fst t) = source_name ∧ snd t = task_type.
Proof.
  cbn zeta. rewrite plan_loop_spec. cbn.
  split_and!.
  - apply count_partition. intros v.
    unfold fetchable, counted_downloaded.
    destruct (skipped_as_short cfg v), (is_video_downloaded key (vi_id v) st);
      reflexivity.
  - unfold count. by rewrite length_map.
  - rewrite map_map. cbn. rewrite map_id. apply filter_sublist.
  - intros t Ht. apply list_elem_of_In, in_map_iff in Ht as (v & <- & _). done.
Qed.

(** ** Download jobs: the runs of the tool *)

(** Property X6. The runs of the tool a job makes: all for the item's URL
    and with the same resume flag, which is set when the progress found on
    disk is below 100 and either a partial file or an entry of the resume
    store exists; one run, or two when subtitles were requested and the
    first run failed with a message that mentions subtitles or 429, the
    second without subtitles; the job's result is that of its last run. *)
Theorem job_invocations (v : video_info) (source_name : string) (je : job_env)
    (st : downloader) :
  let success := fst (fst (fst (download_video v source_name je st))) in
  let invs := snd (download_video v source_name je st) in
  let first := _execute_download v (je_first je) in
  let retried :=
    je_has_subtitles je && negb (fst (fst first))
    && blames_subtitles (snd first) in
  (∀ i, i ∈ invs → inv_url i = vi_url v ∧ inv_resume i = job_resumes je v st)
  ∧ map inv_skip_subs invs
    = (if retried then [false; true] else [negb (je_has_subtitles je)])
  ∧ success
    = (if retried then fst (fst (_execute_download v (je_retry je)))
       else fst (fst first))
  ∧ (je_has_subtitles je = false → length invs = 1%nat).
Proof.
  cbn zeta. unfold download_video, job_resumes, blames_subtitles.
  destruct (je_existing je) as [can_resume progress]. cbn [fst snd].
  set (resume := if can_resume && (progress <? 100) then true
                 else if bool_decide (is_Some (get_resume_state "video" (vi_id v) st))
                         && (progress <? 100) then true else false).
  assert (resume = (progress <? 100)
                   && (can_resume
                       || bool_decide (is_Some (get_resume_state "video" (vi_id v) st))))
    as Hres.
  { unfold resume. destruct can_resume, (progress <? 100), (bool_decide _); done. }
  rewrite <- Hres. clear Hres. generalize resume as b. intros b.
  destruct (je_has_subtitles je); cbn [andb negb].
  - destruct (_execute_download v (je_first je)) as [[s1 vid1] msg1].
    cbn [fst snd].
    destruct (negb s1 && _) eqn:Hretry.
    + destruct (_execute_download v (je_retry je)) as [[s2 vid2] msg2].
      cbn [fst snd].
      destruct s2; cbn [fst snd];
        (split_and!; [|done|done|done]);
        intros i [->| ->%list_elem_of_singleton]%elem_of_cons; done.
    + destruct s1; cbn [fst snd];
        (split_and!; [|done|done|done]);
        intros i ->%list_elem_of_singleton; done.
  - destruct (_execute_download v (je_first je)) as [[s1 vid1] msg1].
    cbn [fst snd].
    destruct s1; cbn [fst snd];
      (split_and!; [|done|done|done]);
      intros i ->%list_elem_of_singleton; done.
Qed.

(** A job runs the tool once or twice. *)
Lemma download_video_invs_length v source_name je st :
  (1 ≤ length (snd (download_video v source_name je st)) ≤ 2)%nat.
Proof.
  unfold download_video.
  destruct (je_existing je) as [can_resume progress].
  destruct (_execute_download v (je_first je)) as [[s1 vid1] msg1].
  destruct (_execute_download v (je_retry je)) as [[s2 vid2] msg2].
  destruct (je_has_subtitles je), s1, s2; cbn [negb andb];
    repeat match goal with
      | |- context [if ?b then _ else _] => destruct b
      end;
    cbn; lia.
Qed.

(** Property X7. The accounting of [download_videos_parallel]: it counts
    at most one success for each completed job, and the tool runs at least
    once for each success and at most twice for each job; a source's
    history grows by no more than the number of successes. *)
Theorem pool_accounting (tasks : list task) (schedule : list (nat * job_env))
    (st : downloader) :
  let r := download_videos_parallel tasks schedule st in
  (successful_downloads r ≤ length schedule)%nat
  ∧ (successful_downloads r ≤ length (pr_invocations r))%nat
  ∧ (length (pr_invocations r) ≤ 2 * length schedule)%nat
  ∧ ∀ source,
      (length (history_ids (pr_state r) source)
       ≤ length (history_ids st source) + successful_downloads r)%nat.
Proof.
  cbn zeta. revert st.
  induction schedule as [|[i je] schedule IH]; intros st.
  { cbn. split_and!; intros; lia. }
  cbn [download_videos_parallel].
  destruct (tasks !! i) as [[[v name] ty]|].
  2:{ destruct (IH st) as (H1 & H2 & H3 & H4). cbn [length].
      split_and!; [lia|lia|lia|exact H4]. }
  pose proof (download_video_frame v name je st) as (Hh & _).
  pose proof (download_video_invs_length v name je st) as Hlen.
  destruct (download_video v name je st) as [[[success vid] st1] invs].
  cbn [fst snd] in Hh, Hlen.
  cbn [pr_state successful_downloads pr_invocations length].
  rewrite length_app.
  set (st2 := if success then commit (je_now_iso je) (v, name, ty) vid st1
              else st1).
  destruct (IH st2) as (H1 & H2 & H3 & H4).
  split_and!; [destruct success; cbn [Nat.add]; lia..|].
  intros source. specialize (H4 source).
  assert (length (history_ids st2 source)
          ≤ length (history_ids st source) + (if success then 1 else 0))%nat.
  { unfold st2. rewrite <- (history_ids_frame st st1 source Hh).
    destruct success; [|lia].
    pose proof (commit_length (je_now_iso je) (v, name, ty) vid st1 source).
    lia. }
  destruct success; lia.
Qed.

(** ** Resume store: what a restart keeps *)

(** Looking a key up in a filtered dictionary. *)
Lemma dict_get_filter {V} (f : string * V → bool) (d : list (string * V)) k :
  dict_wf d →
  dict_get k (List.filter f d)
  = match dict_get k d with
    | Some v => if f (k, v) then Some v else None
    | None => None
    end.
Proof.
  induction d as [|[k' v'] d IH]; intros Hwf; [done|].
  apply NoDup_cons in Hwf as [Hk' Hwf]. specialize (IH Hwf).
  cbn [List.filter dict_get].
  destruct (String.eqb_spec k' k) as [->|Hne].
  - destruct (f (k, v')) eqn:Hf; cbn [dict_get].
    + by rewrite String.eqb_refl.
    + rewrite IH. by rewrite (dict_get_None d k Hk').
  - destruct (f (k', v')); cbn [dict_get]; [|done].
    destruct (String.eqb_spec k' k); [done|]. exact IH.
Qed.

(** The resume store of a new process is the one [load_resume_state]
    builds from the file. *)
Lemma restart_resume_state fromisoformat cfg now now_iso st :
  resume_state (restart fromisoformat cfg now now_iso st)
  = resume_state
      (load_resume_state fromisoformat cfg now now_iso
         (set_resume_state
            {| rs_videos := []; rs_playlists := []; rs_last_cleanup := "" |}
            (set_channel_history
               {| ch_channels := None; ch_last_updated := None;
                  ch_first_run_completed := None |} st))).
Proof.
  unfold restart, init, load_channel_history.
  match goal with |- context [channel_history_file ?s] =>
    destruct (channel_history_file s) end; reflexivity.
Qed.

(** Property X8. A new process started over a resume file whose
    timestamps all read returns exactly the entries that are not older
    than [resume_cache_days]: an entry of either kind is found after the
    restart when its time is at or after the cutoff, and is gone
    otherwise. *)
Theorem restart_keeps_recent_entries (fromisoformat : string → option Z)
    (cfg : Config) (now : Z) (now_iso : string) (st : downloader) :
  resume_persisted st →
  dict_wf (rs_videos (resume_state st)) →
  dict_wf (rs_playlists (resume_state st)) →
  readable fromisoformat (rs_videos (resume_state st)) →
  readable fromisoformat (rs_playlists (resume_state st)) →
  let cutoff_time := now - resume_cache_days cfg * microseconds_per_day in
  let st' := restart fromisoformat cfg now now_iso st in
  ∀ item_type item_id,
    get_resume_state item_type item_id st'
    = match get_resume_state item_type item_id st with
      | Some e =>
          if kept fromisoformat cutoff_time (item_id, e) then Some e else None
      | None => None
      end.
Proof.
  intros Hp Hwv Hwp Hrv Hrp cutoff_time st' item_type item_id.
  unfold st', get_resume_state. rewrite restart_resume_state.
  match goal with |- context [load_resume_state _ _ _ _ ?s] => set (st0 := s) end.
  destruct (load_resume_state_filters fromisoformat cfg now now_iso st0
              (resume_state st) Hp Hwv Hwp Hrv Hrp) as [Hv Hpl].
  rewrite Hv, Hpl. fold cutoff_time.
  destruct (String.eqb item_type "video"); [by apply dict_get_filter|].
  destruct (String.eqb item_type "playlist"); [by apply dict_get_filter|done].
Qed.

Lemma restart_keeps_recent_entries_witness :
  re_progress
    <$> get_resume_state "video" "v1"
          (restart iso_instant default_config start_time
             "2026-11-03T10:00:00" store_with_entry)
  = Some 50
  ∧ get_resume_state "video" "v1"
      (restart iso_instant default_config
         (start_time + 30 * microseconds_per_day) "2026-12-03T10:00:00"
         store_with_entry)
    = None.
Proof.
  assert (resume_persisted store_with_entry) as Hp by reflexivity.
  assert (dict_wf (rs_videos (resume_state store_with_entry))) as Hwv.
  { vm_compute. apply NoDup_singleton. }
  assert (dict_wf (rs_playlists (resume_state store_with_entry))) as Hwp.
  { vm_compute. apply NoDup_nil_2. }
  assert (readable iso_instant (rs_videos (resume_state store_with_entry)))
    as Hrv.
  { intros k e Hin. apply list_elem_of_In in Hin. vm_compute in Hin.
    destruct Hin as [[= <- <-]|[]]. vm_compute. eauto. }
  assert (readable iso_instant (rs_playlists (resume_state store_with_entry)))
    as Hrp.
  { intros k e Hin. apply list_elem_of_In in Hin. vm_compute in Hin. done. }
  split.
  - rewrite (restart_keeps_recent_entries iso_instant default_config start_time
               "2026-11-03T10:00:00" store_with_entry Hp Hwv Hwp Hrv Hrp).
    vm_compute. reflexivity.
  - rewrite (restart_keeps_recent_entries iso_instant default_config
               (start_time + 30 * microseconds_per_day) "2026-12-03T10:00:00"
               store_with_entry Hp Hwv Hwp Hrv Hrp).
    vm_compute. reflexivity.
Defined.

(** [_execute_download] hands the item's id back. *)
Lemma execute_download_id v o :
  snd (fst (_execute_download v o)) = vi_id v.
Proof.
  destruct o as [rc lines| |msg]; cbn; [|done|done].
  destruct (rc =? 0); [|done]. by destruct (existsb _ _).
Qed.

(** Property X9. A job reads, writes and clears only the resume entry of
    its own item: the entries of other videos, and all playlist entries,
    are after the job what they were before it, whether it succeeds or
    fails. *)
Theorem job_leaves_other_entries (v : video_info) (source_name : string)
    (je : job_env) (st : downloader) (item_type item_id : string) :
  (item_type, item_id) ≠ ("video", vi_id v) →
  get_resume_state item_type item_id
    (snd (fst (download_video v source_name je st)))
  = get_resume_state item_type item_id st.
Proof.
  intros Hne.
  assert (∀ now_iso data s,
            get_resume_state item_type item_id
              (update_resume_state now_iso "video" (vi_id v) data s)
            = get_resume_state item_type item_id s) as Hupd.
  { intros now_iso data s. unfold get_resume_state, update_resume_state. cbn.
    destruct (String.eqb_spec item_type "video") as [->|_]; [|done].
    apply dict_get_set_ne. congruence. }
  assert (∀ s,
            get_resume_state item_type item_id
              (clear_resume_state "video" (vi_id v) s)
            = get_resume_state item_type item_id s) as Hclr.
  { intros s. unfold get_resume_state, clear_resume_state. cbn.
    destruct (bool_decide _); cbn; [|done].
    destruct (String.eqb_spec item_type "video") as [->|_]; [|done].
    apply dict_get_del_ne. congruence. }
  pose proof (execute_download_id v (je_first je)) as Hid1.
  pose proof (execute_download_id v (je_retry je)) as Hid2.
  unfold download_video.
  destruct (je_existing je) as [can_resume progress].
  destruct (_execute_download v (je_first je)) as [[s1 vid1] msg1].
  destruct (_execute_download v (je_retry je)) as [[s2 vid2] msg2].
  cbn [fst snd] in Hid1, Hid2. subst vid1 vid2.
  destruct can_resume, (progress <? 100), (bool_decide _),
    (je_has_subtitles je), s1, s2;
    cbn [andb negb orb fst snd];
    repeat match goal with
      | |- context [if ?b then _ else _] => destruct b
      end;
    cbn [fst snd]; rewrite ?Hclr, ?Hupd; reflexivity.
Qed.

Lemma job_leaves_other_entries_witness :
  get_resume_state "video" "v1"
    (snd (fst (download_video (item "v2" 100) "Channel A"
                 (plain_job (Exited 0 [])) store_with_entry)))
  = get_resume_state "video" "v1" store_with_entry.
Proof.
  apply (job_leaves_other_entries (item "v2" 100) "Channel A"
           (plain_job (Exited 0 [])) store_with_entry "video" "v1").
  intros [=].
Defined.

(** ** Duration cache: storing, saving and loading *)

Section DurationCacheRoundTrip.

Import DirectoryDurationCache.

Context {M D : Type} `{EqDecision M}.

Implicit Types (c : DirectoryDurationCache.t M D) (stat : stat_fn M).


End DurationCacheRoundTrip.

(** ** First run: the limit and the sources it records *)

(** With the limit 0 the first pass plans nothing. *)
Lemma first_run_tasks_none cfg env st :
  is_first_run st = true →
  get_initial_video_limit cfg (env_answers env) = Some 0 →
  plan_pass cfg env st = Some [].
Proof.
  intros Hfirst Hlimit. unfold plan_pass. rewrite Hfirst.
  assert ((if ask_initial_videos cfg
           then get_initial_video_limit cfg (env_answers env)
           else Some (initial_videos_per_channel cfg)) = Some 0) as ->.
  { destruct (ask_initial_videos cfg) eqn:Hask; [done|].
    destruct (env_answers env); cbn in Hlimit; by rewrite Hask in Hlimit. }
  cbn. f_equal.
  rewrite !flat_map_nil; [done| |]; by intros [k name] _.
Qed.

(** Property X11. A first run whose limit is 0 runs no job and changes no
    history, yet it completes the first run: the pass after it is a
    steady-state pass. *)
Theorem first_run_with_limit_zero (cfg : Config) (env : run_env)
    (st : downloader) :
  is_first_run st = true →
  get_initial_video_limit cfg (env_answers env) = Some 0 →
  ∃ r, run_auto_download cfg env st = Some r
       ∧ pr_invocations r = []
       ∧ successful_downloads r = 0%nat
       ∧ is_first_run (pr_state r) = false
       ∧ ∀ source, history_ids (pr_state r) source = history_ids st source.
Proof.
  intros Hfirst Hlimit. unfold run_auto_download.
  rewrite (first_run_tasks_none cfg env st Hfirst Hlimit). cbn.
  rewrite Hfirst, pool_no_tasks. eexists. split; [reflexivity|].
  cbn. split_and!; done.
Qed.

Lemma first_run_with_limit_zero_witness :
  ∃ r, run_auto_download default_config
         {| env_scan := fixed_scan [item "v1" 100];
            env_answers := [AnsInvalid; AnsNumber 500; AnsNumber 0];
            env_now_iso := "2026-11-03T10:00:00";
            env_schedule := in_order (plain_job (Exited 0 [])) |}
         (fresh_start [("A", "Channel A")] [])
       = Some r
       ∧ pr_invocations r = []
       ∧ successful_downloads r = 0%nat
       ∧ is_first_run (pr_state r) = false
       ∧ ∀ source,
           history_ids (pr_state r) source
           = history_ids (fresh_start [("A", "Channel A")] []) source.
Proof.
  apply (first_run_with_limit_zero default_config
           {| env_scan := fixed_scan [item "v1" 100];
              env_answers := [AnsInvalid; AnsNumber 500; AnsNumber 0];
              env_now_iso := "2026-11-03T10:00:00";
              env_schedule := in_order (plain_job (Exited 0 [])) |}
           (fresh_start [("A", "Channel A")] [])); reflexivity.
Defined.

(** The key found for a display name is a key of the dictionary. *)
Lemma key_of_name_elem (d : list (string * string)) name k :
  key_of_name d name = Some k → k ∈ map fst d.
Proof.
  unfold key_of_name. induction d as [|[k' n'] d IH]; [done|].
  rewrite filter_cons. cbn [snd].
  destruct (decide (Is_true (String.eqb n' name))).
  - cbn. intros [= ->]. apply elem_of_cons. by left.
  - intros H. apply elem_of_cons. right. by apply IH.
Qed.

(** A task of type ["channel"] is committed under a channel handle. *)
Lemma commit_channel_task_other now_iso v name video_id st source :
  source ∉ map fst (channels st) →
  history_ids (commit now_iso (v, name, "channel") video_id st) source
  = history_ids st source.
Proof.
  intros Hsrc. unfold commit. cbn [String.eqb Ascii.eqb Bool.eqb].
  destruct (key_of_name (channels st) name) as [handle|] eqn:Hk; [|done].
  apply key_of_name_elem in Hk.
  transitivity (history_ids (update_channel_history now_iso handle v st) source);
    [reflexivity|].
  rewrite history_ids_update.
  rewrite (bool_decide_eq_false_2 (source = handle)); [done|].
  by intros ->.
Qed.

Lemma pool_channel_tasks_other tasks schedule st source :
  (∀ t, t ∈ tasks → snd t = "channel") →
  source ∉ map fst (channels st) →
  history_ids (pr_state (download_videos_parallel tasks schedule st)) source
  = history_ids st source.
Proof.
  intros Hty. revert st.
  induction schedule as [|[i je] schedule IH]; intros st Hsrc; [done|].
  cbn [download_videos_parallel].
  destruct (tasks !! i) as [[[v name] ty]|] eqn:Hi; [|by apply IH].
  assert (ty = "channel") as ->.
  { apply (Hty (v, name, ty)). by eapply list_elem_of_lookup_2. }
  pose proof (download_video_frame v name je st) as (Hh & _ & Hc & _).
  destruct (download_video v name je st) as [[[success vid] st1] invs].
  cbn [fst snd] in Hh, Hc. cbn [pr_state].
  rewrite <- (history_ids_frame st st1 source Hh).
  destruct success.
  - rewrite IH.
    + apply commit_channel_task_other. by rewrite Hc.
    + destruct (commit_frame (je_now_iso je) (v, name, "channel") vid st1)
        as [-> _]. by rewrite Hc.
  - apply IH. by rewrite Hc.
Qed.

Lemma first_run_task_types env key name limit t :
  t ∈ process_channel_first_run env key name limit → snd t = "channel".
Proof.
  unfold process_channel_first_run. destruct (limit =? 0).
  - by intros ?%elem_of_nil.
  - by intros (v & -> & _)%list_elem_of_fmap.
Qed.

(** Property X12. Every task of a first run has the type ["channel"], also
    those planned for a configured playlist (lines 1962 and 1969 call
    [process_channel_first_run] for both), and a commit looks a
    ["channel"] task up among the channels: a first run changes the
    history of no source that is not a channel handle, so what it fetches
    for a playlist is not recorded under the playlist's URL. *)
Theorem first_run_records_only_channels (cfg : Config) (env : run_env)
    (st : downloader) (r : pool_result) (source : string) :
  is_first_run st = true →
  run_auto_download cfg env st = Some r →
  source ∉ map fst (channels st) →
  history_ids (pr_state r) source = history_ids st source
  ∧ ∀ tasks t, plan_pass cfg env st = Some tasks → t ∈ tasks →
      snd t = "channel".
Proof.
  intros Hfirst Hrun Hsrc.
  assert (∀ tasks t, plan_pass cfg env st = Some tasks → t ∈ tasks →
                     snd t = "channel") as Hty.
  { intros tasks t. unfold plan_pass. rewrite Hfirst.
    destruct (if ask_initial_videos cfg then _ else _) as [limit|]; [|done].
    cbn. intros [= <-] Hin.
    apply elem_of_app in Hin as [Hin|Hin];
      apply list_elem_of_In, in_flat_map in Hin as ([k name] & _ & Hin);
      apply list_elem_of_In in Hin; by eapply first_run_task_types. }
  split; [|exact Hty].
  unfold run_auto_download in Hrun.
  destruct (plan_pass cfg env st) as [tasks|] eqn:Hplan; [|done].
  cbn in Hrun. injection Hrun as <-. rewrite Hfirst.
  rewrite pool_channel_tasks_other; [done| |done].
  intros t Ht. by eapply Hty.
Qed.

Lemma first_run_records_only_channels_witness :
  ∃ r, run_auto_download default_config
         (pass_env [item "v1" 100] (Exited 0 []))
         (fresh_start [] [("https://www.youtube.com/playlist?list=PL1", "Mix")])
       = Some r
       ∧ successful_downloads r = 1%nat
       ∧ history_ids (pr_state r) "https://www.youtube.com/playlist?list=PL1"
         = [].
Proof.
  eexists. split; [vm_compute; reflexivity|]. split; [reflexivity|].
  refine (eq_trans
            (proj1 (first_run_records_only_channels default_config
              (pass_env [item "v1" 100] (Exited 0 []))
              (fresh_start [] [("https://www.youtube.com/playlist?list=PL1", "Mix")])
              _ "https://www.youtube.com/playlist?list=PL1" eq_refl _ _)) _).
  - vm_compute. reflexivity.
  - intros H. by apply elem_of_nil in H.
  - vm_compute. reflexivity.
Defined.

(** Property X13. The limit [get_initial_video_limit] returns is the
    configured default or a number the operator gave within 0 and
    [max_videos_per_channel]; with the prompt disabled it is the default
    whatever the input; it returns nothing only when the prompt is
    enabled and every answer before the end of the input was invalid or
    out of range. *)
Theorem initial_limit_in_range (cfg : Config) (answers : list answer) :
  (∀ limit, get_initial_video_limit cfg answers = Some limit →
     limit = initial_videos_per_channel cfg
     ∨ (ask_initial_videos cfg = true
        ∧ 0 ≤ limit ≤ max_videos_per_channel cfg
        ∧ AnsNumber limit ∈ answers))
  ∧ (ask_initial_videos cfg = false →
     get_initial_video_limit cfg answers
     = Some (initial_videos_per_channel cfg))
  ∧ (get_initial_video_limit cfg answers = None
     ↔ ask_initial_videos cfg = true
       ∧ ∀ a, a ∈ answers → rejected cfg a = true).
Proof.
  split_and!.
  - induction answers as [|a answers IH]; intros limit; cbn.
    { destruct (ask_initial_videos cfg); cbn; [done|]. intros [= <-]. by left. }
    destruct (ask_initial_videos cfg) eqn:Hask; cbn;
      [|intros [= <-]; by left].
    assert (∀ l, get_initial_video_limit cfg answers = Some l →
              l = initial_videos_per_channel cfg
              ∨ true = true ∧ 0 ≤ l ≤ max_videos_per_channel cfg
                ∧ AnsNumber l ∈ a :: answers) as IH'.
    { intros l Hl. destruct (IH l Hl) as [?|(_ & ? & ?)]; [by left|].
      right. split_and!; [done|lia|lia|]. apply elem_of_cons. by right. }
    destruct a as [|n|]; [intros [= <-]; by left| |apply IH'].
    destruct ((0 <=? n) && (n <=? max_videos_per_channel cfg)) eqn:Hr;
      [|apply IH'].
    intros [= <-]. right. apply andb_true_iff in Hr as [H0 H1].
    split_and!; [done|lia|lia|]. apply elem_of_cons. by left.
  - intros Hask. destruct answers; cbn; by rewrite Hask.
  - induction answers as [|a answers IH]; cbn.
    { destruct (ask_initial_videos cfg); cbn.
      - split; [intros _; split; [done|]; by intros a ?%elem_of_nil | done].
      - split; [done | by intros [[=] _]]. }
    destruct (ask_initial_videos cfg) eqn:Hask; cbn;
      [|split; [done | by intros [[=] _]]].
    assert (get_initial_video_limit cfg answers = None
            ↔ ∀ a', a' ∈ answers → rejected cfg a' = true) as IH'.
    { rewrite IH. split; [by intros [_ ?] | done]. }
    destruct a as [|n|].
    + split; [done|]. intros [_ H]. specialize (H AnsEmpty).
      cbn in H. discriminate H. apply elem_of_cons. by left.
    + destruct ((0 <=? n) && (n <=? max_videos_per_channel cfg)) eqn:Hr.
      * split; [done|]. intros [_ H]. specialize (H (AnsNumber n)).
        cbn in H. rewrite Hr in H. discriminate H. apply elem_of_cons. by left.
      * rewrite IH'. split.
        -- intros H. split; [done|]. intros a' [->|Hin]%elem_of_cons;
             [cbn; by rewrite Hr | by apply H].
        -- intros [_ H] a' Hin. apply H. apply elem_of_cons. by right.
    + rewrite IH'. split.
      * intros H. split; [done|]. intros a' [->|Hin]%elem_of_cons;
          [done | by apply H].
      * intros [_ H] a' Hin. apply H. apply elem_of_cons. by right.
Qed.

(** ** Sync planner: how far a channel is scanned *)

(** The number of items [process_channel_auto] asks the scanner for: the
    operator's reply when one is asked for and given (for a channel
    without history, or with [ask_video_limit_per_channel]); otherwise the
    larger of [gap_check_limit] and [max_videos_per_channel] for a channel
    with history, and [initial_videos_per_channel] for one without. *)
Lemma scan_depth_of_a_channel (cfg : Config) (env : scan_env)
    (st : downloader) (handle : string) :
  let known := bool_decide (is_Some (history_channels st !! handle)) in
  let asked := negb known || ask_video_limit_per_channel cfg in
  channel_check_limit cfg env st handle
  = match (if asked then limit_reply env handle else None) with
    | Some reply => reply
    | None =>
        if known
        then Z.max (gap_check_limit cfg) (max_videos_per_channel cfg)
        else initial_videos_per_channel cfg
    end.
Proof.
  cbn zeta. unfold channel_check_limit.
  assert ((if max_videos_per_channel cfg >? gap_check_limit cfg
           then max_videos_per_channel cfg else gap_check_limit cfg)
          = Z.max (gap_check_limit cfg) (max_videos_per_channel cfg)) as ->.
  { destruct (Z.gtb_spec (max_videos_per_channel cfg) (gap_check_limit cfg)); lia. }
  destruct (bool_decide _); cbn [negb orb].
  - destruct (ask_video_limit_per_channel cfg); [|done].
    by destruct (limit_reply env handle).
  - by destruct (limit_reply env handle).
Qed.

(** ** Durations as texts *)

(** The text of a decimal number holds digits only. *)
Lemma string_of_uint_digits (u : Decimal.uint) :
  str_forall is_digit (NilEmpty.string_of_uint u) = true.
Proof. induction u; cbn; done. Qed.

(** The text of a non-negative integer: digits, at least one, that write
    it. *)
Lemma str_of_int_nonneg (n : Z) :
  0 ≤ n →
  str_forall is_digit (str_of_int n) = true
  ∧ str_of_int n ≠ ""
  ∧ field_value (str_of_int n) = Some n.
Proof.
  intros Hn. unfold str_of_int.
  pose proof (DecimalZ.of_to n) as Hof.
  destruct n as [|p|p]; [| |lia]; cbn [Z.to_int NilEmpty.string_of_int] in *.
  { done. }
  assert (NilEmpty.string_of_uint (Pos.to_uint p) ≠ "") as Hne.
  { pose proof (DecimalPos.Unsigned.to_uint_nonnil p) as Hnil.
    destruct (Pos.to_uint p); cbn; done. }
  split; [apply string_of_uint_digits|]. split; [done|].
  unfold field_value.
  destruct (NilEmpty.string_of_uint (Pos.to_uint p)) eqn:Hs; [done|].
  rewrite <- Hs, NilEmpty.usu. cbn. f_equal. exact Hof.
Qed.

(** A field of a duration: digits that write the number, two of them
    below a hundred. *)
Lemma fmt_02d_nonneg (n : Z) :
  0 ≤ n →
  str_forall is_digit (fmt_02d n) = true
  ∧ field_value (fmt_02d n) = Some n
  ∧ (n < 100 → String.length (fmt_02d n) = 2%nat).
Proof.
  intros Hn. destruct (str_of_int_nonneg n Hn) as (Hd & Hne & Hv).
  unfold fmt_02d. destruct (String.length (str_of_int n) <? 2)%nat eqn:Hlen.
  - split_and!; [by cbn| |].
    + unfold field_value in *. destruct (str_of_int n) as [|a s]; [done|].
      cbn [NilEmpty.uint_of_string] in *.
      destruct (uint_of_char a (NilEmpty.uint_of_string s)) as [d|]; [|done].
      cbn in *. exact Hv.
    + intros _. apply Nat.ltb_lt in Hlen.
      destruct (str_of_int n) as [|a [|b s]]; cbn in *; [done|done|lia].
  - split_and!; [done..|].
    intros H100. apply Nat.ltb_ge in Hlen.
    assert (n < 10 ∨ 10 ≤ n < 100) as [H|H] by lia.
    + exfalso. assert (n ∈ (Z.of_nat <$> seq 0 10)) as Hin.
      { apply list_elem_of_fmap. exists (Z.to_nat n). split; [lia|].
        apply elem_of_seq. lia. }
      cbn in Hin. unfold fmt_02d in *.
      repeat (apply elem_of_cons in Hin as [->|Hin];
              [vm_compute in Hlen; lia|]).
      by apply elem_of_nil in Hin.
    + assert (n ∈ (Z.of_nat <$> seq 10 90)) as Hin.
      { apply list_elem_of_fmap. exists (Z.to_nat n). split; [lia|].
        apply elem_of_seq. lia. }
      cbn in Hin.
      repeat (apply elem_of_cons in Hin as [->|Hin]; [reflexivity|]).
      by apply elem_of_nil in Hin.
Qed.

(** Splitting at a separator that does not occur, or that occurs first
    after [a]. *)
Lemma str_split_none (sep : ascii) (a : string) :
  str_forall (λ c, negb (Ascii.eqb c sep)) a = true →
  str_split sep a = [a].
Proof.
  induction a as [|c a IH]; [done|]. cbn.
  intros [Hc Ha]%andb_true_iff. apply negb_true_iff in Hc. rewrite Hc.
  by rewrite (IH Ha).
Qed.

Lemma str_split_app (sep : ascii) (a b : string) :
  str_forall (λ c, negb (Ascii.eqb c sep)) a = true →
  str_split sep (a +:+ String sep b) = a :: str_split sep b.
Proof.
  induction a as [|c a IH].
  - intros _. rewrite str_app_nil_l. cbn. by rewrite Ascii.eqb_refl.
  - cbn [str_forall]. intros [Hc Ha]%andb_true_iff.
    apply negb_true_iff in Hc. rewrite str_app_cons. cbn [str_split].
    rewrite Hc. by rewrite (IH Ha).
Qed.

Lemma digits_no_colon (s : string) :
  str_forall is_digit s = true →
  str_forall (λ c, negb (Ascii.eqb c ":")) s = true.
Proof.
  induction s as [|c s IH]; [done|]. cbn.
  intros [Hc Hs]%andb_true_iff. rewrite (IH Hs), andb_true_r.
  apply negb_true_iff. destruct (Ascii.eqb_spec c ":") as [->|]; done.
Qed.

(** Property X14. The text [format_duration] gives for a non-negative
    number of seconds reads back as that number: as minutes and seconds
    below an hour (five characters), with the hours in front from an hour
    on; the text of a negative or missing duration is ["Unknown"], which
    reads back as no number. *)
Theorem format_duration_reads_back (seconds : Z) :
  (0 ≤ seconds →
   clock_seconds (format_duration (Some seconds)) = Some seconds)
  ∧ (0 ≤ seconds < 3600 →
     String.length (format_duration (Some seconds)) = 5%nat)
  ∧ (seconds < 0 → format_duration (Some seconds) = "Unknown")
  ∧ format_duration None = "Unknown"
  ∧ clock_seconds "Unknown" = None.
Proof.
  split_and!; [| | |done|done].
  - intros Hn. unfold format_duration.
    destruct (Z.ltb_spec seconds 0) as [|_]; [lia|].
    assert (0 ≤ seconds / 3600) as Hh by (apply Z.div_pos; lia).
    assert (0 ≤ seconds mod 3600 < 3600) as Hr by (apply Z.mod_pos_bound; lia).
    assert (0 ≤ seconds mod 3600 / 60) as Hm by (apply Z.div_pos; lia).
    assert (0 ≤ seconds mod 60 < 60) as Hs by (apply Z.mod_pos_bound; lia).
    destruct (fmt_02d_nonneg _ Hh) as (Hdh & Hvh & _).
    destruct (fmt_02d_nonneg _ Hm) as (Hdm & Hvm & _).
    destruct (fmt_02d_nonneg _ (proj1 Hs)) as (Hds & Hvs & _).
    apply digits_no_colon in Hdh, Hdm, Hds.
    assert (seconds = 3600 * (seconds / 3600) + 60 * (seconds mod 3600 / 60)
                      + seconds mod 60) as Heq.
    { pose proof (Z.div_mod seconds 3600 ltac:(lia)).
      pose proof (Z.div_mod (seconds mod 3600) 60 ltac:(lia)).
      assert ((seconds mod 3600) mod 60 = seconds mod 60) as <-; [|lia].
      apply Z.mod_mod_divide. by exists 60. }
    unfold clock_seconds.
    destruct (Z.gtb_spec (seconds / 3600) 0) as [Hpos|Hzero];
      rewrite !(str_app_cons ":" ""), !str_app_nil_l.
    + rewrite (str_split_app ":" _ _ Hdh), (str_split_app ":" _ _ Hdm),
        (str_split_none ":" _ Hds).
      rewrite Hvh, Hvm, Hvs. cbn. f_equal. lia.
    + rewrite (str_split_app ":" _ _ Hdm), (str_split_none ":" _ Hds).
      rewrite Hvm, Hvs. cbn. f_equal. lia.
  - intros Hn. unfold format_duration.
    destruct (Z.ltb_spec seconds 0) as [|_]; [lia|].
    rewrite (Z.div_small seconds 3600) by lia. cbn [Z.gtb Z.compare].
    rewrite (Z.mod_small seconds 3600) by lia.
    assert (0 ≤ seconds / 60 < 100) as Hm.
    { split; [apply Z.div_pos; lia|].
      apply Z.div_lt_upper_bound; lia. }
    assert (0 ≤ seconds mod 60 < 60) as Hs by (apply Z.mod_pos_bound; lia).
    destruct (fmt_02d_nonneg _ (proj1 Hm)) as (_ & _ & Hlm).
    destruct (fmt_02d_nonneg _ (proj1 Hs)) as (_ & _ & Hls).
    rewrite !str_length_app, Hlm, Hls by lia. done.
  - intros Hn. unfold format_duration.
    by destruct (Z.ltb_spec seconds 0) as [_|]; [|lia].
Qed.

Example format_duration_examples :
  format_duration (Some 3725) = "01:02:05"
  ∧ format_duration (Some 59) = "00:59"
  ∧ format_duration (Some 360000) = "100:00:00"
  ∧ clock_seconds "100:00:00" = Some 360000.
Proof. vm_compute. done. Qed.
(** ** The scanner *)

Section ScannerFacts.
Import Scanner.
Variables (max_retries : Z) (first : bool).
Variables (run : Z → query_outcome) (probe : Z → run_result).
Variables (source_name : string) (max_videos : Z).

(** The loop over the lines of a listing without a line that raises. *)
Lemma parse_lines_clean lines videos :
  clean lines = true →
  parse_lines source_name lines videos
  = (videos ++ objects source_name lines, true).
Proof.
  revert videos. induction lines as [|l lines IH]; intros videos Hc; cbn.
  { by rewrite app_nil_r. }
  cbn in Hc. apply andb_true_iff in Hc as [Hl Hc].
  destruct l; [by apply IH|by apply IH| |done].
  rewrite (IH _ Hc). cbn. by rewrite <- app_assoc.
Qed.

(** The loop over the lines stops at the first line that raises. *)
Lemma parse_lines_raises pre post videos :
  clean pre = true →
  parse_lines source_name (pre ++ LineRaises :: post) videos
  = (videos ++ objects source_name pre, false).
Proof.
  revert videos. induction pre as [|l pre IH]; intros videos Hc; cbn.
  { by rewrite app_nil_r. }
  cbn in Hc. apply andb_true_iff in Hc as [Hl Hc].
  destruct l; [by apply IH|by apply IH| |done].
  rewrite (IH _ Hc). cbn. by rewrite <- app_assoc.
Qed.

(** Attempts without a listing are passed over, except that a failed
    command at the last attempt ends the loop. *)
Lemma query_loop_skip (k n : nat) (attempt : Z) videos :
  (∀ j, attempt ≤ j < attempt + Z.of_nat k →
        no_output (run j) = true
        ∧ (run j = QueryFailed → j ≠ max_retries - 1)) →
  query_loop max_retries first run probe source_name max_videos
             (k + n) attempt videos
  = query_loop max_retries first run probe source_name max_videos
               n (attempt + Z.of_nat k) videos.
Proof.
  revert attempt. induction k as [|k IH]; intros attempt Hskip.
  { cbn. by rewrite Z.add_0_r. }
  destruct (Hskip attempt ltac:(lia)) as [Hno Hlast].
  cbn [Nat.add query_loop].
  assert (query_loop max_retries first run probe source_name max_videos
            (k + n) (attempt + 1) videos
          = query_loop max_retries first run probe source_name max_videos
              n (attempt + Z.of_nat (S k)) videos) as Hrest.
  { rewrite IH; [f_equal; lia|]. intros j Hj. apply Hskip. lia. }
  destruct (run attempt) eqn:Hrun; [done|exact Hrest| |exact Hrest].
  destruct (Z.eqb_spec attempt (max_retries - 1)) as [Heq|_]; [|exact Hrest].
  by destruct (Hlast eq_refl).
Qed.

(** Property X15. When the attempts before the attempt [i] give no
    listing and the attempt [i] gives one whose lines do not raise,
    [get_all_recent_videos] returns the items of the objects of that
    listing, in order, skipping the lines that do not parse; the later
    attempts and the fallback play no part. *)
Theorem scan_takes_first_listing (i : Z) (lines : list json_line) :
  0 ≤ i < max_retries →
  (∀ j, 0 ≤ j < i → no_output (run j) = true) →
  run i = QueryOutput lines →
  clean lines = true →
  get_all_recent_videos max_retries first run probe source_name max_videos
  = (if forallb is_blank lines then [] else objects source_name lines).
Proof.
  intros Hi Hbefore Hrun Hclean. unfold get_all_recent_videos.
  replace (Z.to_nat max_retries)
    with (Z.to_nat i + S (Z.to_nat (max_retries - 1 - i)))%nat by lia.
  rewrite query_loop_skip.
  - rewrite Z2Nat.id, Z.add_0_l by lia. cbn [query_loop]. rewrite Hrun.
    destruct (forallb is_blank lines); [done|].
    by rewrite (parse_lines_clean lines [] Hclean).
  - intros j Hj. split; [apply Hbefore; lia | lia].
Qed.

(** The result of a scan none of whose attempts gives a listing. *)
Lemma scan_without_listing_eq :
  (∀ j, 0 ≤ j < max_retries → no_output (run j) = true) →
  get_all_recent_videos max_retries first run probe source_name max_videos
  = (if (0 <? max_retries) && is_failed (run (max_retries - 1))
     then _fallback_recent_videos first probe source_name max_videos
     else []).
Proof.
  intros Hno. unfold get_all_recent_videos.
  destruct (Z.to_nat max_retries) as [|n] eqn:Hn.
  { cbn. destruct (Z.ltb_spec 0 max_retries); [lia|done]. }
  replace (S n) with (n + 1)%nat by lia.
  rewrite query_loop_skip.
  - rewrite Z.add_0_l. replace (Z.of_nat n) with (max_retries - 1) by lia.
    cbn [query_loop]. specialize (Hno (max_retries - 1) ltac:(lia)).
    destruct (Z.ltb_spec 0 max_retries); [|lia]. cbn [andb].
    destruct (run (max_retries - 1)) eqn:Hrun; [done|done| |done].
    by rewrite Z.eqb_refl.
  - intros j Hj. split; [apply Hno; lia | lia].
Qed.

(** Property X16. When no attempt gives a listing, the scan goes to
    [_fallback_recent_videos] if the command of the last attempt failed,
    and returns the empty list otherwise: a scan whose last attempt times
    out or raises has the result of a source without items. *)
Theorem scan_without_listing :
  (∀ j, 0 ≤ j < max_retries → no_output (run j) = true) →
  (0 < max_retries → is_failed (run (max_retries - 1)) = true →
   get_all_recent_videos max_retries first run probe source_name max_videos
   = _fallback_recent_videos first probe source_name max_videos)
  ∧ (is_failed (run (max_retries - 1)) = false →
     get_all_recent_videos max_retries first run probe source_name max_videos
     = [])
  ∧ (max_retries ≤ 0 →
     get_all_recent_videos max_retries first run probe source_name max_videos
     = []).
Proof.
  intros Hno. rewrite (scan_without_listing_eq Hno). split_and!.
  - intros Hpos ->. by destruct (Z.ltb_spec 0 max_retries); [|lia].
  - intros ->. by rewrite andb_false_r.
  - intros Hle. by destruct (Z.ltb_spec 0 max_retries); [lia|].
Qed.

(** Property X17. The attempts share one list: when the loop over the
    lines of the first attempt raises, the items it had appended stay, and
    the listing of the next attempt is appended after them, so that an
    item of both listings is returned twice. *)
Theorem scan_keeps_items_of_aborted_attempt
    (pre post lines : list json_line) :
  2 ≤ max_retries →
  run 0 = QueryOutput (pre ++ LineRaises :: post) →
  clean pre = true →
  run 1 = QueryOutput lines →
  clean lines = true →
  forallb is_blank lines = false →
  get_all_recent_videos max_retries first run probe source_name max_videos
  = objects source_name pre ++ objects source_name lines.
Proof.
  intros Hmax Hrun0 Hpre Hrun1 Hlines Hblank. unfold get_all_recent_videos.
  replace (Z.to_nat max_retries)
    with (S (S (Z.to_nat (max_retries - 2))))%nat by lia.
  cbn [query_loop]. rewrite Hrun0.
  assert (forallb is_blank (pre ++ LineRaises :: post) = false) as ->.
  { rewrite forallb_app. cbn. apply andb_false_r. }
  rewrite (parse_lines_raises pre post [] Hpre). cbn [app].
  change (0 + 1) with 1. rewrite Hrun1, Hblank.
  by rewrite (parse_lines_clean lines _ Hlines).
Qed.

(** The fallback appends at most one well-formed item for each item it
    asks for. *)
Lemma fallback_item_well_formed stdout v :
  fallback_item source_name stdout = Some v → item_well_formed v.
Proof.
  unfold fallback_item. destruct (2 <=? _)%nat; [|done].
  intros [= <-]. by split.
Qed.

Lemma fallback_loop_spec n i videos :
  ∃ new, fallback_loop probe source_name n i videos = videos ++ new
         ∧ (length new ≤ n)%nat
         ∧ Forall item_well_formed new.
Proof.
  revert i videos. induction n as [|n IH]; intros i videos; cbn.
  { exists []. by rewrite app_nil_r. }
  destruct (probe i) as [rc stdout|].
  2:{ exists []. rewrite app_nil_r. split_and!; [done|cbn; lia|done]. }
  destruct ((rc =? 0) && negb (String.eqb (str_strip stdout) "")).
  - destruct (fallback_item source_name stdout) as [v|] eqn:Hv.
    + destruct (IH (i + 1) (videos ++ [v])) as (new & -> & Hlen & Hwf).
      exists (v :: new). rewrite <- app_assoc. split_and!; [done|cbn; lia|].
      constructor; [by eapply fallback_item_well_formed | done].
    + destruct (IH (i + 1) videos) as (new & -> & Hlen & Hwf).
      exists new. split_and!; [done|lia|done].
  - destruct (IH (i + 1) videos) as (new & -> & Hlen & Hwf).
    exists new. split_and!; [done|lia|done].
Qed.

(** Once a run of the fallback raises, the later items are not asked
    for. *)
Lemma fallback_loop_ext (probe' : Z → run_result) n i stop videos :
  i ≤ stop →
  probe stop = RunRaises →
  (∀ j, j ≤ stop → probe' j = probe j) →
  fallback_loop probe' source_name n i videos
  = fallback_loop probe source_name n i videos.
Proof.
  intros Hle Hstop Hagree. revert i videos Hle.
  induction n as [|n IH]; intros i videos Hle; [done|]. cbn.
  rewrite (Hagree i Hle). destruct (probe i) eqn:Hi; [|done].
  apply IH. destruct (Z.eq_dec i stop) as [->|]; [congruence | lia].
Qed.

(** Property X18. [_fallback_recent_videos] returns at most [limit]
    items, and at most 50 after the first run; once a run of its command
    raises, it asks for no later item: the result does not depend on
    what the later runs would give. *)
Theorem fallback_is_bounded (probe' : Z → run_result) (limit stop : Z) :
  let result := _fallback_recent_videos first probe source_name limit in
  (length result ≤ Z.to_nat limit)%nat
  ∧ (first = false → (length result ≤ 50)%nat)
  ∧ (1 ≤ stop → probe stop = RunRaises →
     (∀ j, j ≤ stop → probe' j = probe j) →
     _fallback_recent_videos first probe' source_name limit = result).
Proof.
  cbn zeta. unfold _fallback_recent_videos.
  set (n := Z.to_nat (if first then limit else Z.min limit 50)).
  destruct (fallback_loop_spec n 1 []) as (new & Hnew & Hlen & _).
  cbn [app] in Hnew. rewrite Hnew. split_and!.
  - unfold n in Hlen. destruct first; lia.
  - intros ->. unfold n in Hlen. lia.
  - intros Hstop Hraise Hagree. rewrite <- Hnew.
    by apply (fallback_loop_ext probe' n 1 stop).
Qed.

(** Both loops of the scanner append well-formed items only. *)
Lemma parse_lines_well_formed lines videos :
  Forall item_well_formed videos →
  Forall item_well_formed (fst (parse_lines source_name lines videos)).
Proof.
  revert videos. induction lines as [|l lines IH]; intros videos Hwf; [done|].
  cbn. destruct l; [by apply IH|by apply IH| |done].
  apply IH. apply Forall_app. split; [done|].
  constructor; [by split | done].
Qed.

Lemma fallback_well_formed limit :
  Forall item_well_formed
    (_fallback_recent_videos first probe source_name limit).
Proof.
  unfold _fallback_recent_videos.
  match goal with |- context [fallback_loop _ _ ?n _ _] =>
    destruct (fallback_loop_spec n 1 []) as (new & Hnew & _ & Hwf);
    rewrite Hnew end.
  done.
Qed.

Lemma query_loop_well_formed n attempt videos :
  Forall item_well_formed videos →
  Forall item_well_formed
    (query_loop max_retries first run probe source_name max_videos
                n attempt videos).
Proof.
  revert attempt videos. induction n as [|n IH]; intros attempt videos Hwf;
    [done|].
  cbn. destruct (run attempt) as [lines| | |]; [|by apply IH| |by apply IH].
  - destruct (forallb is_blank lines); [done|].
    pose proof (parse_lines_well_formed lines videos Hwf) as Hp.
    destruct (parse_lines source_name lines videos) as [videos' finished].
    cbn in Hp. destruct finished; [done | by apply IH].
  - destruct (attempt =? max_retries - 1);
      [apply fallback_well_formed | by apply IH].
Qed.
End ScannerFacts.

(** Property X19. Every item the scanner returns, from the listing or from
    the fallback, has the watch URL of its id and the formatted text of its
    duration; so has the item of every task the three planners build from
    a scan. *)
Theorem scanned_items_well_formed (max_retries : Z) (first : bool)
    (run : string → Z → Z → Scanner.query_outcome)
    (probe : string → Z → run_result) (reply : string → option Z)
    (cfg : Config) (st : downloader) (key source_name : string)
    (max_videos : Z) :
  let env := scanner_env max_retries first run probe reply in
  Forall item_well_formed
    (get_all_recent_videos env key source_name max_videos)
  ∧ Forall item_well_formed
      (Scanner._fallback_recent_videos first (probe key) source_name
                                       max_videos)
  ∧ (∀ t, t ∈ download_tasks (process_channel_auto cfg env st key source_name)
          → item_well_formed (task_video t))
  ∧ (∀ t, t ∈ download_tasks (process_playlist_auto cfg env st key source_name)
          → item_well_formed (task_video t))
  ∧ (∀ t, t ∈ process_channel_first_run env key source_name max_videos
          → item_well_formed (task_video t)).
Proof.
  cbn zeta.
  assert (∀ url name max,
            Forall item_well_formed
              (get_all_recent_videos
                 (scanner_env max_retries first run probe reply) url name max))
    as Hscan.
  { intros url name max. cbn. by apply query_loop_well_formed. }
  split_and!.
  - apply Hscan.
  - apply fallback_well_formed.
  - intros t. unfold process_channel_auto. rewrite plan_loop_spec.
    cbn [download_tasks].
    intros (v & -> & Hv)%list_elem_of_fmap.
    apply list_elem_of_In, filter_In in Hv as [Hv _].
    apply list_elem_of_In in Hv.
    eapply Forall_forall in Hv; [exact Hv|apply Hscan].
  - intros t. unfold process_playlist_auto. rewrite plan_loop_spec.
    cbn [download_tasks].
    intros (v & -> & Hv)%list_elem_of_fmap.
    apply list_elem_of_In, filter_In in Hv as [Hv _].
    apply list_elem_of_In in Hv.
    eapply Forall_forall in Hv; [exact Hv|apply Hscan].
  - intros t. unfold process_channel_first_run.
    destruct (max_videos =? 0); [by intros ?%elem_of_nil|].
    intros (v & -> & Hv)%list_elem_of_fmap.
    eapply Forall_forall in Hv; [exact Hv|apply Hscan].
Qed.

(** The empty listing of a scan whose attempts all time out or raise. *)
Lemma scan_of_outage max_retries first run probe source_name max_videos :
  (∀ j, no_output (run j) && negb (is_failed (run j)) = true) →
  Scanner.get_all_recent_videos max_retries first run probe source_name
                                max_videos = [].
Proof.
  intros Hout.
  rewrite scan_without_listing_eq.
  - pose proof (Hout (max_retries - 1)) as H.
    apply andb_true_iff in H as [_ H]. apply negb_true_iff in H.
    by rewrite H, andb_false_r.
  - intros j _. pose proof (Hout j) as H.
    by apply andb_true_iff in H as [H _].
Qed.

(** Property X20. A pass during which every attempt of every scan times
    out or raises plans no task, runs no job and changes no history; when
    it is the first run it completes the first run nonetheless. *)
Theorem pass_without_listings (cfg : Config) (env : run_env)
    (st : downloader) (max_retries : Z)
    (run : string → Z → Z → Scanner.query_outcome)
    (probe : string → Z → run_result)
    (reply : string → option Z) :
  env_scan env = scanner_env max_retries (is_first_run st) run probe reply →
  (∀ url max_videos j,
     no_output (run url max_videos j)
     && negb (is_failed (run url max_videos j)) = true) →
  is_Some (get_initial_video_limit cfg (env_answers env)) →
  ∃ r, run_auto_download cfg env st = Some r
       ∧ pr_invocations r = []
       ∧ successful_downloads r = 0%nat
       ∧ (∀ source, history_ids (pr_state r) source = history_ids st source)
       ∧ is_first_run (pr_state r) = false.
Proof.
  intros Henv Hout [limit Hlimit].
  assert (∀ url name max, get_all_recent_videos (env_scan env) url name max = [])
    as Hscan.
  { intros url name max. rewrite Henv. cbn. by apply scan_of_outage. }
  assert (plan_pass cfg env st = Some []) as Hplan.
  { unfold plan_pass. destruct (is_first_run st) eqn:Hfirst.
    - assert ((if ask_initial_videos cfg
               then get_initial_video_limit cfg (env_answers env)
               else Some (initial_videos_per_channel cfg)) = Some limit
              ∨ (if ask_initial_videos cfg
                 then get_initial_video_limit cfg (env_answers env)
                 else Some (initial_videos_per_channel cfg))
                = Some (initial_videos_per_channel cfg)) as [-> | ->].
      { destruct (ask_initial_videos cfg); [by left | by right]. }
      all: cbn; f_equal;
        rewrite !flat_map_nil; [done| |];
        intros [k name] _; unfold process_channel_first_run, first_run_scan;
        rewrite Hscan; by destruct (_ =? 0).
    - f_equal. rewrite !flat_map_nil; [done| |];
        intros [k name] _;
        unfold process_channel_auto, process_playlist_auto, channel_scan,
          playlist_scan; by rewrite Hscan. }
  unfold run_auto_download. rewrite Hplan. cbn. rewrite pool_no_tasks.
  eexists. split; [reflexivity|]. cbn [pr_state pr_invocations successful_downloads].
  split_and!; [done|done| |].
  - intros source. by destruct (is_first_run st).
  - destruct (is_first_run st) eqn:Hfirst; [done|exact Hfirst].
Qed.
Lemma scan_takes_first_listing_witness :
  map vi_id
    (Scanner.get_all_recent_videos 2 false second_attempt_lists probe_example
       "Chan" 100)
  = ["v1"; "unknown"]
  ∧ map vi_duration
      (Scanner.get_all_recent_videos 2 false second_attempt_lists
         probe_example "Chan" 100)
    = [200; 45].
Proof.
  rewrite (scan_takes_first_listing 2 false second_attempt_lists probe_example
             "Chan" 100 1 listing_example).
  - vm_compute. done.
  - lia.
  - intros j Hj. assert (j = 0) as -> by lia. reflexivity.
  - reflexivity.
  - reflexivity.
Defined.

Lemma scan_without_listing_witness :
  Scanner.get_all_recent_videos 2 false (λ _, Scanner.QueryTimeout)
    probe_example "Chan" 100 = []
  ∧ map vi_id
      (Scanner.get_all_recent_videos 2 false (λ _, Scanner.QueryFailed)
         probe_example "Chan" 100)
    = ["v1"].
Proof.
  split.
  - destruct (scan_without_listing 2 false (λ _, Scanner.QueryTimeout)
                probe_example "Chan" 100 (λ _ _, eq_refl)) as (_ & Hnone & _).
    by apply Hnone.
  - destruct (scan_without_listing 2 false (λ _, Scanner.QueryFailed)
                probe_example "Chan" 100 (λ _ _, eq_refl)) as (Hfb & _).
    rewrite Hfb; [vm_compute; reflexivity|lia|reflexivity].
Defined.

Lemma scan_keeps_items_of_aborted_attempt_witness :
  map vi_id
    (Scanner.get_all_recent_videos 2 false first_attempt_aborts probe_example
       "Chan" 100)
  = ["v1"; "v1"; "unknown"].
Proof.
  rewrite (scan_keeps_items_of_aborted_attempt 2 false first_attempt_aborts
             probe_example "Chan" 100 (take 1 listing_example)
             (drop 1 listing_example) listing_example);
    [vm_compute; reflexivity|lia|reflexivity..].
Defined.

Lemma pass_without_listings_witness :
  ∃ r, run_auto_download default_config outage_env
         (fresh_start [("A", "Channel A")] []) = Some r
       ∧ pr_invocations r = []
       ∧ successful_downloads r = 0%nat
       ∧ (∀ source,
            history_ids (pr_state r) source
            = history_ids (fresh_start [("A", "Channel A")] []) source)
       ∧ is_first_run (pr_state r) = false.
Proof.
  apply (pass_without_listings default_config outage_env
           (fresh_start [("A", "Channel A")] []) 2
           (λ _ _ _, Scanner.QueryTimeout) (λ _ _, RunRaises)
           (λ _, None)).
  - reflexivity.
  - reflexivity.
  - by eexists.
Defined.

Example fallback_examples :
  map (λ v, (vi_id v, vi_title v, vi_uploader v, vi_duration v))
      (Scanner._fallback_recent_videos false probe_example "Chan" 100)
  = [("v1", "First", "Chan", 200)]
  ∧ Scanner._fallback_recent_videos false probe_example "Chan" 0 = [].
Proof. vm_compute. done. Qed.
(** ** Command lines *)

(** Neither the output template nor the format is one of the options. *)
Lemma path_join_long (dir o : string) :
  (String.length o < 18)%nat → o ≠ path_join dir "%(title)s.%(ext)s".
Proof.
  intros Hlen ->. unfold path_join in Hlen.
  rewrite !str_length_app in Hlen. cbn in Hlen. lia.
Qed.

Lemma format_not_option (res rest o : string) :
  String.prefix "-" o = true → o ≠ "bestvideo[height<=" +:+ res +:+ rest.
Proof.
  intros Hp ->. rewrite str_app_cons in Hp. cbn in Hp. done.
Qed.

(** The command line for audio: the tool, options without any for
    subtitles, and the URL. *)
Lemma audio_command_options cc video_url source_name is_manual resume :
  ∃ audio_options,
    build_audio_download_command cc video_url source_name is_manual resume
    = "yt-dlp" :: audio_options ++ [video_url]
    ∧ ("--continue" ∈ audio_options ↔ resume = true)
    ∧ ∀ o, o ∈ subtitle_options → o ∉ audio_options.
Proof.
  exists (removelast
            (tail (build_audio_download_command cc video_url source_name
                                                is_manual resume))).
  unfold build_audio_download_command, subtitle_options.
  destruct resume; cbn [app removelast tail];
    (split_and!;
     [ reflexivity
     | decide_argument format_not_option path_join_long
     | intros opt Hopt;
       repeat (apply elem_of_cons in Hopt as [->|Hopt]);
       [by not_an_argument format_not_option path_join_long..
       |by apply elem_of_nil in Hopt] ]).
Qed.

(** Property X21. The command line [build_download_command] builds:
    the tool, then options, then the URL last; ["--continue"] is among
    the options exactly when [resume] is set, each of the five subtitle
    options exactly when [skip_subs] is not set, and ["--no-playlist"]
    always; the source name and [is_manual] play no part. The command line
    of [build_audio_download_command] has the same shape and never asks
    for subtitles. *)
Theorem download_command_options (cc : CommandConfig)
    (video_url source_name source_name' : string)
    (skip_subs is_manual is_manual' resume : bool) :
  let cmd :=
    build_download_command cc video_url source_name skip_subs is_manual
                           resume in
  ∃ options,
    cmd = "yt-dlp" :: options ++ [video_url]
    ∧ ("--continue" ∈ options ↔ resume = true)
    ∧ (∀ o, o ∈ subtitle_options → (o ∈ options ↔ skip_subs = false))
    ∧ "--no-playlist" ∈ options
    ∧ build_download_command cc video_url source_name' skip_subs is_manual'
                             resume = cmd
    ∧ ∃ audio_options,
        build_audio_download_command cc video_url source_name is_manual
                                     resume
        = "yt-dlp" :: audio_options ++ [video_url]
        ∧ ("--continue" ∈ audio_options ↔ resume = true)
        ∧ ∀ o, o ∈ subtitle_options → o ∉ audio_options.
Proof.
  cbn zeta.
  exists (removelast
            (tail (build_download_command cc video_url source_name skip_subs
                                          is_manual resume))).
  unfold build_download_command, subtitle_options.
  destruct resume, skip_subs; cbn [negb app removelast tail];
    (split_and!;
     [ reflexivity
     | decide_argument format_not_option path_join_long
     | intros opt Hopt;
       repeat (apply elem_of_cons in Hopt as [->|Hopt]);
       [decide_argument format_not_option path_join_long..
       |by apply elem_of_nil in Hopt]
     | is_an_argument
     | reflexivity
     | ]).
  all: apply audio_command_options.
Qed.
(** A listing command that fails counts as no subtitles. *)
Lemma failed_listing_no_subtitles (listing : run_result) :
  (∀ stdout, listing ≠ RunExit 0 stdout) →
  check_subtitles_available listing = false.
Proof.
  intros Hfail. destruct listing as [rc stdout|]; [|done]. cbn.
  destruct (Z.eqb_spec rc 0) as [->|]; [|done]. by destruct (Hfail stdout).
Qed.

(** A job that requests no subtitles runs the tool once. *)
Lemma download_video_plain v source_name je st :
  je_has_subtitles je = false →
  snd (download_video v source_name je st)
  = [{| inv_url := vi_url v; inv_skip_subs := true;
        inv_resume := job_resumes je v st |}]
  ∧ fst (fst (fst (download_video v source_name je st)))
    = fst (fst (_execute_download v (je_first je))).
Proof.
  intros Hsubs. unfold download_video, job_resumes. rewrite Hsubs.
  destruct (je_existing je) as [can_resume progress]. cbn [fst snd].
  destruct (_execute_download v (je_first je)) as [[s1 vid1] msg1].
  by destruct can_resume, (progress <? 100), (bool_decide _), s1.
Qed.

(** Property X22. When the command that lists the subtitles fails, the
    job still fetches the item: it runs the tool once, with a command line
    that holds none of the subtitle options, and its result is that of
    this run. *)
Theorem failed_listing_fetches_without_subtitles (cc : CommandConfig)
    (v : video_info) (source_name : string) (je : job_env) (st : downloader)
    (listing : run_result) :
  je_has_subtitles je = check_subtitles_available listing →
  (∀ stdout, listing ≠ RunExit 0 stdout) →
  ∃ i options,
    snd (download_video v source_name je st) = [i]
    ∧ command_of cc source_name i = "yt-dlp" :: options ++ [vi_url v]
    ∧ (∀ o, o ∈ subtitle_options → o ∉ options)
    ∧ fst (fst (fst (download_video v source_name je st)))
      = fst (fst (_execute_download v (je_first je))).
Proof.
  intros Hje Hfail. rewrite (failed_listing_no_subtitles listing Hfail) in Hje.
  destruct (download_video_plain v source_name je st Hje) as [Hinvs Hsucc].
  exists {| inv_url := vi_url v; inv_skip_subs := true;
            inv_resume := job_resumes je v st |}.
  exists (removelast
            (tail (build_download_command cc (vi_url v) source_name true false
                                          (job_resumes je v st)))).
  split_and!; [exact Hinvs| | |exact Hsucc].
  - unfold command_of, build_download_command. cbn [inv_url inv_skip_subs inv_resume].
    destruct (job_resumes je v st); reflexivity.
  - intros o Ho. unfold build_download_command, subtitle_options in *.
    destruct (job_resumes je v st); cbn [negb app removelast tail];
      repeat (apply elem_of_cons in Ho as [->|Ho]);
      try (by apply elem_of_nil in Ho);
      by not_an_argument format_not_option path_join_long.
Qed.

Lemma failed_listing_fetches_without_subtitles_witness :
  ∃ i options,
    snd (download_video (item "v1" 100) "Channel A"
           (job_without_listing (Exited 0 [])) (blank [] [])) = [i]
    ∧ command_of cc_example "Channel A" i
      = "yt-dlp" :: options ++ ["https://www.youtube.com/watch?v=v1"]
    ∧ (∀ o, o ∈ subtitle_options → o ∉ options)
    ∧ fst (fst (fst (download_video (item "v1" 100) "Channel A"
                       (job_without_listing (Exited 0 [])) (blank [] []))))
      = true.
Proof.
  apply (failed_listing_fetches_without_subtitles cc_example (item "v1" 100)
           "Channel A" (job_without_listing (Exited 0 [])) (blank [] [])
           (RunExit 1 "")); [reflexivity|].
  intros stdout [=].
Defined.

(** ** Files found on disk *)

(** What the loop over the paths of the glob returns. *)
Lemma first_file_values paths :
  first_file paths ∈ [(false, 0); (true, 50); (true, 100)].
Proof.
  induction paths as [|p paths IH]; cbn; [is_an_argument|].
  destruct p as [|sz|]; [done| |is_an_argument].
  destruct (sz >? 1024 * 1024); is_an_argument.
Qed.

Lemma first_file_partial paths :
  first_file paths = (true, 50)
  ↔ ∃ pre file_size post,
      paths = pre ++ FoundFile file_size :: post
      ∧ Forall (eq FoundOther) pre
      ∧ partial_size < file_size.
Proof.
  unfold partial_size. induction paths as [|p paths IH]; cbn.
  { split; [done|]. intros (pre & sz & post & Heq & _).
    by destruct pre. }
  destruct p as [|sz|].
  - rewrite IH. split.
    + intros (pre & sz & post & -> & Hpre & Hsz).
      exists (FoundOther :: pre), sz, post. split_and!; [done| |done].
      by constructor.
    + intros (pre & sz & post & Heq & Hpre & Hsz).
      destruct pre as [|p pre]; [done|]. injection Heq as <- ->.
      exists pre, sz, post. split_and!; [done| |done].
      by apply Forall_cons in Hpre as [_ ?].
  - destruct (Z.gtb_spec sz (1024 * 1024)) as [Hgt|Hle].
    + split; [|done]. intros _. exists [], sz, paths. split_and!; [done..|lia].
    + split; [done|]. intros (pre & sz' & post & Heq & Hpre & Hsz).
      destruct pre as [|p pre].
      * injection Heq as -> _. lia.
      * injection Heq as <- _. by apply Forall_cons in Hpre as [[=] _].
  - split; [done|]. intros (pre & sz' & post & Heq & Hpre & Hsz).
    destruct pre as [|p pre]; [done|].
    injection Heq as <- _. by apply Forall_cons in Hpre as [[=] _].
Qed.

(** Every run of a job is for the item's URL, with the job's resume
    flag. *)
Lemma download_video_invs_resume v source_name je st i :
  i ∈ snd (download_video v source_name je st) →
  inv_url i = vi_url v ∧ inv_resume i = job_resumes je v st.
Proof.
  unfold download_video, job_resumes.
  destruct (je_existing je) as [can_resume progress]. cbn [fst snd].
  destruct (_execute_download v (je_first je)) as [[s1 vid1] msg1].
  destruct (_execute_download v (je_retry je)) as [[s2 vid2] msg2].
  destruct can_resume, (progress <? 100), (bool_decide _),
    (je_has_subtitles je), s1, s2; cbn [andb negb orb];
    repeat match goal with
      | |- context [if ?b then _ else _] => destruct b
      end;
    cbn [fst snd]; intros Hi;
    repeat (apply elem_of_cons in Hi as [->|Hi]; [done|]);
    by apply elem_of_nil in Hi.
Qed.

(** Property X23. [check_existing_download] answers [(False, 0)],
    [(True, 50)] or [(True, 100)]; it answers [(True, 50)] exactly when the
    first regular file among the paths of the glob is larger than one
    mebibyte. A job resumes exactly when that is so, or when nothing was
    found and the resume store has an entry for the item; a first file of
    at most one mebibyte counts as complete, and the job then does not
    resume even if the store has an entry. *)
Theorem existing_file_decides_resume (cc : CommandConfig)
    (glob : string → string → list found) (v : video_info)
    (source_name : string) (je : job_env) (st : downloader) :
  je_existing je = check_existing_download cc glob v "video" →
  let found := check_existing_download cc glob v "video" in
  let paths :=
    glob (current_video_dir cc) ("*" +:+ clean_title (vi_title v) +:+ "*.mp4") in
  found ∈ [(false, 0); (true, 50); (true, 100)]
  ∧ (found = (true, 50)
     ↔ ∃ pre file_size post,
         paths = pre ++ FoundFile file_size :: post
         ∧ Forall (eq FoundOther) pre
         ∧ partial_size < file_size)
  ∧ (job_resumes je v st = true
     ↔ found = (true, 50)
       ∨ (found = (false, 0)
          ∧ is_Some (get_resume_state "video" (vi_id v) st)))
  ∧ (∀ i, i ∈ snd (download_video v source_name je st) →
          inv_resume i = job_resumes je v st).
Proof.
  intros Hje. cbn zeta.
  assert (check_existing_download cc glob v "video"
          = first_file (glob (current_video_dir cc)
                          ("*" +:+ clean_title (vi_title v) +:+ "*.mp4")))
    as Hchk by reflexivity.
  split_and!.
  - rewrite Hchk. apply first_file_values.
  - rewrite Hchk. apply first_file_partial.
  - unfold job_resumes. rewrite Hje.
    pose proof (first_file_values
                  (glob (current_video_dir cc)
                     ("*" +:+ clean_title (vi_title v) +:+ "*.mp4"))) as Hv.
    rewrite <- Hchk in Hv.
    destruct (check_existing_download cc glob v "video") as [b p].
    cbn [fst snd].
    apply elem_of_cons in Hv as [[= -> ->]|Hv];
      [|apply elem_of_cons in Hv as [[= -> ->]|Hv];
        [|apply list_elem_of_singleton in Hv as [= -> ->]]]; cbn.
    + rewrite bool_decide_eq_true. split; [by right | by intros [[=]|[_ ?]]].
    + split; [by left | done].
    + split; [done | by intros [[=]|[[=] _]]].
  - intros i Hi.
    pose proof (download_video_invs_resume v source_name je st) as Hall.
    by apply Hall.
Qed.
Lemma existing_file_decides_resume_witness :
  check_existing_download cc_example (glob_example 2000000) (item "v1" 100)
                          "video" = (true, 50)
  ∧ job_resumes
      (job_over_files cc_example (glob_example 2000000) (item "v1" 100)
                      (Exited 1 ["failed"]))
      (item "v1" 100) (blank [] []) = true
  ∧ job_resumes
      (job_over_files cc_example (glob_example 1000) (item "v1" 100)
                      (Exited 1 ["failed"]))
      (item "v1" 100) store_with_entry = false.
Proof.
  split; [reflexivity|]. split.
  - destruct (existing_file_decides_resume cc_example (glob_example 2000000)
                (item "v1" 100) "Channel A"
                (job_over_files cc_example (glob_example 2000000)
                   (item "v1" 100) (Exited 1 ["failed"]))
                (blank [] []) eq_refl) as (_ & _ & Hres & _).
    apply Hres. by left.
  - destruct (existing_file_decides_resume cc_example (glob_example 1000)
                (item "v1" 100) "Channel A"
                (job_over_files cc_example (glob_example 1000)
                   (item "v1" 100) (Exited 1 ["failed"]))
                store_with_entry eq_refl) as (_ & _ & Hres & _).
    apply not_true_is_false. intros Hr. apply Hres in Hr as [Hr|[Hr _]];
      vm_compute in Hr; discriminate Hr.
Defined.

(** [clean_title] works character by character. *)
Lemma clean_title_get (video_title : string) (i : nat) :
  String.get i (clean_title video_title)
  = (λ a, if is_reserved a then "_"%char else a) <$> String.get i video_title.
Proof.
  revert i. induction video_title as [|a s IH]; intros i; [done|].
  cbn [clean_title]. destruct i as [|i]; [done|]. cbn [String.get]. apply IH.
Qed.

(** Property X24. [check_existing_download] globs the directory of the
    download type for the pattern made of a star, the cleaned title, a
    star and the extension, and answers from the paths the glob yields.
    The cleaned title is the title with each character of the class of
    line 1321 replaced by an underscore, position by position: it has the
    length of the title and none of the characters of the class (the
    wildcards [*] and [?] among them), while every other character stays,
    the brackets included, which are not in the class. Cleaning it again
    changes nothing, and a title without a character of the class is not
    changed. *)
Theorem check_existing_download_pattern (cc : CommandConfig)
    (glob : string → string → list found) (v : video_info)
    (download_type : string) :
  let title := clean_title (vi_title v) in
  check_existing_download cc glob v download_type
  = first_file
      (if String.eqb download_type "video"
       then glob (current_video_dir cc) ("*" +:+ title +:+ "*.mp4")
       else glob (current_audio_dir cc) ("*" +:+ title +:+ "*.mp3"))
  ∧ (∀ i, String.get i title
          = (λ a, if is_reserved a then "_"%char else a)
              <$> String.get i (vi_title v))
  ∧ String.length title = String.length (vi_title v)
  ∧ str_forall (λ a, negb (is_reserved a)) title = true
  ∧ (∀ a, is_reserved a = true
          ↔ a ∈ ["<"; ">"; ":"; "034"; "/"; "\"; "|"; "?"; "*"]%char)
  ∧ is_reserved "["%char = false ∧ is_reserved "]"%char = false
  ∧ clean_title title = title
  ∧ (str_forall (λ a, negb (is_reserved a)) (vi_title v) = true →
     title = vi_title v).
Proof.
  cbn zeta. split.
  { unfold check_existing_download. by destruct (String.eqb _ _). }
  split; [apply clean_title_get|].
  assert (∀ s,
            String.length (clean_title s) = String.length s
            ∧ str_forall (λ a, negb (is_reserved a)) (clean_title s) = true
            ∧ clean_title (clean_title s) = clean_title s
            ∧ (str_forall (λ a, negb (is_reserved a)) s = true →
               clean_title s = s)) as Hclean.
  { induction s as [|a s (IH1 & IH2 & IH3 & IH4)]; [done|].
    cbn [clean_title str_forall String.length].
    rewrite IH1, IH2, IH3. split_and!.
    - done.
    - by destruct (is_reserved a) eqn:Ha; [|rewrite Ha].
    - by destruct (is_reserved a) eqn:Ha; [|rewrite Ha].
    - intros [Ha Hs]%andb_true_iff. apply negb_true_iff in Ha.
      by rewrite Ha, (IH4 Hs). }
  destruct (Hclean (vi_title v)) as (Hlen & Hnone & Hidem & Hsame).
  split_and!; [done|done| |done|done|done|done].
  intros a. unfold is_reserved. rewrite existsb_exists. split.
  - intros (b & Hb & ->%Ascii.eqb_eq). by apply list_elem_of_In.
  - intros Ha. exists a. split; [by apply list_elem_of_In|apply Ascii.eqb_refl].
Qed.

Example clean_title_examples :
  clean_title "What is 2*3? A/B: <test>" = "What is 2_3_ A_B_ _test_"
  ∧ clean_title "Live [4K]" = "Live [4K]"
  ∧ check_existing_download cc_example
      (λ dir pattern,
         if String.eqb pattern "*What is 2_3_*.mp4" then [FoundFile 1000]
         else [])
      (item "v1" 100) "video" = (false, 0).
Proof. vm_compute. done. Qed.

(** ** Log rotation *)

(** The sort by modification time gives a sorted permutation. *)
Lemma insert_by_mtime_perm x l : Permutation (insert_by_mtime x l) (x :: l).
Proof.
  induction l as [|y l IH]; [done|]. cbn.
  destruct (lf_mtime x <? lf_mtime y); [done|].
  rewrite IH. apply perm_swap.
Qed.

Lemma insert_by_mtime_sorted x l :
  StronglySorted not_newer l → StronglySorted not_newer (insert_by_mtime x l).
Proof.
  induction l as [|y l IH]; intros Hs; cbn.
  { by repeat constructor. }
  apply StronglySorted_inv in Hs as [Hs Hy].
  destruct (Z.ltb_spec (lf_mtime x) (lf_mtime y)) as [Hlt|Hge].
  - constructor; [by constructor|].
    constructor; [unfold not_newer; lia|].
    eapply Forall_impl; [exact Hy|]. unfold not_newer. intros z Hz. lia.
  - constructor; [by apply IH|].
    rewrite insert_by_mtime_perm. by constructor.
Qed.

Lemma sort_by_mtime_spec l :
  Permutation (sort_by_mtime l) l ∧ StronglySorted not_newer (sort_by_mtime l).
Proof.
  unfold sort_by_mtime.
  assert (∀ acc, StronglySorted not_newer acc →
            Permutation (fold_left (λ sorted x, insert_by_mtime x sorted) l acc)
                        (acc ++ l)
            ∧ StronglySorted not_newer
                (fold_left (λ sorted x, insert_by_mtime x sorted) l acc)) as H.
  { induction l as [|x l IH]; intros acc Hacc; cbn.
    { by rewrite app_nil_r. }
    destruct (IH (insert_by_mtime x acc) (insert_by_mtime_sorted x acc Hacc))
      as [Hp Hs].
    split; [|done]. rewrite Hp, insert_by_mtime_perm.
    apply Permutation_middle. }
  apply (H []). constructor.
Qed.

(** Property X25. [setup_log_cleanup] with a positive [max_log_files]
    unlinks all but that many log files, and no file it unlinks is newer
    than a file it keeps; it unlinks nothing when there are no more files
    than [max_log_files], and nothing at all when [max_log_files] is 0
    (the slice of line 174 is then empty). *)
Theorem log_rotation_keeps_newest (max_log_files : Z)
    (log_files : list log_file) :
  let deleted := setup_log_cleanup max_log_files log_files in
  (0 < max_log_files →
   ∃ kept,
     Permutation (deleted ++ kept) log_files
     ∧ length kept = Nat.min (length log_files) (Z.to_nat max_log_files)
     ∧ ∀ d k, d ∈ deleted → k ∈ kept → lf_mtime d ≤ lf_mtime k)
  ∧ (max_log_files = 0 → deleted = [])
  ∧ (Z.of_nat (length log_files) ≤ max_log_files → deleted = []).
Proof.
  cbn zeta. unfold setup_log_cleanup, slice_to.
  destruct (sort_by_mtime_spec log_files) as [Hperm Hsorted].
  split_and!.
  - intros Hpos.
    destruct (Z.gtb_spec (Z.of_nat (length log_files)) max_log_files)
      as [Hgt|Hle].
    + destruct (Z.ltb_spec (- max_log_files) 0) as [_|]; [|lia].
      set (n := Z.to_nat (Z.of_nat (length (sort_by_mtime log_files))
                          + - max_log_files)).
      exists (drop n (sort_by_mtime log_files)).
      rewrite take_drop. split_and!; [done| |].
      * rewrite length_drop. unfold n. rewrite (Permutation_length Hperm). lia.
      * intros d k Hd Hk.
        rewrite <- (take_drop n (sort_by_mtime log_files)) in Hsorted.
        apply (StronglySorted_app_1_elem_of _ _ _ d k Hsorted Hd Hk).
    + exists log_files. split_and!; [done|lia|].
      by intros d k ?%elem_of_nil.
  - intros ->.
    destruct (Z.of_nat (length log_files) >? 0); [|done]. by cbn.
  - intros Hle.
    by destruct (Z.gtb_spec (Z.of_nat (length log_files)) max_log_files);
      [lia|].
Qed.

Lemma log_rotation_keeps_newest_witness :
  map lf_name (setup_log_cleanup 2 logs_example)
  = ["YT_feed.log.3"; "YT_feed.log.2"]
  ∧ ∃ kept,
      Permutation (setup_log_cleanup 2 logs_example ++ kept) logs_example
      ∧ length kept = Nat.min (length logs_example) (Z.to_nat 2)
      ∧ ∀ d k, d ∈ setup_log_cleanup 2 logs_example → k ∈ kept →
               lf_mtime d ≤ lf_mtime k.
Proof.
  split; [reflexivity|].
  apply (proj1 (log_rotation_keeps_newest 2 logs_example)). lia.
Defined.

(** ** The configuration file *)

(** Adding the entries of a dictionary to one that has none of its keys. *)
Lemma dict_set_fresh {V} (d : list (string * V)) k v :
  k ∉ dict_keys d → dict_set k v d = d ++ [(k, v)].
Proof.
  induction d as [|[k' v'] d IH]; [done|]. cbn.
  intros [Hne Hk]%not_elem_of_cons.
  destruct (String.eqb_spec k' k); [congruence|]. by rewrite (IH Hk).
Qed.

Lemma dict_merge_fresh {V} (d1 d2 : list (string * V)) :
  dict_wf (d1 ++ d2) → dict_merge d1 d2 = d1 ++ d2.
Proof.
  unfold dict_merge. revert d1.
  induction d2 as [|[k v] d2 IH]; intros d1 Hwf; cbn.
  { by rewrite app_nil_r. }
  assert (k ∉ dict_keys d1) as Hk.
  { unfold dict_wf, dict_keys in Hwf. rewrite map_app in Hwf.
    apply NoDup_app in Hwf as (_ & Hdisj & _).
    intros Hin. apply (Hdisj k Hin). cbn. apply list_elem_of_here. }
  rewrite (dict_set_fresh d1 k v Hk).
  rewrite IH; [by rewrite <- app_assoc|].
  by rewrite <- app_assoc.
Qed.

(** Property X26. A process that loads the file [save_config] wrote finds
    the channels and playlists in their order, the resolution and the
    three settings the file holds ([ask_initial_videos],
    [initial_videos_per_channel], [max_videos_per_channel]), and does not
    write the file again; the other settings are not in the file: the
    loading process keeps its own [max_parallel_downloads],
    [resume_cache_days], [filter_shorts] and [gap_check_limit]. *)
Theorem config_round_trip (cs boot : config_state) :
  dict_wf (cs_channels cs) → dict_wf (cs_playlists cs) →
  let loaded := load_config (over_file boot (cs_file (save_config cs))) in
  cs_channels loaded = cs_channels cs
  ∧ cs_playlists loaded = cs_playlists cs
  ∧ cs_max_resolution loaded = cs_max_resolution cs
  ∧ ask_initial_videos (cs_config loaded) = ask_initial_videos (cs_config cs)
  ∧ initial_videos_per_channel (cs_config loaded)
    = initial_videos_per_channel (cs_config cs)
  ∧ max_videos_per_channel (cs_config loaded)
    = max_videos_per_channel (cs_config cs)
  ∧ max_parallel_downloads (cs_config loaded)
    = max_parallel_downloads (cs_config boot)
  ∧ resume_cache_days (cs_config loaded) = resume_cache_days (cs_config boot)
  ∧ filter_shorts (cs_config loaded) = filter_shorts (cs_config boot)
  ∧ gap_check_limit (cs_config loaded) = gap_check_limit (cs_config boot)
  ∧ cs_file loaded = cs_file (save_config cs).
Proof.
  intros Hwc Hwp. cbn zeta. unfold load_config.
  cbn [over_file save_config cs_file cs_config cd_channels cd_playlists
       cd_ask_initial_videos cd_initial_videos_per_channel
       cd_max_videos_per_channel cd_max_resolution default].
  unfold get_default_channels, get_default_playlists.
  rewrite !dict_merge_fresh by done. cbn [app].
  unfold dict_differs.
  rewrite !bool_decide_eq_true_2 by done. cbn [negb orb].
  done.
Qed.

Lemma config_round_trip_witness :
  cs_channels
    (load_config (new_process (cs_file (save_config config_example))))
  = [("chanA", "Channel A"); ("chanB", "Channel B")]
  ∧ max_videos_per_channel
      (cs_config
         (load_config (new_process (cs_file (save_config config_example)))))
    = 50
  ∧ resume_cache_days
      (cs_config
         (load_config (new_process (cs_file (save_config config_example)))))
    = 7.
Proof.
  assert (dict_wf (cs_channels config_example)) as Hwc.
  { unfold dict_wf. cbn. apply NoDup_cons. split; [|apply NoDup_singleton].
    by intros [=]%list_elem_of_singleton. }
  assert (dict_wf (cs_playlists config_example)) as Hwp.
  { apply NoDup_singleton. }
  destruct (config_round_trip config_example (new_process FileMissing) Hwc Hwp)
    as (Hc & _ & _ & _ & _ & Hmax & _ & Hdays & _).
  split_and!; [exact Hc|exact Hmax|exact Hdays].
Defined.
(** ** Download jobs: when a failed run is tried again *)



(** ** Commits and the planner *)

(** While the history of a source stays within its limit, further calls
    of [update_channel_history] keep the ids it holds. *)
Lemma commits_keep cs st key x :
  (length (history_ids st key) + length cs ≤ history_limit)%nat →
  x ∈ history_ids st key → x ∈ history_ids (commits cs st) key.
Proof.
  revert st. induction cs as [|[[now_iso handle] vi] cs IH]; intros st Hlen Hx;
    [done|].
  cbn [commits fold_left]. apply IH.
  - rewrite history_ids_update. case_bool_decide as Hk; [subst handle|].
    + pose proof (ids_after_commit_length (vi_id vi) (history_ids st key)).
      cbn [length] in Hlen. lia.
    + cbn [length] in Hlen. lia.
  - rewrite history_ids_update. case_bool_decide as Hk; [subst handle|done].
    apply ids_after_commit_below; [cbn [length] in Hlen; lia|done].
Qed.

(** Property X28. Once [update_channel_history] has recorded an item
    under a source, and for as long as the further calls of
    [update_channel_history] cannot take the history of that source past
    its limit (its length and the number of the calls add up to at most
    1000), [is_video_downloaded] holds of the id and no steady-state
    planner of that source emits a task for the id, whatever the scan
    returns. *)
Theorem committed_item_not_planned_again (cfg : Config) (env : scan_env)
    (now_iso key source_name : string) (v : video_info) (st : downloader)
    (cs : list (string * string * video_info)) :
  let st1 := update_channel_history now_iso key v st in
  let st' := commits cs st1 in
  (length (history_ids st1 key) + length cs ≤ history_limit)%nat →
  is_video_downloaded key (vi_id v) st' = true
  ∧ (∀ t, t ∈ download_tasks (process_channel_auto cfg env st' key source_name)
          → task_id t ≠ vi_id v)
  ∧ (∀ t, t ∈ download_tasks
               (process_playlist_auto cfg env st' key source_name)
          → task_id t ≠ vi_id v).
Proof.
  cbn zeta. intros Hlen.
  set (st' := commits cs (update_channel_history now_iso key v st)).
  assert (is_video_downloaded key (vi_id v) st' = true) as Hdone.
  { apply is_video_downloaded_ids, commits_keep; [done|].
    apply is_video_downloaded_ids, update_then_downloaded. }
  assert (∀ ty scan t,
            t ∈ download_tasks (plan_loop cfg st' key source_name ty scan) →
            task_id t ≠ vi_id v) as Hloop.
  { intros ty scan t. rewrite plan_loop_spec. cbn [download_tasks].
    intros (v' & -> & Hv')%list_elem_of_fmap.
    apply list_elem_of_In, filter_In in Hv' as [_ Hf].
    unfold fetchable in Hf. apply andb_true_iff in Hf as [_ Hf].
    apply negb_true_iff in Hf. unfold task_id, task_video. cbn.
    intros Heq. rewrite Heq in Hf. congruence. }
  split; [done|]. split; intros t; apply Hloop.
Qed.

(** "v1" is recorded, then "v2": a scan that lists "v1" again gets a task
    for "v3" only. *)
Lemma committed_item_not_planned_again_witness :
  is_video_downloaded "A" "v1"
    (commits [("t2", "A", item "v2" 100)]
       (update_channel_history "t1" "A" (item "v1" 100)
          (mark_first_run_completed "t0"
             (fresh_start [("A", "Channel A")] [])))) = true
  ∧ ∀ t,
      t ∈ download_tasks
            (process_channel_auto default_config
               (fixed_scan [item "v3" 100; item "v1" 100])
               (commits [("t2", "A", item "v2" 100)]
                  (update_channel_history "t1" "A" (item "v1" 100)
                     (mark_first_run_completed "t0"
                        (fresh_start [("A", "Channel A")] []))))
               "A" "Channel A") →
      task_id t ≠ "v1".
Proof.
  pose proof (committed_item_not_planned_again default_config
                (fixed_scan [item "v3" 100; item "v1" 100])
                "t1" "A" "Channel A" (item "v1" 100)
                (mark_first_run_completed "t0"
                   (fresh_start [("A", "Channel A")] []))
                [("t2", "A", item "v2" 100)]) as H.
  cbn zeta in H. destruct H as (Hd & Hc & _); [|by split].
  rewrite history_ids_update, history_limit_eq.
  rewrite (bool_decide_eq_true_2 ("A" = "A")) by done.
  pose proof (ids_after_commit_length (vi_id (item "v1" 100))
                (history_ids (mark_first_run_completed "t0"
                                (fresh_start [("A", "Channel A")] [])) "A"))
    as Hlen.
  assert (history_ids (mark_first_run_completed "t0"
                         (fresh_start [("A", "Channel A")] [])) "A" = [])
    as Hempty.
  { unfold history_ids, history_channels. cbn. by rewrite lookup_empty. }
  rewrite Hempty in *. cbn [length] in *. lia.
Defined.

(** The planner reads the channels, the playlists and the history only. *)
Lemma plan_pass_frame cfg env st st' :
  channel_history st' = channel_history st →
  channels st' = channels st →
  playlists st' = playlists st →
  plan_pass cfg env st' = plan_pass cfg env st.
Proof.
  destruct st, st'. cbn. intros -> -> ->. reflexivity.
Qed.

(** A new process has the channels and playlists of the old one. *)
Lemma restart_channels fromisoformat cfg now now_iso st :
  channels (restart fromisoformat cfg now now_iso st) = channels st
  ∧ playlists (restart fromisoformat cfg now now_iso st) = playlists st.
Proof.
  unfold restart, init, load_channel_history, load_resume_state,
    cleanup_old_resume_entries.
  repeat match goal with
    | |- context [match ?x with _ => _ end] => destruct x
    end; done.
Qed.

(** Property X29. When the history file holds the history in memory, a
    new process started over the files plans exactly the tasks the old
    process would have planned for the same scans. *)
Theorem restart_plans_the_same (fromisoformat : string → option Z)
    (cfg cfg' : Config) (env : run_env) (now : Z) (now_iso : string)
    (st : downloader) :
  history_persisted st →
  plan_pass cfg env (restart fromisoformat cfg' now now_iso st)
  = plan_pass cfg env st.
Proof.
  intros Hp. apply plan_pass_frame.
  - by apply restart_recovers.
  - apply restart_channels.
  - apply restart_channels.
Qed.

Lemma restart_plans_the_same_witness :
  plan_pass default_config (pass_env [item "v1" 100; item "v2" 100] (Exited 0 []))
    (restart iso_instant default_config (start_time + 3600000000)
       "2026-11-03T11:00:00"
       (commits [("t1", "A", item "v1" 100)]
          (mark_first_run_completed "t0"
             (fresh_start [("A", "Channel A")] []))))
  = Some [(item "v2" 100, "Channel A", "channel")].
Proof.
  rewrite (restart_plans_the_same iso_instant default_config default_config
             (pass_env [item "v1" 100; item "v2" 100] (Exited 0 []))
             (start_time + 3600000000) "2026-11-03T11:00:00"
             (commits [("t1", "A", item "v1" 100)]
                (mark_first_run_completed "t0"
                   (fresh_start [("A", "Channel A")] [])))).
  - vm_compute. reflexivity.
  - vm_compute. reflexivity.
Defined.

(** ** Passes after a successful pass *)

(** Property X30. After a steady-state pass in which every job succeeds,
    every source has a distinct display name and no history reaches its
    limit, any number of further passes over the same scans run no job and
    leave the store as the first pass left it. *)
Theorem successful_pass_then_idle (fromisoformat : string → option Z)
    (cfg : Config) (env : run_env) (later : list run_env) (st : downloader)
    (r : pool_result) (tasks : list task) :
  is_first_run st = false →
  plan_pass cfg env st = Some tasks →
  run_auto_download cfg env st = Some r →
  schedule_of tasks (env_schedule env tasks) →
  (∀ i je t, (i, je) ∈ env_schedule env tasks → tasks !! i = Some t →
             succeeds t je) →
  NoDup (map snd (channels st)) → NoDup (map snd (playlists st)) →
  (∀ source,
     (length (history_ids st source) + length tasks ≤ history_limit)%nat) →
  (∀ env' handle name, env' ∈ later →
     channel_scan cfg (env_scan env') (pr_state r) handle name
     = channel_scan cfg (env_scan env) st handle name) →
  (∀ env' url name, env' ∈ later →
     playlist_scan cfg (env_scan env') url name
     = playlist_scan cfg (env_scan env) url name) →
  fold_left (apply_op fromisoformat) (map (OpPass cfg) later) (pr_state r)
  = pr_state r
  ∧ ∀ env', env' ∈ later →
      ∃ r', run_auto_download cfg env' (pr_state r) = Some r'
            ∧ pr_invocations r' = []
            ∧ successful_downloads r' = 0%nat
            ∧ pr_state r' = pr_state r.
Proof.
  intros Hfirst Hplan Hrun Hsched Hsucc Hnc Hnp Hlim Hcs Hps.
  assert (∀ env', env' ∈ later →
            ∃ r', run_auto_download cfg env' (pr_state r) = Some r'
                  ∧ pr_invocations r' = []
                  ∧ successful_downloads r' = 0%nat
                  ∧ pr_state r' = pr_state r) as Hidle.
  { intros env' Hin.
    destruct (pass_then_same_scans cfg env env' st r tasks Hfirst Hplan Hrun
                Hsched Hsucc Hnc Hnp Hlim) as [_ Hr'];
      [intros; by apply Hcs | intros; by apply Hps | exact Hr']. }
  split; [|exact Hidle].
  clear Hcs Hps. induction later as [|env' later IH]; [done|].
  cbn [map fold_left apply_op].
  destruct (Hidle env') as (r' & -> & _ & _ & ->); [apply list_elem_of_here|].
  apply IH. intros env'' Hin. apply Hidle. by apply list_elem_of_further.
Qed.

Lemma successful_pass_then_idle_witness :
  ∃ r,
    run_auto_download default_config
      (pass_env [item "v2" 30; item "v1" 200] (Exited 0 []))
      (commits [("t1", "A", item "v0" 100)]
         (mark_first_run_completed "t0" (fresh_start [("A", "Channel A")] [])))
    = Some r
    ∧ history_ids (pr_state r) "A" = ["v0"; "v1"]
    ∧ fold_left (apply_op iso_instant)
        (map (OpPass default_config)
           [pass_env [item "v2" 30; item "v1" 200] (Exited 0 []);
            pass_env [item "v2" 30; item "v1" 200] (Exited 1 [])])
        (pr_state r)
      = pr_state r.
Proof.
  set (scan := [item "v2" 30; item "v1" 200]).
  set (st := commits [("t1", "A", item "v0" 100)]
               (mark_first_run_completed "t0"
                  (fresh_start [("A", "Channel A")] []))).
  destruct (run_auto_download default_config (pass_env scan (Exited 0 [])) st)
    as [r|] eqn:Hrun; [|vm_compute in Hrun; discriminate Hrun].
  exists r. split; [reflexivity|].
  split; [vm_compute in Hrun; injection Hrun as <-; reflexivity|].
  refine (proj1 (successful_pass_then_idle iso_instant default_config
                   (pass_env scan (Exited 0 []))
                   [pass_env scan (Exited 0 []); pass_env scan (Exited 1 [])]
                   st r [(item "v1" 200, "Channel A", "channel")]
                   eq_refl eq_refl Hrun _ _ _ _ _ _ _)).
  - unfold schedule_of. reflexivity.
  - intros i je t Hin Ht st'. apply list_elem_of_singleton in Hin.
    injection Hin as -> ->. cbn in Ht. injection Ht as <-.
    unfold download_video. cbn. reflexivity.
  - cbn. apply NoDup_singleton.
  - cbn. apply NoDup_nil_2.
  - intros source. unfold st, commits. cbn [fold_left length].
    rewrite history_ids_update, history_limit_eq.
    assert (∀ s, history_ids
                   (mark_first_run_completed "t0"
                      (fresh_start [("A", "Channel A")] [])) s = []) as Hempty.
    { intros s. unfold history_ids, history_channels. cbn.
      by rewrite lookup_empty. }
    rewrite !Hempty. pose proof (ids_after_commit_length "v0" []) as Hlen.
    cbn [length] in Hlen. change (vi_id (item "v0" 100)) with "v0".
    case_bool_decide; cbn [length]; lia.
  - intros env' handle name Hin.
    apply elem_of_cons in Hin as [->|Hin];
      [|apply list_elem_of_singleton in Hin as ->];
      unfold channel_scan; cbn; done.
  - intros env' url name Hin.
    apply elem_of_cons in Hin as [->|Hin];
      [|apply list_elem_of_singleton in Hin as ->];
      unfold playlist_scan; cbn; done.
Defined.
